(** * cnpy++: the NPY/NPZ codec, embedded and verified

    A shallow embedding of the header codec ([create_npy_header],
    [parse_npy_dict], [parse_npy_header]), of the file front end
    ([npy_save], [npy_load]), of the pull-based archive writer
    ([npzwrite_source_callback]) and of the typed views of [NpyArray]
    ([tuple_range], [column_range]).

    Conventions.
    - A C++ [char] is an [ascii]; [std::vector<char>], [std::string_view]
      and file contents are [list ascii].
    - [size_t] is a [Z] in [0, 2^64) and [int] a [Z] in [-2^31, 2^31); the
      wrap-around is written where the source computes in that type.
    - Positions and lengths inside byte sequences are [nat].
    - A call either returns, throws ([std::runtime_error],
      [std::out_of_range]) or has no defined behaviour (reads outside an
      object); see [result].  An exception of the library carries its
      message; for one thrown by the standard library or by Boost, whose
      message is the implementation's, [what] names the function.
    - The file system is a map [files] from a name to the content of the
      file that the process can open under it, for reading and for update.
      Two names of the map are two files.  Whether a file can be created
      under a name that has none is decided outside the program (the
      directory of the name has to exist and to admit it; the empty name
      never does): [creatable] answers it. *)

From Stdlib Require Import ZArith List Ascii String Lia Bool.
From stdpp Require Import gmap strings.
Import ListNotations.

Local Open Scope Z_scope.

(** ** Outcomes of a call *)

Inductive result (A : Type) : Type :=
| Ok (a : A)
| Throw (what : string)
| Undefined.

Arguments Ok {A} a.
Arguments Throw {A} what.
Arguments Undefined {A}.

Definition bind {A B : Type} (r : result A) (k : A -> result B) : result B :=
  match r with
  | Ok a => k a
  | Throw w => Throw w
  | Undefined => Undefined
  end.

Notation "'let!' x ':=' e 'in' k" := (bind e (fun x => k))
  (at level 10, x pattern, e at level 100, k at level 200).

Definition throws {A : Type} (r : result A) : Prop := exists w, r = Throw w.

Definition returns {A : Type} (r : result A) : Prop := exists a, r = Ok a.

Fixpoint mapM {A B : Type} (f : A -> result B) (l : list A) : result (list B) :=
  match l with
  | [] => Ok []
  | x :: t => let! y := f x in let! ys := mapM f t in Ok (y :: ys)
  end.

(** ** Bytes *)

Abbreviation bytes := (list ascii).

Definition lit (s : string) : bytes := list_ascii_of_string s.

Definition chr (z : Z) : ascii := ascii_of_N (Z.to_N z).

Definition ord (c : ascii) : Z := Z.of_N (N_of_ascii c).

Definition newline : ascii := chr 10.

Definition quote : ascii := chr 39.

(** [os << std::quoted(s)]: [s] between double quotes, each double quote and
    backslash of [s] behind a backslash. *)
Fixpoint escaped (s : string) : string :=
  match s with
  | EmptyString => EmptyString
  | String c t =>
      if Ascii.eqb c (chr 34) || Ascii.eqb c (chr 92)
      then String (chr 92) (String c (escaped t))
      else String c (escaped t)
  end.

Definition quoted (s : string) : string :=
  String (chr 34) (escaped s +:+ String (chr 34) EmptyString).

Fixpoint bytes_eqb (a b : bytes) : bool :=
  match a, b with
  | [], [] => true
  | x :: a', y :: b' => Ascii.eqb x y && bytes_eqb a' b'
  | _, _ => false
  end.

(** [operator+=(std::vector<char>&, T)]: the [n] bytes of [v], least
    significant first. *)
Fixpoint le_bytes (n : nat) (v : Z) : bytes :=
  match n with
  | O => []
  | S k => chr (v mod 256) :: le_bytes k (v / 256)
  end.

(** [boost::endian::endian_load<uint16_t, 2, order::little>]. *)
Definition load_le16 (lo hi : ascii) : Z := ord lo + 256 * ord hi.

(** ** [std::to_string] and [std::stoi] *)

Definition is_digit (c : ascii) : bool := (48 <=? ord c) && (ord c <=? 57).

Definition is_space (c : ascii) : bool :=
  (ord c =? 32) || ((9 <=? ord c) && (ord c <=? 13)).

Definition digit_char (d : Z) : ascii := chr (48 + d).

Definition digit_val (c : ascii) : Z := ord c - 48.

Fixpoint digits_aux (fuel : nat) (n : Z) (acc : bytes) : bytes :=
  let acc' := digit_char (n mod 10) :: acc in
  match fuel with
  | O => acc'
  | S f => if n / 10 =? 0 then acc' else digits_aux f (n / 10) acc'
  end.

(** The decimal digits of [n >= 0], most significant first. *)
Definition digits (n : Z) : bytes := digits_aux (Z.to_nat (Z.log2 n)) n [].

Definition to_string (n : Z) : bytes :=
  if n <? 0 then chr 45 :: digits (- n) else digits n.

Fixpoint digits_value (acc : Z) (s : bytes) : Z :=
  match s with
  | [] => acc
  | c :: t => digits_value (acc * 10 + digit_val c) t
  end.

Fixpoint span (p : ascii -> bool) (s : bytes) : bytes * bytes :=
  match s with
  | [] => ([], [])
  | c :: t => if p c then let (a, b) := span p t in (c :: a, b) else ([], s)
  end.

Fixpoint drop_while (p : ascii -> bool) (s : bytes) : bytes :=
  match s with
  | [] => []
  | c :: t => if p c then drop_while p t else s
  end.

Definition INT_MAX : Z := 2147483647.
Definition INT_MIN : Z := -2147483648.

(** [std::stoi(str)]: leading white space, an optional sign, then the longest
    run of digits; [std::invalid_argument] without a digit,
    [std::out_of_range] outside [int]. *)
Definition stoi (s : bytes) : result Z :=
  let s1 := drop_while is_space s in
  let '(neg, s2) :=
    match s1 with
    | c :: t => if Ascii.eqb c (chr 45) then (true, t)
                else if Ascii.eqb c (chr 43) then (false, t) else (false, s1)
    | [] => (false, s1)
    end in
  let (ds, _) := span is_digit s2 in
  match ds with
  | [] => Throw "stoi"
  | _ =>
      let v := if neg : bool then - digits_value 0 ds else digits_value 0 ds in
      if (INT_MIN <=? v) && (v <=? INT_MAX) then Ok v else Throw "stoi"
  end.

(** ** The host and the element types *)

Inductive byte_order := LittleEndian | BigEndian.

Inductive MemoryOrder := Fortran | C.

Definition ColumnMajor : MemoryOrder := Fortran.
Definition RowMajor : MemoryOrder := C.

Definition MemoryOrder_eqb (a b : MemoryOrder) : bool :=
  match a, b with
  | Fortran, Fortran | C, C => true
  | _, _ => false
  end.

(** The object representation of an [int32_t] on the host. *)
Definition int32_object (host : byte_order) (x : Z) : bytes :=
  match host with
  | LittleEndian => le_bytes 4 x
  | BigEndian => rev (le_bytes 4 x)
  end.

(** [BigEndianTest]: looks at the first byte of the [int32_t] 1. *)
Definition BigEndianTest (host : byte_order) : ascii :=
  match int32_object host 1 with
  | c :: _ => if ord c =? 0 then ">"%char else "<"%char
  | [] => ">"%char
  end.

(** What [map_type] distinguishes about a C++ arithmetic type. *)
Inductive type_kind :=
| KComplex
| KBool
| KIntegral (is_signed : bool)
| KFloating.

Record value_type := {
  kind : type_kind;
  sizeof : Z
}.

(** [map_type]. *)
Definition map_type (T : value_type) : ascii :=
  match kind T with
  | KComplex => "c"%char
  | KBool => "b"%char
  | KIntegral true => "i"%char
  | KIntegral false => "u"%char
  | KFloating => "f"%char
  end.

Definition int8_t := {| kind := KIntegral true; sizeof := 1 |}.
Definition uint8_t := {| kind := KIntegral false; sizeof := 1 |}.
Definition int16_t := {| kind := KIntegral true; sizeof := 2 |}.
Definition int32_t := {| kind := KIntegral true; sizeof := 4 |}.
Definition uint32_t := {| kind := KIntegral false; sizeof := 4 |}.
Definition double_t := {| kind := KFloating; sizeof := 8 |}.
Definition long_double_t := {| kind := KFloating; sizeof := 16 |}.

(** ** Header generation *)

Definition SIZE_MOD : Z := 2 ^ 64.

(** [dict.back() = c] on a non-empty vector. *)
Definition set_back (l : bytes) (c : ascii) : bytes := removelast l ++ [c].

(** The tail of both [create_npy_header]: pad with spaces so that preamble
    plus dictionary is a multiple of 16 bytes, end the dictionary with a
    newline, and put the 10-byte preamble in front. *)
Definition pad_dict (dict : bytes) : bytes :=
  let remainder := (16 - (10 + length dict) mod 16)%nat in
  set_back (dict ++ repeat " "%char remainder) newline.

Definition preamble (dict : bytes) : bytes :=
  le_bytes 1 147 ++ lit "NUMPY" ++ le_bytes 1 1 ++ le_bytes 1 0
    ++ le_bytes 2 (Z.of_nat (length dict) mod 65536).

Definition finish_header (dict : bytes) : bytes :=
  let dict' := pad_dict dict in preamble dict' ++ dict'.

(** The text between the parentheses of ['shape': (...)], after [shape[0]]. *)
Definition shape_tail (shape : list Z) : bytes :=
  concat (map (fun d => lit ", " ++ to_string d) shape).

Definition shape_text (s0 : Z) (rest : list Z) : bytes :=
  to_string s0 ++ shape_tail rest
    ++ (if Nat.eqb (length (s0 :: rest)) 1 then lit "," else []).

Definition fortran_text (memory_order : MemoryOrder) : bytes :=
  match memory_order with C => lit "False" | Fortran => lit "True" end.

(** [create_npy_header(shape, dtype, wordsize, memory_order)]. *)
Definition create_npy_header (host : byte_order) (shape : list Z)
    (dtype : ascii) (wordsize : Z) (memory_order : MemoryOrder) : result bytes :=
  match shape with
  | [] => Undefined
  | s0 :: rest =>
      Ok (finish_header
            (lit "{'descr': '" ++ [BigEndianTest host] ++ [dtype]
               ++ to_string wordsize
               ++ lit "', 'fortran_order': " ++ fortran_text memory_order
               ++ lit ", 'shape': (" ++ shape_text s0 rest ++ lit "), }"))
  end.

(** One [('label', '<endian><code><width>')] tuple of a structured
    descriptor, with the [", "] separator unless it is the last one. *)
Definition descr_tuple (host : byte_order) (last : bool)
    (f : bytes * ascii * Z) : bytes :=
  let '(label, dtype, size) := f in
  lit "('" ++ label ++ lit "', '" ++ [BigEndianTest host] ++ [dtype]
    ++ to_string size ++ lit "')" ++ (if last then [] else lit ", ").

Fixpoint descr_tuples (host : byte_order) (fs : list (bytes * ascii * Z)) : bytes :=
  match fs with
  | [] => []
  | [f] => descr_tuple host true f
  | f :: t => descr_tuple host false f ++ descr_tuples host t
  end.

Fixpoint zip3 (a : list bytes) (b : list ascii) (c : list Z)
  : list (bytes * ascii * Z) :=
  match a, b, c with
  | x :: a', y :: b', z :: c' => (x, y, z) :: zip3 a' b' c'
  | _, _, _ => []
  end.

(** [create_npy_header(shape, labels, dtypes, sizes, memory_order)]. *)
Definition create_npy_header_struct (host : byte_order) (shape : list Z)
    (labels : list bytes) (dtypes : list ascii) (sizes : list Z)
    (memory_order : MemoryOrder) : result bytes :=
  if negb (Nat.eqb (length labels) (length dtypes))
     || negb (Nat.eqb (length dtypes) (length sizes))
     || negb (Nat.eqb (length sizes) (length labels))
  then Throw "create_npy_header: sizes of argument vectors not equal"
  else
    match shape with
    | [] => Undefined
    | s0 :: rest =>
        Ok (finish_header
              (lit "{'descr': [" ++ descr_tuples host (zip3 labels dtypes sizes)
                 ++ (if Nat.eqb (length dtypes) 1 then lit "," else [])
                 ++ lit "], 'fortran_order': " ++ fortran_text memory_order
                 ++ lit ", 'shape': (" ++ shape_text s0 rest ++ lit "), }"))
    end.

(** The dictionary of a header: everything after the 10-byte preamble. *)
Definition dictionary (header : bytes) : bytes := skipn 10 header.

(** The 16-bit length field stored at bytes 8 and 9 of a header. *)
Definition header_len (header : bytes) : Z :=
  load_le16 (nth 8 header zero) (nth 9 header zero).

(** The padding invariant of a generated header. *)
Record padded (header : bytes) : Prop := {
  padded_length : length header = (10 + length (dictionary header))%nat;
  padded_mod16 : ((10 + length (dictionary header)) mod 16 = 0)%nat;
  padded_newline :
    nth_error header (10 + length (dictionary header) - 1) = Some newline;
  padded_field_mod16 : (10 + header_len header) mod 16 = 0;
  padded_field :
    Z.of_nat (length (dictionary header)) < 65536 ->
    header_len header = Z.of_nat (length (dictionary header))
}.

(** ** [std::string_view::find] *)

Fixpoint is_prefix (p s : bytes) : bool :=
  match p, s with
  | [], _ => true
  | x :: p', y :: s' => Ascii.eqb x y && is_prefix p' s'
  | _ :: _, [] => false
  end.

(** [s.find(p)]: the index of the first occurrence of [p] in [s]. *)
Fixpoint find (p s : bytes) : option nat :=
  if is_prefix p s then Some O
  else match s with
       | [] => None
       | _ :: t => option_map S (find p t)
       end.

(** [s.find(p, pos)]. *)
Definition find_from (p s : bytes) (pos : nat) : option nat :=
  option_map (Nat.add pos) (find p (skipn pos s)).

(** The characters of [s] in the half-open range [[b, e)]. *)
Definition slice (s : bytes) (b e : nat) : bytes := firstn (e - b) (skipn b s).

(** ** The regular expressions of the parser

    A matcher tries its expression at the start of the text and answers the
    sub-matches (number 0 is the whole match, as in [std::cmatch]) and the
    text after the match.  Every repetition in the four expressions below is
    a greedy run of one character class that is followed by a literal
    character outside the class, so the longest run is the only one the
    backtracking matcher of [std::regex] can succeed with. *)

Definition matcher : Type := bytes -> option (list bytes * bytes).

Fixpoint expect (p s : bytes) : option bytes :=
  match p with
  | [] => Some s
  | x :: p' =>
      match s with
      | y :: s' => if Ascii.eqb x y then expect p' s' else None
      | [] => None
      end
  end.

Definition one (cls : ascii -> bool) (s : bytes) : option (ascii * bytes) :=
  match s with
  | c :: t => if cls c then Some (c, t) else None
  | [] => None
  end.

Definition many1 (cls : ascii -> bool) (s : bytes) : option (bytes * bytes) :=
  match span cls s with
  | ([], _) => None
  | (a, b) => Some (a, b)
  end.

(** [\w]: letters, digits and the underscore. *)
Definition is_word (c : ascii) : bool :=
  ((97 <=? ord c) && (ord c <=? 122)) || ((65 <=? ord c) && (ord c <=? 90))
  || is_digit c || (ord c =? 95).

(** [[<>|]]. *)
Definition is_endian (c : ascii) : bool :=
  (ord c =? 60) || (ord c =? 62) || (ord c =? 124).

(** [[a-zA-z]]: the second range runs from ['A'] to the lower-case ['z']. *)
Definition is_code (c : ascii) : bool :=
  ((97 <=? ord c) && (ord c <=? 122)) || ((65 <=? ord c) && (ord c <=? 122)).

(** ['fortran_order': (True|False)] *)
Definition fortran_order_regex : matcher := fun s =>
  match expect (lit "'fortran_order': ") s with
  | None => None
  | Some s1 =>
      match expect (lit "True") s1 with
      | Some r => Some ([lit "'fortran_order': True"; lit "True"], r)
      | None =>
          match expect (lit "False") s1 with
          | Some r => Some ([lit "'fortran_order': False"; lit "False"], r)
          | None => None
          end
      end
  end.

(** [\d+] *)
Definition digit_re : matcher := fun s =>
  match many1 is_digit s with
  | Some (d, r) => Some ([d], r)
  | None => None
  end.

(** ['([<>\|])([a-zA-z])(\d+)'] *)
Definition simple_descr_regex : matcher := fun s =>
  match expect [quote] s with
  | None => None
  | Some s1 =>
      match one is_endian s1 with
      | None => None
      | Some (e, s2) =>
          match one is_code s2 with
          | None => None
          | Some (c, s3) =>
              match many1 is_digit s3 with
              | None => None
              | Some (d, s4) =>
                  match expect [quote] s4 with
                  | None => None
                  | Some r =>
                      Some ([[quote] ++ [e] ++ [c] ++ d ++ [quote]; [e]; [c]; d], r)
                  end
              end
          end
      end
  end.

(** [dtype_tuple_regex]: [\('(\w+)', '([<>|])([a-zA-z])(\d+)'\)] *)
Definition dtype_tuple_regex : matcher := fun s =>
  match expect (lit "('") s with
  | None => None
  | Some s1 =>
      match many1 is_word s1 with
      | None => None
      | Some (w, s2) =>
          match expect (lit "', '") s2 with
          | None => None
          | Some s3 =>
              match one is_endian s3 with
              | None => None
              | Some (e, s4) =>
                  match one is_code s4 with
                  | None => None
                  | Some (c, s5) =>
                      match many1 is_digit s5 with
                      | None => None
                      | Some (d, s6) =>
                          match expect (lit "')") s6 with
                          | None => None
                          | Some r =>
                              Some ([lit "('" ++ w ++ lit "', '" ++ [e] ++ [c]
                                       ++ d ++ lit "')"; w; [e]; [c]; d], r)
                          end
                      end
                  end
              end
          end
      end
  end.

(** [std::regex_search]: the leftmost match; answers its offset, its
    sub-matches and the text after it. *)
Fixpoint regex_search (m : matcher) (s : bytes)
  : option (nat * list bytes * bytes) :=
  match m s with
  | Some (sub, rest) => Some (O, sub, rest)
  | None =>
      match s with
      | [] => None
      | _ :: t =>
          match regex_search m t with
          | Some (i, sub, rest) => Some (S i, sub, rest)
          | None => None
          end
      end
  end.

Fixpoint regex_iterate (fuel : nat) (m : matcher) (s : bytes) : list (list bytes) :=
  match fuel with
  | O => []
  | S f =>
      match regex_search m s with
      | None => []
      | Some (_, sub, rest) => sub :: regex_iterate f m rest
      end
  end.

(** [std::cregex_iterator] from the start of [s] to its end: the successive
    matches, each search resuming where the previous match ended (no match
    of the expressions above is empty). *)
Definition cregex_iterator (m : matcher) (s : bytes) : list (list bytes) :=
  regex_iterate (S (length s)) m s.

(** [matches[k].str()] *)
Definition sub_match (matches : list bytes) (k : nat) : bytes := nth k matches [].

(** ** Header parsing *)

Record parsed_header := {
  hdr_word_sizes : list Z;
  hdr_data_types : list ascii;
  hdr_labels : list bytes;
  hdr_shape : list Z;
  hdr_memory_order : MemoryOrder
}.

(** Conversion of an [int] to [size_t]. *)
Definition size_t_of_int (z : Z) : Z := z mod SIZE_MOD.

Definition stoi_size (s : bytes) : result Z :=
  let! v := stoi s in Ok (size_t_of_int v).

(** The body of the loop over the tuples of a structured descriptor. *)
Definition parse_tuple (m : list bytes) : result (bytes * ascii * Z) :=
  if bytes_eqb (sub_match m 2) (lit ">")
  then Throw "parse_npy_header: data stored in big-endian format (not supported)"
  else let! w := stoi_size (sub_match m 4) in
       Ok (sub_match m 1, hd zero (sub_match m 3), w).

Definition sh : bytes := lit "'shape': (".
Definition desc : bytes := lit "'descr': ".

Definition parse_shape (dict : bytes) : result (list Z) :=
  match find sh dict with
  | None => Throw "invalid header: missing 'shape'"
  | Some pos_start_shape =>
      match find_from (lit ")") dict pos_start_shape with
      | None => Throw "invalid header: malformed dictionary"
      | Some pos_end_shape =>
          mapM (fun m => stoi_size (sub_match m 0))
               (cregex_iterator digit_re (slice dict pos_start_shape pos_end_shape))
      end
  end.

Definition parse_fortran_order (dict : bytes) : result MemoryOrder :=
  match regex_search fortran_order_regex dict with
  | None => Throw "invalid header: missing 'fortran_order'"
  | Some (_, matches, _) =>
      Ok (if bytes_eqb (sub_match matches 1) (lit "True") then Fortran else C)
  end.

(** The last block of [parse_npy_dict]: word sizes, type codes and labels. *)
Definition parse_descr (dict : bytes) : result (list Z * list ascii * list bytes) :=
  match find desc dict with
  | None => Throw "invalid header: missing 'descr'"
  | Some pos_start_desc =>
      match nth_error dict (pos_start_desc + length desc) with
      | None => Undefined
      | Some c =>
          if Ascii.eqb c quote then
            match regex_search simple_descr_regex (skipn pos_start_desc dict) with
            | None =>
                Throw "parse_npy_header: could not parse data type descriptor"
            | Some (_, matches, _) =>
                if bytes_eqb (sub_match matches 1) (lit ">")
                then Throw "parse_npy_header: data stored in big-endian format (not supported)"
                else let! w := stoi_size (sub_match matches 3) in
                     Ok ([w], [hd zero (sub_match matches 2)], [])
            end
          else if Ascii.eqb c "["%char then
            match find_from (lit "]") dict (pos_start_desc + length desc) with
            | None => Throw "invalid header: malformed list in 'descr'"
            | Some pos_end_list =>
                let! fields :=
                  mapM parse_tuple
                    (cregex_iterator dtype_tuple_regex
                       (slice dict (pos_start_desc + length desc) pos_end_list)) in
                Ok (map snd fields, map (fun f => snd (fst f)) fields,
                    map (fun f => fst (fst f)) fields)
            end
          else Throw "invalid header: malformed 'descr'"
      end
  end.

(** A plain header: the value of ['descr'] starts with a quote, the test
    [parse_npy_dict] branches on. *)
Definition plain_descr (dict : bytes) : Prop :=
  exists p, find desc dict = Some p
            /\ nth_error dict (p + length desc) = Some quote.

(** [parse_npy_dict]. *)
Definition parse_npy_dict (buffer : bytes) : result parsed_header :=
  match buffer with
  | [] => Undefined
  | front :: _ =>
      if negb (Ascii.eqb (List.last buffer zero) newline)
      then Throw "invalid header: missing terminating newline"
      else if negb (Ascii.eqb front "{"%char)
      then Throw "invalid header: malformed dictionary"
      else
        let! memory_order := parse_fortran_order buffer in
        let! shape := parse_shape buffer in
        let! fields := parse_descr buffer in
        let '(word_sizes, data_types, labels) := fields in
        Ok {| hdr_word_sizes := word_sizes; hdr_data_types := data_types;
              hdr_labels := labels; hdr_shape := shape;
              hdr_memory_order := memory_order |}
  end.

(** [parse_npy_header(char const* buffer, ...)]; [buffer] is the object the
    pointer points into. *)
Definition parse_npy_header_buffer (buffer : bytes) : result parsed_header :=
  match nth_error buffer 6, nth_error buffer 7,
        nth_error buffer 8, nth_error buffer 9 with
  | Some major_version, Some minor_version, Some lo, Some hi =>
      let header_len := Z.to_nat (load_le16 lo hi) in
      if negb ((ord major_version =? 1) && (ord minor_version =? 0))
      then Throw "parse_npy_header: version not supported"
      else if (length buffer <? 10 + header_len)%nat then Undefined
      else parse_npy_dict (firstn header_len (skipn 10 buffer))
  | _, _, _, _ => Undefined
  end.

(** ** Streams *)

(** A [std::fstream] on a file: the bytes of the file, the (single) file
    position and whether no error flag is set. *)
Record fstream := {
  content : bytes;
  pos : nat;
  good : bool
}.

Definition open_existing (c : bytes) : fstream :=
  {| content := c; pos := O; good := true |}.

(** Opening with [std::ios_base::out] alone truncates. *)
Definition open_truncate : fstream :=
  {| content := []; pos := O; good := true |}.

(** [fs.read(dest, n)]: the characters put into [dest]; fewer than [n] set
    the error flags, and nothing is read from a stream in error. *)
Definition stream_read (n : nat) (fs : fstream) : bytes * fstream :=
  if good fs then
    let got := firstn n (skipn (pos fs) (content fs)) in
    (got, {| content := content fs; pos := (pos fs + length got)%nat;
             good := (length got =? n)%nat |})
  else ([], fs).

(** [fs.seekp(0, std::ios_base::beg)] and [fs.seekp(0, std::ios_base::end)]. *)
Definition seekp_beg (fs : fstream) : fstream :=
  if good fs then {| content := content fs; pos := O; good := true |} else fs.

Definition seekp_end (fs : fstream) : fstream :=
  if good fs
  then {| content := content fs; pos := length (content fs); good := true |}
  else fs.

(** [fs.write(data, |data|)]: overwrites at the file position and extends
    the file past its end. *)
Definition stream_write (data : bytes) (fs : fstream) : fstream :=
  if good fs then
    {| content := firstn (pos fs) (content fs) ++ data
                    ++ skipn (pos fs + length data) (content fs);
       pos := (pos fs + length data)%nat; good := true |}
  else fs.

(** [fs.tellg()], converted to [size_t]. *)
Definition tellg (fs : fstream) : Z :=
  if good fs then Z.of_nat (pos fs) else SIZE_MOD - 1.

Definition npy_magic_string : bytes := chr 147 :: lit "NUMPY".

(** A value-initialised array of [n] characters that received [got]. *)
Definition zero_filled (n : nat) (got : bytes) : bytes :=
  got ++ repeat zero (n - length got).

(** [parse_npy_header(std::istream& fs, ...)].  The 10-byte preamble is read
    into an uninitialised array: its content is indeterminate after a short
    read. *)
Definition parse_npy_header (fs : fstream) : result (parsed_header * fstream) :=
  let (buffer, fs1) := stream_read 10 fs in
  if (length buffer <? 10)%nat then Undefined
  else if negb (is_prefix npy_magic_string buffer)
  then Throw "parse_npy_header: NPY magic string not found"
  else
    let major_version := ord (nth 6 buffer zero) in
    let minor_version := ord (nth 7 buffer zero) in
    if negb (major_version =? 1) || negb (minor_version =? 0)
    then Throw "parse_npy_header: NPY format version not supported"
    else
      let header_len := Z.to_nat (load_le16 (nth 8 buffer zero) (nth 9 buffer zero)) in
      let (got, fs2) := stream_read header_len fs1 in
      let! h := parse_npy_dict (zero_filled header_len got) in
      Ok (h, fs2).

(** ** [NpyArray] *)

(** [std::accumulate] over [size_t] values with a [size_t] accumulator. *)
Definition accumulate_multiplies (l : list Z) : Z :=
  fold_left (fun acc x => (acc * x) mod SIZE_MOD) l 1.

Definition accumulate_plus (l : list Z) : Z :=
  fold_left (fun acc x => (acc + x) mod SIZE_MOD) l 0.

(** Conversion of a [size_t] to [int]. *)
Definition int_of_size_t (z : Z) : Z := (z + 2 ^ 31) mod 2 ^ 32 - 2 ^ 31.

(** [std::accumulate(shape.begin(), shape.end(), 1, std::multiplies<size_t>())]:
    the initial value [1] is an [int], so the accumulator is an [int] that is
    widened for every product and narrowed again; the result initialises a
    [size_t]. *)
Definition accumulate_multiplies_int (l : list Z) : Z :=
  size_t_of_int
    (fold_left (fun acc x => int_of_size_t ((size_t_of_int acc * x) mod SIZE_MOD)) l 1).

Record NpyArray := {
  shape : list Z;
  word_sizes : list Z;
  labels : list bytes;
  memory_order : MemoryOrder;
  num_vals : Z;
  total_value_size : Z;
  buffer : bytes  (* the bytes at [buffer->data()] *)
}.

(** The constructor of [NpyArray]. *)
Definition make_NpyArray (_shape _word_sizes : list Z) (_labels : list bytes)
    (_memory_order : MemoryOrder) (_buffer : bytes) : NpyArray :=
  {| shape := _shape; word_sizes := _word_sizes; labels := _labels;
     memory_order := _memory_order;
     num_vals := accumulate_multiplies _shape;
     total_value_size := accumulate_plus _word_sizes;
     buffer := _buffer |}.

Definition num_bytes (a : NpyArray) : Z :=
  (num_vals a * total_value_size a) mod SIZE_MOD.

(** [InMemoryBuffer(size)]: a value-initialised array of [size] bytes.  A
    new-expression refuses an array of [2^63] bytes or more, more than
    [PTRDIFF_MAX]; below that the allocation is taken to succeed. *)
Definition InMemoryBuffer (size : Z) : result bytes :=
  if 2 ^ 63 <=? size then Throw "std::bad_array_new_length"
  else Ok (repeat zero (Z.to_nat size)).

(** [fs.read] or [zip_fread] into an array: the characters [got] replace the
    first ones of [dest]. *)
Definition read_into (got dest : bytes) : bytes :=
  got ++ skipn (length got) dest.

(** [MemoryMappedBuffer(path, offset_, length)] and its [data()]: the mapping
    starts at [offset_] rounded down to the mapping alignment, is
    [offset_ % alignment + length] bytes long, and [data()] skips the
    remainder.  The mapping itself is done by the Boost library; mapping
    nothing or more than the file holds fails there. *)
Definition MemoryMappedBuffer (alignment : Z) (file : bytes) (offset_ length : Z)
  : result bytes :=
  let offset := offset_ mod alignment in
  let map_start := (offset_ / alignment) * alignment in
  let map_length := (offset + length) mod SIZE_MOD in
  if (map_length =? 0) || (Z.of_nat (List.length file) <? map_start + map_length)
  then Throw "failed mapping file"
  else
    let window := firstn (Z.to_nat map_length) (skipn (Z.to_nat map_start) file) in
    Ok (skipn (Z.to_nat offset) window).

(** [npy_load(fname, memory_mapped)] on the files [files]. *)
Definition npy_load (alignment : Z) (files : gmap string bytes) (fname : string)
    (memory_mapped : bool) : result NpyArray :=
  match files !! fname with
  | None => Throw ("npy_load: Unable to open file " ++ fname)
  | Some file =>
      let! parsed := parse_npy_header (open_existing file) in
      let (h, fs) := parsed : parsed_header * fstream in
      let num_vals := accumulate_multiplies (hdr_shape h) in
      let total_value_size := accumulate_plus (hdr_word_sizes h) in
      let num_bytes := (total_value_size * num_vals) mod SIZE_MOD in
      let! buffer :=
        if negb memory_mapped
        then
          let! allocated := InMemoryBuffer num_bytes in
          Ok (read_into (fst (stream_read (Z.to_nat num_bytes) fs)) allocated)
        else MemoryMappedBuffer alignment file (tellg fs) num_bytes in
      Ok (make_NpyArray (hdr_shape h) (hdr_word_sizes h) (hdr_labels h)
            (hdr_memory_order h) buffer)
  end.

(** ** Writing the payload *)

(** [write_data] from contiguous memory: [nels * size_elem] bytes of the
    memory at [start], here the object representations of the elements one
    after the other. *)
Definition write_data (size_elem : Z) (start : list bytes) (nels : Z)
    (fs : fstream) : result fstream :=
  let memory := concat start in
  let n := (nels * size_elem) mod SIZE_MOD in
  if Z.of_nat (length memory) <? n then Undefined
  else Ok (stream_write (firstn (Z.to_nat n) memory) fs).

Fixpoint write_data_loop (fuel : nat) (size_elem : Z) (buffer_size : nat)
    (it : list bytes) (todo : nat) (fs : fstream) : result fstream :=
  if (todo =? 0)%nat then Ok fs
  else
    match fuel with
    | O => Undefined
    | S f =>
        let count := Nat.min buffer_size todo in
        if (length it <? count)%nat then Undefined
        else
          let! fs' := write_data size_elem (firstn count it) (Z.of_nat count) fs in
          write_data_loop f size_elem buffer_size (skipn count it) (todo - count) fs'
    end.

(** [write_data] from any other iterator: chunks of at most [0x10000]
    elements are copied into a buffer that the overload above writes. *)
Definition write_data_chunked (size_elem : Z) (start : list bytes) (nels : Z)
    (fs : fstream) : result fstream :=
  let buffer_size := Z.to_nat (Z.min nels 65536) in
  write_data_loop (Z.to_nat nels) size_elem buffer_size start (Z.to_nat nels) fs.

(** ** [tuple_info] *)

Definition tuple_type : Type := list value_type.

Definition tuple_data_types (Tup : tuple_type) : list ascii := map map_type Tup.

Definition element_sizes (Tup : tuple_type) : list Z := map sizeof Tup.

Definition sum_sizes (Tup : tuple_type) : Z :=
  fold_left (fun sum v => (sum + v) mod SIZE_MOD) (element_sizes Tup) 0.

(** [calc_offsets_impl<k>]: [offsets[k] = offsets[k - 1] + element_sizes[k - 1]]. *)
Fixpoint calc_offsets_impl (prev : Z) (sizes : list Z) : list Z :=
  match sizes with
  | [] => []
  | [_] => []
  | s :: t => let o := (prev + s) mod SIZE_MOD in o :: calc_offsets_impl o t
  end.

Definition offsets (Tup : tuple_type) : list Z :=
  match Tup with
  | [] => []
  | _ => 0 :: calc_offsets_impl 0 (element_sizes Tup)
  end.

(** [std::copy(beg, beg + |src|, buffer + pos)]. *)
Definition write_at (pos : nat) (src buf : bytes) : result bytes :=
  if (length buf <? pos + length src)%nat then Undefined
  else Ok (firstn pos buf ++ src ++ skipn (pos + length src) buf).

Fixpoint fill_from (layout : list (Z * Z)) (tup : list bytes) (base : nat)
    (buf : bytes) : result bytes :=
  match layout, tup with
  | [], [] => Ok buf
  | (o, size) :: layout', elem :: tup' =>
      if negb (Z.of_nat (length elem) =? size) then Undefined
      else
        let! buf' := write_at (base + Z.to_nat o) elem buf in
        fill_from layout' tup' base buf'
  | _, _ => Undefined
  end.

(** [fill<T>(tup, buffer + base)]: element [k] of the tuple goes to
    [offsets[k]]; a value of type [T] has one element per component, each
    [element_sizes[k]] bytes wide. *)
Definition fill (Tup : tuple_type) (tup : list bytes) (base : nat) (buf : bytes)
  : result bytes :=
  fill_from (combine (offsets Tup) (element_sizes Tup)) tup base buf.

Fixpoint fill_tuples (Tup : tuple_type) (its : list (list bytes)) (count : nat)
    (buf : bytes) : result bytes :=
  match its with
  | [] => Ok buf
  | tup :: its' =>
      let! buf' := fill Tup tup (count * Z.to_nat (sum_sizes Tup)) buf in
      fill_tuples Tup its' (S count) buf'
  end.

Fixpoint write_data_tuple_loop (fuel : nat) (Tup : tuple_type) (buffer_size : nat)
    (buf : bytes) (it : list (list bytes)) (todo : nat) (fs : fstream)
  : result fstream :=
  if (todo =? 0)%nat then Ok fs
  else
    match fuel with
    | O => Undefined
    | S f =>
        let count := Nat.min buffer_size todo in
        if (length it <? count)%nat then Undefined
        else
          let! buf' := fill_tuples Tup (firstn count it) 0 buf in
          let! fs' := write_data 1 (map (fun c => [c]) buf')
                        ((Z.of_nat count * sum_sizes Tup) mod SIZE_MOD) fs in
          write_data_tuple_loop f Tup buffer_size buf' (skipn count it)
            (todo - count) fs'
    end.

(** [write_data_tuple]. *)
Definition write_data_tuple (Tup : tuple_type) (start : list (list bytes))
    (nels : Z) (fs : fstream) : result fstream :=
  let buffer_size := Z.to_nat (Z.min nels 65536) in
  let buf := repeat zero (Z.to_nat ((Z.of_nat buffer_size * sum_sizes Tup) mod SIZE_MOD)) in
  write_data_tuple_loop (Z.to_nat nels) Tup buffer_size buf start (Z.to_nat nels) fs.

(** ** [npy_save] *)

(** [v.at(0)] *)
Definition at0 {A : Type} (v : list A) : result A :=
  match v with
  | x :: _ => Ok x
  | [] => Throw "vector::at"
  end.

Fixpoint Z_list_eqb (a b : list Z) : bool :=
  match a, b with
  | [], [] => true
  | x :: a', y :: b' => (x =? y) && Z_list_eqb a' b'
  | _, _ => false
  end.

(** [std::equal(first1, last1, first2)] on ranges of the same length. *)
Definition equal3 {A : Type} (eqb : A -> A -> bool) (r1 r2 : list A) : bool :=
  forallb (fun p => eqb (fst p) (snd p)) (combine r1 r2).

(** [v.back() += x] *)
Definition add_back (v : list Z) (x : Z) : list Z :=
  removelast v ++ [(List.last v 0 + x) mod SIZE_MOD].

Definition grow (memory_order : MemoryOrder) (true_data_shape shape : list Z)
  : list Z :=
  match memory_order with
  | C =>
      match true_data_shape with
      | front :: rest => (front + hd 0 shape) mod SIZE_MOD :: rest
      | [] => []
      end
  | Fortran => add_back true_data_shape (List.last shape 0)
  end.

Definition exists_ (files : gmap string bytes) (fname : string) : bool :=
  match files !! fname with Some _ => true | None => false end.

(** [fs.open(fname, std::ios_base::binary | std::ios_base::out)], whether the
    stream is open afterwards: a file that exists is truncated, and one that
    does not is created where the environment allows it. *)
Definition is_open (creatable : string -> bool) (files : gmap string bytes)
    (fname : string) : bool :=
  exists_ files fname || creatable fname.

(** The stream after that call: on the empty file, or not open and in error,
    where every later seek and write does nothing. *)
Definition open_out (opened : bool) : fstream :=
  if opened then open_truncate
  else {| content := []; pos := O; good := false |}.

(** The append branch of [npy_save] after [fs.open]: the stream behind the
    header and the shape of existing plus new data. *)
Definition npy_save_append (fname : string) (T : value_type) (file : bytes)
    (shape : list Z) (memory_order : MemoryOrder) : result (fstream * list Z) :=
  let! parsed := parse_npy_header (open_existing file) in
  let (h, fs) := parsed : parsed_header * fstream in
  let true_data_shape := hdr_shape h in
  let! word_size_exist := at0 (hdr_word_sizes h) in
  if negb (sizeof T =? word_size_exist)
  then Throw "npy_save(): appending failed: element size not matching"
  else
    let! data_type_exist := at0 (hdr_data_types h) in
    if negb (Ascii.eqb (map_type T) data_type_exist)
    then Throw "npy_save(): appending failed: data type descriptor not matching"
    else if negb (MemoryOrder_eqb memory_order (hdr_memory_order h))
    then Throw "libcnpy++ error in npy_save(): memory order does not match"
    else if negb (length true_data_shape =? length shape)%nat
    then Throw "npy_save: ranks not matching"
    else
      match shape, true_data_shape with
      | _ :: shape_rest, _ :: true_rest =>
          if negb (equal3 Z.eqb shape_rest true_rest)
          then Throw ("libnpy error: npy_save attempting to append misshaped data to "
                      +:+ quoted fname)
          else Ok (fs, grow memory_order true_data_shape shape)
      | _, _ => Undefined
      end.

(** [npy_save(fname, start, shape, mode, memory_order)] for elements of type
    [T]; [contiguous] tells which overload of [write_data] the iterator
    selects.  The stream is not tested after [fs.open]: where the open
    failed the calls on the stream do nothing and no file is written. *)
Definition npy_save (creatable : string -> bool) (host : byte_order)
    (files : gmap string bytes) (fname : string) (T : value_type)
    (contiguous : bool) (start : list bytes) (shape : list Z) (mode : string)
    (memory_order : MemoryOrder) : result (gmap string bytes) :=
  let is_open_ := is_open creatable files fname in
  let! opened :=
    match String.eqb mode "a", files !! fname with
    | true, Some file => npy_save_append fname T file shape memory_order
    | _, _ => Ok (open_out is_open_, shape)
    end in
  let (fs, true_data_shape) := opened : fstream * list Z in
  let! header :=
    create_npy_header host true_data_shape (map_type T)
      (int_of_size_t (sizeof T)) memory_order in
  let nels := accumulate_multiplies_int shape in
  let fs := seekp_end (stream_write header (seekp_beg fs)) in
  let! fs := (if contiguous then write_data else write_data_chunked)
               (sizeof T) start nels fs in
  Ok (if is_open_ then <[fname := content fs]> files else files).

(** The append branch of the structured [npy_save].  The block declares a
    local vector [shape] that hides the parameter: the rank and dimension
    checks and the growth read that empty vector. *)
Definition npy_save_struct_append (fname : string) (Tup : tuple_type)
    (file : bytes) (memory_order : MemoryOrder) : result (fstream * list Z) :=
  let shape : list Z := [] in
  let! parsed := parse_npy_header (open_existing file) in
  let (h, fs) := parsed : parsed_header * fstream in
  let true_data_shape := hdr_shape h in
  if negb (length Tup =? length (hdr_labels h))%nat
  then Throw "libcnpy++ error in npy_save(): appending failed: sizes not matching"
  else if negb (equal3 Ascii.eqb (hdr_data_types h) (tuple_data_types Tup))
  then Throw "libcnpy++ error in npy_save(): appending failed: data type descriptors not matching"
  else if negb (equal3 Z.eqb (hdr_word_sizes h) (element_sizes Tup))
  then Throw "libcnpy++ error in npy_save(): appending failed: element sizes not matching"
  else if negb (MemoryOrder_eqb memory_order (hdr_memory_order h))
  then Throw "libcnpy++ error in npy_save(): memory order does not match"
  else if negb (length true_data_shape =? length shape)%nat
  then Throw ("libcnpy++ error: npy_save attempting to append misdimensioned data to "
              +:+ quoted fname)
  else if (0 <? length shape)%nat
          && negb (equal3 Z.eqb (tl shape) (tl true_data_shape))
  then Throw ("libcnpy++ error: npy_save attempting to append misshaped data to "
              +:+ quoted fname)
  else
    match shape, true_data_shape with
    | _ :: _, _ :: _ => Ok (fs, grow memory_order true_data_shape shape)
    | _, _ => Undefined
    end.

(** [npy_save(fname, labels, first, shape, mode, memory_order)] for tuples of
    type [Tup]; the stream is not tested after [fs.open] here either. *)
Definition npy_save_struct (creatable : string -> bool) (host : byte_order)
    (files : gmap string bytes) (fname : string) (Tup : tuple_type)
    (labels : list bytes) (first : list (list bytes)) (shape : list Z)
    (mode : string) (memory_order : MemoryOrder) : result (gmap string bytes) :=
  if negb (length labels =? length Tup)%nat
  then Throw "number of labels does not match tuple size"
  else
    let is_open_ := is_open creatable files fname in
    let! opened :=
      match String.eqb mode "a", files !! fname with
      | true, Some file => npy_save_struct_append fname Tup file memory_order
      | _, _ => Ok (open_out is_open_, shape)
      end in
    let (fs, true_data_shape) := opened : fstream * list Z in
    let! header :=
      create_npy_header_struct host shape labels (tuple_data_types Tup)
        (element_sizes Tup) memory_order in
    let nels := accumulate_multiplies_int shape in
    let fs := seekp_end (stream_write header (seekp_beg fs)) in
    let! fs := write_data_tuple Tup first nels fs in
    Ok (if is_open_ then <[fname := content fs]> files else files).

(** ** The pull-based archive writer *)

(** [detail::additional_parameters], together with what the callback of
    [npz_save] captures by reference: the iterator [it] (the elements not yet
    taken) and [elements_written_total]. *)
Record additional_parameters := {
  npyheader : bytes;
  buffer_capacity : Z;
  header_bytes_remaining : Z;
  bytes_buffer_written : Z;
  buffer_size : Z;
  side_buffer : bytes;          (* [parameters->buffer] *)
  it : list bytes;
  elements_written_total : Z
}.

(** The constructor of [additional_parameters], as [npz_save] calls it. *)
Definition make_parameters (_npyheader : bytes) (size : Z) (start : list bytes)
  : additional_parameters :=
  {| npyheader := _npyheader; buffer_capacity := size;
     header_bytes_remaining := Z.of_nat (length _npyheader) mod SIZE_MOD;
     bytes_buffer_written := 0; buffer_size := 0;
     side_buffer := repeat zero (Z.to_nat size);
     it := start; elements_written_total := 0 |}.

(** The lambda [callback] of [npz_save]: fills [libzip_buffer] (of
    [libzip_size] bytes) with whole elements and, when room is left that does
    not hold an element, puts one more element into the side buffer.
    Answers the bytes written to [libzip_buffer] and the new state. *)
Definition callback (wordsize nels : Z) (libzip_size : Z)
    (p : additional_parameters) : result (bytes * additional_parameters) :=
  let n_tbw := Z.min (libzip_size / wordsize)
                     ((nels - elements_written_total p) mod SIZE_MOD) in
  if Z.of_nat (length (it p)) <? n_tbw then Undefined
  else
    let out := concat (firstn (Z.to_nat n_tbw) (it p)) in
    let it1 := skipn (Z.to_nat n_tbw) (it p) in
    let written := (elements_written_total p + n_tbw) mod SIZE_MOD in
    if (written <? nels) && (wordsize * n_tbw mod SIZE_MOD <? libzip_size) then
      match it1 with
      | elem :: it2 =>
          Ok (out,
              {| npyheader := npyheader p; buffer_capacity := buffer_capacity p;
                 header_bytes_remaining := header_bytes_remaining p;
                 bytes_buffer_written := bytes_buffer_written p;
                 buffer_size := wordsize;
                 side_buffer := elem ++ skipn (length elem) (side_buffer p);
                 it := it2;
                 elements_written_total := (written + 1) mod SIZE_MOD |})
      | [] => Undefined
      end
    else
      Ok (out,
          {| npyheader := npyheader p; buffer_capacity := buffer_capacity p;
             header_bytes_remaining := header_bytes_remaining p;
             bytes_buffer_written := bytes_buffer_written p;
             buffer_size := buffer_size p;
             side_buffer := side_buffer p;
             it := it1; elements_written_total := written |}).

(** [std::copy_n(first + from, n, out)] from the object [src]. *)
Definition copy_n (src : bytes) (from n : Z) : result bytes :=
  if (from <? 0) || (Z.of_nat (length src) <? from + n) then Undefined
  else Ok (firstn (Z.to_nat n) (skipn (Z.to_nat from) src)).

(** The number of header bytes a pull of [length] bytes copies. *)
Definition header_tbw (length : Z) (p : additional_parameters) : Z :=
  Z.min length (Z.of_nat (List.length (npyheader p))).

(** [npzwrite_source_callback] for [ZIP_SOURCE_READ]: the bytes put into
    [data] and the new state; the returned [bytes_written] is their number. *)
Definition npzwrite_source_read (func : Z -> additional_parameters ->
                                        result (bytes * additional_parameters))
    (length : Z) (p : additional_parameters)
  : result (bytes * additional_parameters) :=
  let! step1 :=
    if negb (header_bytes_remaining p =? 0) then
      let tbw := header_tbw length p in
      let! out := copy_n (npyheader p)
                    ((Z.of_nat (List.length (npyheader p))
                      - header_bytes_remaining p) mod SIZE_MOD) tbw in
      Ok (out,
          {| npyheader := npyheader p; buffer_capacity := buffer_capacity p;
             header_bytes_remaining := (header_bytes_remaining p - tbw) mod SIZE_MOD;
             bytes_buffer_written := bytes_buffer_written p;
             buffer_size := buffer_size p; side_buffer := side_buffer p;
             it := it p; elements_written_total := elements_written_total p |})
    else Ok ([], p) in
  let (out1, p1) := step1 : bytes * additional_parameters in
  let bytes_written := Z.of_nat (List.length out1) in
  if header_bytes_remaining p1 =? 0 then
    let buffer_tbw := (buffer_size p1 - bytes_buffer_written p1) mod SIZE_MOD in
    let n := Z.min buffer_tbw ((length - bytes_written) mod SIZE_MOD) in
    let! out2 := copy_n (side_buffer p1) (bytes_buffer_written p1) n in
    let written2 := (bytes_buffer_written p1 + n) mod SIZE_MOD in
    if written2 =? buffer_size p1 then
      let p2 :=
        {| npyheader := npyheader p1; buffer_capacity := buffer_capacity p1;
           header_bytes_remaining := header_bytes_remaining p1;
           bytes_buffer_written := 0; buffer_size := 0;
           side_buffer := side_buffer p1; it := it p1;
           elements_written_total := elements_written_total p1 |} in
      let! produced := func ((length - (bytes_written + n)) mod SIZE_MOD) p2 in
      let (out3, p3) := produced : bytes * additional_parameters in
      Ok (out1 ++ out2 ++ out3, p3)
    else
      Ok (out1 ++ out2,
          {| npyheader := npyheader p1; buffer_capacity := buffer_capacity p1;
             header_bytes_remaining := header_bytes_remaining p1;
             bytes_buffer_written := written2; buffer_size := buffer_size p1;
             side_buffer := side_buffer p1; it := it p1;
             elements_written_total := elements_written_total p1 |})
  else Ok (out1, p1).

(** The archive sink pulling with the given request lengths, one after the
    other: everything it received. *)
Fixpoint pull_all (func : Z -> additional_parameters ->
                          result (bytes * additional_parameters))
    (lengths : list Z) (p : additional_parameters)
  : result (bytes * additional_parameters) :=
  match lengths with
  | [] => Ok ([], p)
  | l :: ls =>
      let! r := npzwrite_source_read func l p in
      let (out, p') := r : bytes * additional_parameters in
      let! rs := pull_all func ls p' in
      let (outs, p'') := rs : bytes * additional_parameters in
      Ok (out ++ outs, p'')
  end.

(** The source [npz_save] registers for elements of type [T]: header and
    state, and the callback. *)
Definition npz_save_parameters (host : byte_order) (T : value_type)
    (start : list bytes) (shape : list Z) (memory_order : MemoryOrder)
  : result additional_parameters :=
  let! header := create_npy_header host shape (map_type T)
                   (int_of_size_t (sizeof T)) memory_order in
  Ok (make_parameters header (sizeof T) start).

Definition npz_save_callback (T : value_type) (shape : list Z)
  : Z -> additional_parameters -> result (bytes * additional_parameters) :=
  callback (sizeof T) (accumulate_multiplies_int shape).

(** ** Typed views of an [NpyArray] *)

(** A [subrange] of [tuple_iterator]s: the two positions, as byte offsets
    from [buffer->data()], and the tuple type that fixes the step. *)
Record tuple_view := {
  tuple_first : Z;
  tuple_last : Z;
  tuple_elements : tuple_type
}.

(** A [subrange] of [stride_iterator]s. *)
Record stride_view := {
  stride_first : Z;
  stride_last : Z;
  stride : Z;
  stride_value : value_type
}.

(** [NpyArray::compare_word_sizes]: [std::equal] on the two whole ranges. *)
Definition compare_word_sizes (TArgs : tuple_type) (a : NpyArray) : bool :=
  Z_list_eqb (element_sizes TArgs) (word_sizes a).

(** [NpyArray::tuple_range<TArgs...>(force_check)]. *)
Definition tuple_range (TArgs : tuple_type) (force_check : bool) (a : NpyArray)
  : result tuple_view :=
  if force_check && negb (compare_word_sizes TArgs a)
  then Throw "tuple_range: word sizes do not match requested types"
  else Ok {| tuple_first := 0;
             tuple_last := (num_vals a * total_value_size a) mod SIZE_MOD;
             tuple_elements := TArgs |}.

(** [std::find(labels.cbegin(), labels.cend(), name)], as a distance. *)
Fixpoint find_label (name : bytes) (ls : list bytes) : option nat :=
  match ls with
  | [] => None
  | l :: t => if bytes_eqb l name then Some O else option_map S (find_label name t)
  end.

(** [NpyArray::column_range<TValueType>(name)]. *)
Definition column_range (TValueType : value_type) (name : bytes) (a : NpyArray)
  : result stride_view :=
  match find_label name (labels a) with
  | None => Throw ("column_range: " +:+ quoted (string_of_list_ascii name)
                   +:+ " not found in labels")
  | Some d =>
      match nth_error (word_sizes a) d with
      | None => Throw "vector::at"
      | Some w =>
          if negb (w =? sizeof TValueType)
          then Throw "column_range: word sizes of requested type and data do not match"
          else
            let offset := fold_left Z.add (firstn d (word_sizes a)) 0 in
            Ok {| stride_first := offset;
                  stride_last := offset + (total_value_size a * num_vals a) mod SIZE_MOD;
                  stride := total_value_size a;
                  stride_value := TValueType |}
      end
  end.

(** ** Example inputs *)

(** An environment in which a file can be created under the names [names]
    and under no other. *)
Definition creates (names : list string) : string -> bool :=
  fun fname => existsb (String.eqb fname) names.

Definition get_or {A : Type} (d : A) (r : result A) : A :=
  match r with Ok a => a | _ => d end.

(** The header of an [(8, 4, 2)] array of [uint32_t] in C order, with its
    magic string overwritten. *)
Definition bad_magic_buffer : bytes :=
  lit "XXXXXX"
    ++ skipn 6 (get_or [] (create_npy_header LittleEndian [8; 4; 2] "u"%char 4 C)).

Definition plain_dict : bytes :=
  lit "{'descr': '<u4', 'fortran_order': False, 'shape': (8, 4, 2), }" ++ [newline].

(** A file holding a [(2, 3)] array of [uint8_t] in Fortran order. *)
Definition fortran_files : gmap string bytes :=
  get_or ∅ (npy_save (creates ["arr.npy"]) LittleEndian ∅ "arr.npy" uint8_t true
              (repeat [chr 65] 6) [2; 3] "w" Fortran).

(** The source of a [(3)] array of [uint32_t] for the archive writer. *)
Definition three_words : list bytes := [lit "abcd"; lit "efgh"; lit "ijkl"].

Definition three_words_parameters : additional_parameters :=
  get_or (make_parameters [] 0 [])
    (npz_save_parameters LittleEndian uint32_t three_words [3] C).

(** An array of three records with fields of 4, 1 and 2 bytes. *)
Definition record_array : NpyArray :=
  make_NpyArray [3] [4; 1; 2] [lit "a"; lit "b"; lit "c"] C
    (repeat zero 21).

(** ** Notions used in the proofs *)

(** [P] holds of [pre ++ rest] at every position inside [pre]. *)
Fixpoint nowhere (P : bytes -> Prop) (pre rest : bytes) : Prop :=
  match pre with
  | [] => True
  | c :: pre' => P (c :: pre' ++ rest) /\ nowhere P pre' rest
  end.

Definition no_occurrence (p : bytes) : bytes -> Prop :=
  fun s => is_prefix p s = false.

Definition no_match (m : matcher) : bytes -> Prop :=
  fun s => m s = None.

(** A search result, [k] characters further to the right. *)
Definition shift (k : nat) (r : option (nat * list bytes * bytes))
  : option (nat * list bytes * bytes) :=
  match r with
  | Some (i, sub, rest) => Some ((k + i)%nat, sub, rest)
  | None => None
  end.

(** Every match of [m] is non-empty and leaves a suffix of the text. *)
Definition consuming (m : matcher) : Prop :=
  forall s sub rest, m s = Some (sub, rest) ->
    exists taken, taken <> [] /\ s = taken ++ rest.

(** A label the parser recognises: a non-empty run of word characters. *)
Definition word_label (l : bytes) : Prop := l <> [] /\ forallb is_word l = true.

(** The type codes [map_type] produces. *)
Definition type_code (c : ascii) : Prop := In c (lit "cbiuf").

(** A field the writer is given and the parser recognises. *)
Definition field_ok (f : bytes * ascii * Z) : Prop :=
  let '(label, dtype, size) := f in
  word_label label /\ type_code dtype /\ 0 <= size <= INT_MAX.

(** The dictionary keys the parser looks for: a quote, a lower-case letter
    [x], more characters [a] without a quote, a quote, a colon, and [r]. *)
Definition key (x : ascii) (a r : bytes) : bytes :=
  quote :: x :: a ++ quote :: ":"%char :: r.

Definition lower_case (x : ascii) : Prop := 97 <= ord x <= 122.

(** The end of a padded dictionary: [k] spaces and the newline. *)
Definition padding (k : nat) : bytes := repeat " "%char k ++ [newline].

(** The characters between the parentheses of a generated shape. *)
Definition shape_char (c : ascii) : bool :=
  is_digit c || Ascii.eqb c ","%char || Ascii.eqb c " "%char.

Definition int_range (d : Z) : Prop := 0 <= d <= INT_MAX.

(** A generated dictionary from ['fortran_order'] on. *)
Definition dict_tail (memory_order : MemoryOrder) (s0 : Z) (rest : list Z)
    (k : nat) : bytes :=
  lit "'fortran_order': " ++ fortran_text memory_order ++ lit ", "
    ++ sh ++ shape_text s0 rest ++ lit "), }" ++ padding k.

(** The sub-matches [dtype_tuple_regex] yields on the tuple of a field. *)
Definition tuple_matches (host : byte_order) (f : bytes * ascii * Z) : list bytes :=
  let '(label, dtype, size) := f in
  [lit "('" ++ label ++ lit "', '" ++ [BigEndianTest host] ++ [dtype]
     ++ digits size ++ lit "')";
   label; [BigEndianTest host]; [dtype]; digits size].

Definition not_bracket (c : ascii) : bool := negb (Ascii.eqb c "]"%char).

Definition no_quote (a : bytes) : Prop :=
  forallb (fun c => negb (Ascii.eqb c quote)) a = true.

(** The start of a generated dictionary, up to the quote that opens
    ['fortran_order']: it begins with the brace, and no key but ['descr']
    occurs in it. *)
Record dict_head (head : bytes) : Prop := {
  head_front : exists t, head = "{"%char :: t;
  head_keys : forall x a r rest,
    lower_case x -> no_quote a -> x <> "d"%char ->
    nowhere (no_occurrence (key x a r)) head rest
}.

Definition plain_head (host : byte_order) (dtype : ascii) (wordsize : Z) : bytes :=
  lit "{'descr': '" ++ [BigEndianTest host] ++ [dtype] ++ digits wordsize
    ++ lit "', ".

Definition struct_head (host : byte_order) (fs : list (bytes * ascii * Z)) : bytes :=
  lit "{'descr': [" ++ descr_tuples host fs
    ++ (if Nat.eqb (length fs) 1 then lit "," else []) ++ lit "], ".

(** The exact product of the dimensions of a shape. *)
Definition product (l : list Z) : Z := fold_right Z.mul 1 l.

(** The exact sum of the widths of the fields. *)
Definition sum_of (l : list Z) : Z := fold_right Z.add 0 l.

(** A stream positioned at the end of its file. *)
Definition at_end (fs : fstream) : Prop :=
  good fs = true /\ pos fs = length (content fs).

(** A tuple value of type [Tup]: one object representation per component,
    as wide as the component's type. *)
Definition tuple_sized (Tup : tuple_type) (tup : list bytes) : Prop :=
  Forall2 (fun (e : bytes) (s : Z) => Z.of_nat (length e) = s) tup (element_sizes Tup).

(** The result of [std::copy] of [e] to position [p] of [buf]. *)
Definition overwrite (p : nat) (e buf : bytes) : bytes :=
  firstn p buf ++ e ++ skipn (p + length e) buf.

(** A structured array of two records with one [int32_t] field whose label
    holds a space, saved to ["s.npy"]. *)
Definition spaced_label_files : gmap string bytes :=
  get_or ∅ (npy_save_struct (creates ["s.npy"]) LittleEndian ∅ "s.npy" [int32_t]
              [lit "a b"]
              [[lit "aaaa"]; [lit "dddd"]] [2] "w" C).

(** A loaded array carries the metadata and the payload of the saved one. *)
Definition round_trip (a : NpyArray) (shape0 word_sizes0 : list Z)
    (labels0 : list bytes) (order : MemoryOrder) (payload : bytes) : Prop :=
  shape a = shape0 /\ word_sizes a = word_sizes0 /\ labels a = labels0
  /\ memory_order a = order /\ buffer a = payload.

(** A call that returns or throws. *)
Definition defined {A : Type} (r : result A) : Prop := r <> Undefined.

(** A big-endian single-field descriptor: ['>cN'] with [c] from [[a-zA-z]]
    and [N] a non-empty run of digits. *)
Definition big_endian_descr (c : ascii) (ds : bytes) : bytes :=
  [quote] ++ lit ">" ++ [c] ++ ds ++ [quote].

(** A big-endian tuple of a structured descriptor: [('label', '>cN')]. *)
Definition big_endian_tuple (label : bytes) (c : ascii) (ds : bytes) : bytes :=
  lit "('" ++ label ++ lit "', '" ++ lit ">" ++ [c] ++ ds ++ lit "')".

Definition digit_run (ds : bytes) : Prop := ds <> [] /\ forallb is_digit ds = true.

(** A structured header with the tuples [('a b', '>i4')] and [('c', '<i4')]. *)
Definition spaced_big_endian_dict : bytes :=
  lit "{'descr': [('a b', '>i4'), ('c', '<i4')], 'fortran_order': False, 'shape': (3,), }"
    ++ [newline].

(** The sub-matches of [dtype_tuple_regex] on a big-endian tuple. *)
Definition big_endian_matches (label : bytes) (c : ascii) (ds : bytes)
  : list bytes :=
  [big_endian_tuple label c ds; label; lit ">"; [c]; ds].

Definition no_paren (s : bytes) : Prop := ~ In "("%char s.

Definition big_endian_plain_dict : bytes :=
  lit "{'descr': '>i4', 'fortran_order': False, 'shape': (3,), }" ++ [newline].

Definition big_endian_struct_dict : bytes :=
  lit "{'descr': [('a', '<i4'), ('c', '>f8')], 'fortran_order': True, 'shape': (3, 2), }"
    ++ [newline].

(** The dictionaries of the headers of [(9, 10000, 1000)] and
    [(10, 10000, 1000)] arrays of [uint8_t] in C order. *)
Definition dict_9 : bytes :=
  dictionary (get_or [] (create_npy_header LittleEndian [9; 10000; 1000] "u"%char 1 C)).

Definition dict_10 : bytes :=
  dictionary (get_or [] (create_npy_header LittleEndian [10; 10000; 1000] "u"%char 1 C)).

(** 90 000 000 bytes ["A"] and 10 000 000 bytes ["B"]. *)
Definition big_first : list bytes := repeat [chr 65] (Z.to_nat 90000000).

Definition big_second : list bytes := repeat [chr 66] (Z.to_nat 10000000).

(** ** Iterating the views of [NpyArray] *)

(** Reading an object of [size] bytes through a pointer [ptr] bytes into
    [buffer]: the object has to lie inside the buffer. *)
Definition dereference (buffer : bytes) (ptr size : Z) : result bytes :=
  copy_n buffer ptr size.

(** A range-based [for] over a [subrange]: as long as the iterator differs
    from [last] it is dereferenced and then incremented by [step] bytes.
    The rounds are counted down from [fuel]; a traversal of a buffer needs
    no more rounds than the buffer has bytes, plus one. *)
Fixpoint for_range {A : Type} (fuel : nat) (deref : Z -> result A) (step : Z)
    (it last : Z) : result (list A) :=
  if it =? last then Ok []
  else
    match fuel with
    | O => Undefined
    | S f =>
        let! x := deref it in
        let! xs := for_range f deref step (it + step) last in
        Ok (x :: xs)
    end.

(** A [subrange<T*, T*>], its pointers as byte offsets into the buffer. *)
Record pointer_view := {
  pointer_first : Z;
  pointer_last : Z;
  pointer_value : value_type
}.

(** [NpyArray::make_range<T>()]: from [data<T>()] to [data<T>() + num_vals]. *)
Definition make_range (T : value_type) (a : NpyArray) : pointer_view :=
  {| pointer_first := 0; pointer_last := num_vals a * sizeof T;
     pointer_value := T |}.

Definition pointer_view_elements (buffer : bytes) (v : pointer_view)
  : result (list bytes) :=
  for_range (S (length buffer))
    (fun p => dereference buffer p (sizeof (pointer_value v)))
    (sizeof (pointer_value v)) (pointer_first v) (pointer_last v).

(** [tuple_iterator<Tup>::dereference]: element [k] of the tuple is the
    object at [ptr_ + offsets[k]]. *)
Definition tuple_dereference (Tup : tuple_type) (buffer : bytes) (ptr_ : Z)
  : result (list bytes) :=
  mapM (fun os : Z * Z => dereference buffer (ptr_ + fst os) (snd os))
    (combine (offsets Tup) (element_sizes Tup)).

(** [tuple_iterator<Tup>::advance(size_t n)]. *)
Definition tuple_advance (Tup : tuple_type) (n : Z) (ptr_ : Z) : Z :=
  ptr_ + (n * sum_sizes Tup) mod SIZE_MOD.

(** [tuple_iterator<Tup>::distance_to]: the difference of the pointers, a
    [ptrdiff_t], is divided by [sum_sizes], a [size_t]; the division is
    done in [size_t] and its result returned as a [ptrdiff_t]. *)
Definition tuple_distance_to (Tup : tuple_type) (ptr_ other : Z) : result Z :=
  if sum_sizes Tup =? 0 then Undefined
  else
    let q := ((other - ptr_) mod SIZE_MOD) / sum_sizes Tup in
    Ok ((q + 2 ^ 63) mod SIZE_MOD - 2 ^ 63).

Definition tuple_view_elements (buffer : bytes) (v : tuple_view)
  : result (list (list bytes)) :=
  for_range (S (length buffer)) (tuple_dereference (tuple_elements v) buffer)
    (sum_sizes (tuple_elements v)) (tuple_first v) (tuple_last v).

(** ** The C interface *)

Definition uint16_t := {| kind := KIntegral false; sizeof := 2 |}.
Definition int64_t := {| kind := KIntegral true; sizeof := 8 |}.
Definition uint64_t := {| kind := KIntegral false; sizeof := 8 |}.
Definition float_t := {| kind := KFloating; sizeof := 4 |}.

Inductive cnpypp_memory_order :=
| cnpypp_memory_order_fortran
| cnpypp_memory_order_c.

(** [static_cast<cnpypp::MemoryOrder>(memory_order)] *)
Definition MemoryOrder_of (memory_order : cnpypp_memory_order) : MemoryOrder :=
  match memory_order with
  | cnpypp_memory_order_fortran => Fortran
  | cnpypp_memory_order_c => C
  end.

(** The element type behind each [case] of the [switch] over a
    [cnpypp_data_type], given by its value; [None] is the [default] label. *)
Definition data_type_case (dtype : Z) : option value_type :=
  if dtype =? 0 then Some int8_t
  else if dtype =? 1 then Some uint8_t
  else if dtype =? 2 then Some int16_t
  else if dtype =? 3 then Some uint16_t
  else if dtype =? 4 then Some int32_t
  else if dtype =? 5 then Some uint32_t
  else if dtype =? 6 then Some int64_t
  else if dtype =? 7 then Some uint64_t
  else if dtype =? 8 then Some float_t
  else if dtype =? 9 then Some double_t
  else if dtype =? 10 then Some long_double_t
  else None.

(** [cnpypp_npy_save]: the returned [int] and the files afterwards.  [shape]
    is the array the pointer of that name points to, [start] the elements
    behind [start]. *)
Definition cnpypp_npy_save (creatable : string -> bool) (host : byte_order)
    (files : gmap string bytes) (fname : string) (dtype : Z)
    (start : list bytes) (shape : list Z) (rank : Z) (mode : string)
    (memory_order : cnpypp_memory_order) : result (Z * gmap string bytes) :=
  if Z.of_nat (length shape) <? rank then Undefined
  else
    let shapeVec := firstn (Z.to_nat rank) shape in
    match data_type_case dtype with
    | None => Ok (0, files)
    | Some T =>
        match npy_save creatable host files fname T true start shapeVec mode
                (MemoryOrder_of memory_order) with
        | Ok files' => Ok (0, files')
        | Throw _ => Ok (-1, files)
        | Undefined => Undefined
        end
    end.

(** [cnpypp_npy_save_1d] *)
Definition cnpypp_npy_save_1d (creatable : string -> bool) (host : byte_order)
    (files : gmap string bytes) (fname : string) (dtype : Z)
    (start : list bytes) (num_elem : Z) (mode : string)
  : result (Z * gmap string bytes) :=
  let shape := [num_elem] in
  cnpypp_npy_save creatable host files fname dtype start shape 1 mode
    cnpypp_memory_order_c.

(** [cnpypp_load_npyarray]: the handle, [None] for the null pointer. *)
Definition cnpypp_load_npyarray (alignment : Z) (files : gmap string bytes)
    (fname : string) : result (option NpyArray) :=
  match npy_load alignment files fname false with
  | Ok arr => Ok (Some arr)
  | Throw _ => Ok None
  | Undefined => Undefined
  end.

(** [cnpypp_npyarray_get_data] *)
Definition cnpypp_npyarray_get_data (npyarr : option NpyArray) : result bytes :=
  match npyarr with
  | Some array => Ok (buffer array)
  | None => Undefined
  end.

(** [cnpypp_npyarray_get_shape]: the shape and what is stored through a
    non-null [rank]. *)
Definition cnpypp_npyarray_get_shape (npyarr : option NpyArray)
  : result (list Z * Z) :=
  match npyarr with
  | Some array => Ok (shape array, Z.of_nat (length (shape array)))
  | None => Undefined
  end.

(** [cnpypp_npyarray_get_memory_order] *)
Definition cnpypp_npyarray_get_memory_order (npyarr : option NpyArray)
  : result cnpypp_memory_order :=
  match npyarr with
  | Some array =>
      Ok (if MemoryOrder_eqb (memory_order array) Fortran
          then cnpypp_memory_order_fortran else cnpypp_memory_order_c)
  | None => Undefined
  end.

(** ** Further example inputs *)

(** The dictionary of a [(2147483647, 2147483647)] array of 8-byte words: it
    announces [2^64 - 2^35 + 8] bytes. *)
Definition huge_dict : bytes :=
  dictionary
    (get_or []
       (create_npy_header LittleEndian [2147483647; 2147483647] "u"%char 8 C)).

(** Two records with fields [a], [b] and [c] of 4, 1 and 2 bytes. *)
Definition two_records : list (list bytes) :=
  [[lit "aaaa"; lit "b"; lit "cc"]; [lit "dddd"; lit "e"; lit "ff"]].

(** The file ["rec.npy"] that holds them. *)
Definition record_files : gmap string bytes :=
  get_or ∅ (npy_save_struct (creates ["rec.npy"]) LittleEndian ∅ "rec.npy"
              [int32_t; int8_t; int16_t] [lit "a"; lit "b"; lit "c"]
              two_records [2] "w" C).

(** ** The state of the streaming writer *)

(** The bytes of the side buffer that the sink has not received. *)
Definition pending (p : additional_parameters) : bytes :=
  firstn (Z.to_nat (buffer_size p - bytes_buffer_written p))
    (skipn (Z.to_nat (bytes_buffer_written p)) (side_buffer p)).

(** What the sink has still to receive: the rest of the side buffer, then
    the elements the iterator has not passed. *)
Definition unread (p : additional_parameters) : bytes :=
  pending p ++ concat (it p).

(** The state of the source once the header is out, for elements of [w]
    bytes, [nels] of them in all: the side buffer is empty or holds one
    element of which a part may be out. *)
Record streaming (w nels : Z) (p : additional_parameters) : Prop := {
  streaming_header : header_bytes_remaining p = 0;
  streaming_buffer :
    buffer_size p = 0 /\ bytes_buffer_written p = 0
    \/ buffer_size p = w /\ 0 <= bytes_buffer_written p < w;
  streaming_side : Z.of_nat (length (side_buffer p)) = w;
  streaming_count :
    0 <= elements_written_total p
    /\ elements_written_total p + Z.of_nat (length (it p)) = nels;
  streaming_sized : Forall (fun e : bytes => Z.of_nat (length e) = w) (it p)
}.

(** Pulls that still make a difference: twice the unread bytes, and one more
    while the side buffer is empty. *)
Definition pulls_left (p : additional_parameters) : nat :=
  (2 * length (unread p) + match pending p with [] => 1 | _ => 0 end)%nat.

(** The state after the header went out in one piece. *)
Definition header_out (p : additional_parameters) : additional_parameters :=
  {| npyheader := npyheader p; buffer_capacity := buffer_capacity p;
     header_bytes_remaining := 0;
     bytes_buffer_written := bytes_buffer_written p;
     buffer_size := buffer_size p; side_buffer := side_buffer p;
     it := it p; elements_written_total := elements_written_total p |}.

(** ** Arrays in an archive *)

(** [NpyArray(NpyArray&& other)]: the member initialiser list names every
    member but [labels], which is default-initialised. *)
Definition NpyArray_move (other : NpyArray) : NpyArray :=
  {| shape := shape other; word_sizes := word_sizes other; labels := [];
     memory_order := memory_order other; num_vals := num_vals other;
     total_value_size := total_value_size other; buffer := buffer other |}.

(** An entry of an archive as libzip presents it: its name, the bytes that
    reading it delivers, and whether it is stored ([ZIP_CM_STORE]) or
    compressed. *)
Record zip_entry := {
  entry_name : string;
  entry_data : bytes;
  entry_stored : bool
}.

(** An open [zip_file_t]: the bytes of the entry and the read position. *)
Record zip_file := {
  zip_content : bytes;
  zip_pos : nat
}.

Definition zip_fopen_index (e : zip_entry) : zip_file :=
  {| zip_content := entry_data e; zip_pos := O |}.

(** [zip_fread(file, buf, nbytes)]: what is put into [buf] (its length is
    the returned count) and the file afterwards. *)
Definition zip_fread (nbytes : Z) (file : zip_file) : bytes * zip_file :=
  let got := firstn (Z.to_nat nbytes) (skipn (zip_pos file) (zip_content file)) in
  (got, {| zip_content := zip_content file;
           zip_pos := (zip_pos file + length got)%nat |}).

(** [zip_fseek(file, offset, SEEK_SET)]; [None] for a return value other
    than 0: libzip refuses an offset outside the entry. *)
Definition zip_fseek (offset : Z) (file : zip_file) : option zip_file :=
  if (offset <? 0) || (Z.of_nat (length (zip_content file)) <? offset) then None
  else Some {| zip_content := zip_content file; zip_pos := Z.to_nat offset |}.

(** Conversion of a 64-bit unsigned value to [zip_int64_t]. *)
Definition int64_of (z : Z) : Z := (z + 2 ^ 63) mod 2 ^ 64 - 2 ^ 63.

Definition max_header_size : Z := 65536 + 10.

(** [load_npy(archive, index)] for the entry at [index]. *)
Definition load_npy (e : zip_entry) : result NpyArray :=
  let fileinfo_size := Z.of_nat (length (entry_data e)) in
  let file := zip_fopen_index e in
  let (read, file) := zip_fread max_header_size file in
  let header_buffer := zero_filled (Z.to_nat max_header_size) read in
  let! h := parse_npy_header_buffer header_buffer in
  let num_vals := accumulate_multiplies (hdr_shape h) in
  let total_value_size := accumulate_plus (hdr_word_sizes h) in
  let num_bytes := (total_value_size * num_vals) mod SIZE_MOD in
  let! allocated := InMemoryBuffer num_bytes in
  let offset := int64_of ((fileinfo_size - num_bytes) mod SIZE_MOD) in
  let! data :=
    if fileinfo_size <=? max_header_size then
      copy_n header_buffer offset num_bytes
    else
      let! file :=
        if entry_stored e then
          match zip_fseek offset file with
          | None => Throw "libcnpy++: zip_seek() failed"
          | Some file => Ok file
          end
        else
          let file := zip_fopen_index e in
          if offset <? 0 then Throw "std::make_unique"
          else
            let (tmp, file) := zip_fread offset file in
            if negb (Z.of_nat (length tmp) =? offset)
            then Throw "libcnpy++: zip_fread() failed"
            else Ok file in
      let (data, _) := zip_fread num_bytes file in
      if negb (Z.of_nat (length data) =? int64_of num_bytes)
      then Throw "libcnpy++: zip_fread() failed"
      else Ok data in
  Ok (make_NpyArray (hdr_shape h) (hdr_word_sizes h) (hdr_labels h)
        (hdr_memory_order h) (read_into data allocated)).

(** [arrays.emplace(name, std::move(array))] on a [std::map]: a name that is
    there keeps its array. *)
Definition emplace (name : string) (array : NpyArray)
    (arrays : gmap string NpyArray) : gmap string NpyArray :=
  match arrays !! name with
  | Some _ => arrays
  | None => <[name := NpyArray_move array]> arrays
  end.

(** The loop of [npz_load(fname)] over the entries of the archive. *)
Fixpoint npz_load_loop (entries : list zip_entry)
    (arrays : gmap string NpyArray) : result (gmap string NpyArray) :=
  match entries with
  | [] => Ok arrays
  | e :: entries' =>
      let filename_view := entry_name e in
      let size := String.length filename_view in
      if (size <? 4)%nat then Throw "basic_string_view::substr"
      else
        let extension := String.substring (size - 4) size filename_view in
        if negb (String.eqb extension ".npy")
        then npz_load_loop entries' arrays
        else
          let stripped_name := String.substring 0 (size - 4) filename_view in
          let! array := load_npy e in
          npz_load_loop entries' (emplace stripped_name array arrays)
  end.

(** [npz_load(fname)], on the archives that [zip_open] can open. *)
Definition npz_load (archives : gmap string (list zip_entry)) (fname : string)
  : result (gmap string NpyArray) :=
  match archives !! fname with
  | None => Throw "zip_open"
  | Some entries => npz_load_loop entries ∅
  end.

(** [zip_name_locate(archive, fname, ZIP_FL_ENC_RAW)]: the first entry of
    that name. *)
Fixpoint zip_name_locate (entries : list zip_entry) (fname : string)
  : option zip_entry :=
  match entries with
  | [] => None
  | e :: entries' =>
      if String.eqb (entry_name e) fname then Some e
      else zip_name_locate entries' fname
  end.

(** [npz_load(fname, varname)].  The function returns a local variable; a
    compiler may construct it in the caller's object ([elided]) and
    otherwise moves it there. *)
Definition npz_load_variable (elided : bool)
    (archives : gmap string (list zip_entry)) (fname varname : string)
  : result NpyArray :=
  match archives !! fname with
  | None => Throw "zip_open"
  | Some entries =>
      let full_filename := varname +:+ ".npy" in
      match zip_name_locate entries full_filename with
      | None =>
          Throw ("npz_load: Variable name " +:+ quoted varname
                 +:+ " not found in " +:+ quoted fname)
      | Some e =>
          let! array := load_npy e in
          Ok (if elided then array else NpyArray_move array)
      end
  end.

(** An archive with the file ["rec.npy"] of [record_files] as an entry and a
    text entry. *)
Definition record_archives : gmap string (list zip_entry) :=
  <["data.npz" :=
     [{| entry_name := "notes.txt"; entry_data := lit "two records";
         entry_stored := true |};
      {| entry_name := "rec.npy";
         entry_data := default [] (record_files !! "rec.npy");
         entry_stored := false |}]]> ∅.

(** * Proofs *)

(** ** Characters *)

Lemma ord_chr (z : Z) : 0 <= z < 256 -> ord (chr z) = z.
Proof.
  intros Hz. unfold ord, chr.
  rewrite N_ascii_embedding by lia. lia.
Qed.

Lemma chr_ord (c : ascii) : chr (ord c) = c.
Proof.
  unfold ord, chr. rewrite N2Z.id. apply ascii_N_embedding.
Qed.

Lemma ord_range (c : ascii) : 0 <= ord c < 256.
Proof.
  unfold ord. pose proof (N_ascii_bounded c). lia.
Qed.

Lemma ord_inj (a b : ascii) : ord a = ord b -> a = b.
Proof.
  intros H. rewrite <- (chr_ord a), <- (chr_ord b). now rewrite H.
Qed.

(** ** The padding invariant *)

Lemma length_set_back (l : bytes) (c : ascii) :
  l <> [] -> length (set_back l c) = length l.
Proof.
  intros Hl. unfold set_back. rewrite length_app. simpl.
  rewrite removelast_firstn_len, length_firstn.
  destruct l; [congruence|simpl; lia].
Qed.

Lemma length_pad_dict (dict : bytes) :
  length (pad_dict dict)
  = (length dict + (16 - (10 + length dict) mod 16))%nat.
Proof.
  unfold pad_dict.
  pose proof (Nat.mod_upper_bound (10 + length dict) 16 ltac:(lia)) as Hm.
  rewrite length_set_back.
  - now rewrite length_app, repeat_length.
  - intros Hnil. apply (f_equal (@length ascii)) in Hnil.
    rewrite length_app, repeat_length in Hnil. simpl in Hnil. lia.
Qed.

Lemma pad_dict_mod16 (dict : bytes) :
  ((10 + length (pad_dict dict)) mod 16 = 0)%nat.
Proof.
  rewrite length_pad_dict.
  pose proof (Nat.mod_upper_bound (10 + length dict) 16 ltac:(lia)) as Hm.
  pose proof (Nat.div_mod_eq (10 + length dict) 16) as Hd.
  replace (10 + (length dict + (16 - (10 + length dict) mod 16)))%nat
    with ((1 + (10 + length dict) / 16) * 16)%nat by lia.
  apply Nat.Div0.mod_mul.
Qed.

Lemma pad_dict_last (dict : bytes) :
  nth_error (pad_dict dict) (length (pad_dict dict) - 1) = Some newline.
Proof.
  pose proof (length_pad_dict dict) as Hl.
  pose proof (Nat.mod_upper_bound (10 + length dict) 16 ltac:(lia)) as Hm.
  revert Hl. unfold pad_dict, set_back.
  set (l := dict ++ repeat " "%char _). intros Hl.
  rewrite length_app in *. simpl in *.
  rewrite nth_error_app2 by lia.
  replace (length (removelast l) + 1 - 1 - length (removelast l))%nat with 0%nat by lia.
  reflexivity.
Qed.

Lemma length_preamble (dict : bytes) : length (preamble dict) = 10%nat.
Proof. reflexivity. Qed.

Lemma dictionary_finish_header (dict : bytes) :
  dictionary (finish_header dict) = pad_dict dict.
Proof. reflexivity. Qed.

Lemma header_len_finish_header (dict : bytes) :
  header_len (finish_header dict)
  = Z.of_nat (length (pad_dict dict)) mod 65536.
Proof.
  unfold header_len, finish_header, preamble. cbn [le_bytes lit list_ascii_of_string app nth].
  set (v := Z.of_nat (length (pad_dict dict)) mod 65536).
  assert (0 <= v < 65536) by (apply Z.mod_pos_bound; lia).
  unfold load_le16.
  rewrite !ord_chr.
  - pose proof (Z.div_mod v 256 ltac:(lia)).
    rewrite (Z.mod_small (v / 256)); [lia|].
    split; [apply Z.div_pos; lia | apply Z.div_lt_upper_bound; lia].
  - apply Z.mod_pos_bound; lia.
  - apply Z.mod_pos_bound; lia.
Qed.

Lemma finish_header_padded (dict : bytes) : padded (finish_header dict).
Proof.
  pose proof (pad_dict_mod16 dict) as Hmod.
  pose proof (length_pad_dict dict) as Hlen.
  pose proof (Nat.mod_upper_bound (10 + length dict) 16 ltac:(lia)) as Hm.
  constructor; rewrite ?dictionary_finish_header, ?header_len_finish_header.
  - unfold finish_header. now rewrite length_app, length_preamble.
  - exact Hmod.
  - unfold finish_header.
    rewrite nth_error_app2 by (rewrite length_preamble; lia).
    rewrite length_preamble.
    replace (10 + length (pad_dict dict) - 1 - 10)%nat
      with (length (pad_dict dict) - 1)%nat by lia.
    apply pad_dict_last.
  - apply Nat.Div0.mod_divides in Hmod. destruct Hmod as [k Hk].
    set (n := Z.of_nat (length (pad_dict dict))) in *.
    assert (Hn : 10 + n = 16 * Z.of_nat k) by lia.
    pose proof (Z.div_mod n 65536 ltac:(lia)) as Hdm.
    replace (10 + n mod 65536) with (16 * (Z.of_nat k - 4096 * (n / 65536))) by lia.
    now rewrite Z.mul_comm, Z.mod_mul by lia.
  - intros Hlt. apply Z.mod_small. lia.
Qed.

(** C2. Header padding invariant: whenever [create_npy_header] (either
    overload) is called on a shape of rank at least 1 (and, for the structured
    overload, on argument vectors of equal length) it returns a header whose
    length is 10 plus the dictionary length, where 10 plus the dictionary
    length is a multiple of 16 and the byte at position
    [10 + dictionary_length - 1] is the newline; the same multiple-of-16
    property holds of the stored 16-bit length field. *)
Theorem create_npy_header_padded (host : byte_order) (shape : list Z)
    (dtype : ascii) (wordsize : Z) (memory_order : MemoryOrder)
    (labels : list bytes) (dtypes : list ascii) (sizes : list Z) :
  shape <> [] ->
  (exists h,
      create_npy_header host shape dtype wordsize memory_order = Ok h
      /\ padded h)
  /\ (length labels = length dtypes -> length dtypes = length sizes ->
      exists h,
        create_npy_header_struct host shape labels dtypes sizes memory_order = Ok h
        /\ padded h).
Proof.
  intros Hshape. destruct shape as [|s0 rest]; [congruence|]. split.
  - eexists. split; [reflexivity|]. apply finish_header_padded.
  - intros H1 H2. unfold create_npy_header_struct.
    rewrite H1, H2, !Nat.eqb_refl. cbn [negb orb].
    eexists. split; [reflexivity|]. apply finish_header_padded.
Qed.

Lemma create_npy_header_padded_witness :
  [8; 4; 2] <> []
  /\ (exists h, create_npy_header LittleEndian [8; 4; 2] "u"%char 4 C = Ok h
                /\ padded h)
  /\ (exists h,
        create_npy_header_struct LittleEndian [8; 4; 2]
          [lit "a"; lit "b"] ["i"%char; "i"%char] [4; 1] Fortran = Ok h
        /\ padded h).
Proof.
  assert (Hne : [8; 4; 2] <> []) by discriminate.
  split; [exact Hne|].
  destruct (create_npy_header_padded LittleEndian [8; 4; 2] "u"%char 4 C
              [lit "a"; lit "b"] ["i"%char; "i"%char] [4; 1] Hne) as [Hp _].
  destruct (create_npy_header_padded LittleEndian [8; 4; 2] "u"%char 4 Fortran
              [lit "a"; lit "b"] ["i"%char; "i"%char] [4; 1] Hne) as [_ Hs].
  split; [exact Hp|].
  apply Hs; reflexivity.
Defined.

(** ** Magic string and version *)

(** The stream overload checks the magic string and the version. *)
Lemma parse_npy_header_validates (fs : fstream) (buffer : bytes) (fs1 : fstream) :
  stream_read 10 fs = (buffer, fs1) ->
  length buffer = 10%nat ->
  is_prefix npy_magic_string buffer = false
  \/ ord (nth 6 buffer zero) <> 1 \/ ord (nth 7 buffer zero) <> 0 ->
  throws (parse_npy_header fs).
Proof.
  intros Hread Hlen Hbad. unfold parse_npy_header. rewrite Hread, Hlen.
  cbn [Nat.ltb Nat.leb].
  destruct (is_prefix npy_magic_string buffer) eqn:Hm; cbn [negb].
  - destruct Hbad as [Hbad | Hbad]; [discriminate|].
    destruct (ord (nth 6 buffer zero) =? 1) eqn:H6;
      destruct (ord (nth 7 buffer zero) =? 0) eqn:H7; cbn [negb orb];
      try (eexists; reflexivity).
    apply Z.eqb_eq in H6, H7. tauto.
  - eexists; reflexivity.
Qed.

(** The buffer overload checks the version. *)
Lemma parse_npy_header_buffer_validates_version (buffer : bytes) (major minor : ascii) :
  (10 <= length buffer)%nat ->
  nth_error buffer 6 = Some major -> nth_error buffer 7 = Some minor ->
  ord major <> 1 \/ ord minor <> 0 ->
  throws (parse_npy_header_buffer buffer).
Proof.
  intros Hlen H6 H7 Hbad. unfold parse_npy_header_buffer. rewrite H6, H7.
  destruct (nth_error buffer 8) eqn:H8;
    [|apply nth_error_None in H8; lia].
  destruct (nth_error buffer 9) eqn:H9;
    [|apply nth_error_None in H9; lia].
  destruct (ord major =? 1) eqn:E1; destruct (ord minor =? 0) eqn:E2;
    cbn [andb negb]; try (eexists; reflexivity).
  apply Z.eqb_eq in E1, E2. tauto.
Qed.

(** C8. The raw-buffer overload of [parse_npy_header] never looks at the six
    magic bytes: a buffer that does not start with the magic string, has
    version 1.0 and a well-formed dictionary is parsed successfully, while
    the stream overload rejects the same bytes. *)
Theorem parse_npy_header_buffer_skips_magic :
  is_prefix npy_magic_string bad_magic_buffer = false
  /\ parse_npy_header_buffer bad_magic_buffer
     = Ok {| hdr_word_sizes := [4]; hdr_data_types := ["u"%char];
             hdr_labels := []; hdr_shape := [8; 4; 2]; hdr_memory_order := C |}
  /\ parse_npy_header (open_existing bad_magic_buffer)
     = Throw "parse_npy_header: NPY magic string not found".
Proof. repeat split; vm_compute; reflexivity. Qed.

(** ** The fields of a plain header *)

Lemma parse_descr_plain (dict : bytes) (ws : list Z) (dt : list ascii)
    (ls : list bytes) :
  plain_descr dict -> parse_descr dict = Ok (ws, dt, ls) ->
  length ws = 1%nat /\ length dt = 1%nat /\ ls = [].
Proof.
  intros (p & Hp & Hc). unfold parse_descr. rewrite Hp, Hc.
  replace (Ascii.eqb quote quote) with true by reflexivity.
  destruct (regex_search simple_descr_regex (skipn p dict)) as [[[i m] r]|];
    [|discriminate].
  destruct (bytes_eqb (sub_match m 1) (lit ">")); [discriminate|].
  destruct (stoi_size (sub_match m 3)); cbn [bind]; try discriminate.
  intros [= <- <- <-]. auto.
Qed.

(** C9 (as amended). After a successful parse of a plain header (the value of
    ['descr'] starts with a quote) the parsed word sizes and type codes each
    have length 1 and the parsed label sequence is empty. *)
Theorem parse_npy_dict_plain_fields (dict : bytes) (h : parsed_header) :
  plain_descr dict -> parse_npy_dict dict = Ok h ->
  length (hdr_word_sizes h) = 1%nat /\ length (hdr_data_types h) = 1%nat
  /\ hdr_labels h = [].
Proof.
  intros Hplain. unfold parse_npy_dict.
  destruct dict as [|front t]; [discriminate|].
  destruct (negb (Ascii.eqb (List.last (front :: t) zero) newline)); [discriminate|].
  destruct (negb (Ascii.eqb front "{")); [discriminate|].
  destruct (parse_fortran_order (front :: t)); cbn [bind]; try discriminate.
  destruct (parse_shape (front :: t)); cbn [bind]; try discriminate.
  destruct (parse_descr (front :: t)) as [[[ws dt] ls]| |] eqn:Hd;
    cbn [bind]; try discriminate.
  intros [= <-]. cbn. eapply parse_descr_plain; eauto.
Qed.

Lemma plain_descr_plain_dict : plain_descr plain_dict.
Proof. exists 1%nat. split; reflexivity. Qed.

Lemma parse_npy_dict_plain_fields_witness :
  exists h, parse_npy_dict plain_dict = Ok h
            /\ length (hdr_word_sizes h) = 1%nat
            /\ length (hdr_data_types h) = 1%nat /\ hdr_labels h = [].
Proof.
  eexists. split; [vm_compute; reflexivity|].
  apply (parse_npy_dict_plain_fields plain_dict);
    [exact plain_descr_plain_dict | vm_compute; reflexivity].
Defined.

(** C9, as stated, fails: the plain header of an [(8, 4, 2)] array parses,
    and its label sequence does not consist of one empty label. *)
Lemma parse_npy_dict_plain_labels_counterexample :
  ~ (forall h, plain_descr plain_dict -> parse_npy_dict plain_dict = Ok h ->
               length (hdr_word_sizes h) = 1%nat
               /\ length (hdr_data_types h) = 1%nat
               /\ hdr_labels h = [[]]).
Proof.
  intros Hclaim.
  destruct (Hclaim _ plain_descr_plain_dict ltac:(vm_compute; reflexivity))
    as (_ & _ & Hlabels).
  discriminate Hlabels.
Qed.

(** ** Typed views *)

Lemma throws_Throw {A : Type} (w : string) : throws (@Throw A w).
Proof. now exists w. Qed.

Lemma returns_Ok {A : Type} (a : A) : returns (Ok a).
Proof. now exists a. Qed.

(** C10. [tuple_range] compares the requested element widths with the stored
    word sizes only when [force_check] is set: with [force_check] and
    differing widths it throws; without it, it returns the view over the
    whole buffer although the widths differ.  [column_range] throws whenever
    the width of the requested type differs from the stored width of the
    column. *)
Theorem tuple_range_force_check (TArgs : tuple_type) (a : NpyArray)
    (T : value_type) (name : bytes) (d : nat) (w : Z) :
  compare_word_sizes TArgs a = false ->
  throws (tuple_range TArgs true a)
  /\ tuple_range TArgs false a
     = Ok {| tuple_first := 0;
             tuple_last := (num_vals a * total_value_size a) mod SIZE_MOD;
             tuple_elements := TArgs |}
  /\ (find_label name (labels a) = Some d ->
      nth_error (word_sizes a) d = Some w -> w <> sizeof T ->
      throws (column_range T name a)).
Proof.
  intros Hcmp. unfold tuple_range. rewrite Hcmp. cbn [andb negb].
  split; [apply throws_Throw|]. split; [reflexivity|].
  intros Hfind Hnth Hw. unfold column_range. rewrite Hfind, Hnth.
  destruct (w =? sizeof T) eqn:E; [apply Z.eqb_eq in E; contradiction|].
  apply throws_Throw.
Qed.

Lemma tuple_range_force_check_witness :
  compare_word_sizes [int32_t; int32_t] record_array = false
  /\ throws (tuple_range [int32_t; int32_t] true record_array)
  /\ returns (tuple_range [int32_t; int32_t] false record_array)
  /\ throws (column_range int32_t (lit "b") record_array).
Proof.
  assert (Hcmp : compare_word_sizes [int32_t; int32_t] record_array = false)
    by reflexivity.
  destruct (tuple_range_force_check [int32_t; int32_t] record_array int32_t
              (lit "b") 1%nat 1 Hcmp) as (Hthrow & Hview & Hcol).
  split; [exact Hcmp|]. split; [exact Hthrow|].
  split; [rewrite Hview; apply returns_Ok|].
  apply Hcol; [reflexivity | reflexivity | discriminate].
Defined.

(** With matching widths the forced check passes. *)
Lemma tuple_range_checked_ok (TArgs : tuple_type) (a : NpyArray) :
  compare_word_sizes TArgs a = true -> returns (tuple_range TArgs true a).
Proof.
  intros H. unfold tuple_range. rewrite H. apply returns_Ok.
Qed.

(** ** Appending in Fortran order *)

(** C5. On append [npy_save] compares all dimensions but the first whatever
    the memory order.  In Fortran order, where the last dimension grows,
    appending [(5, 3)] data to a [(2, 3)] file passes the check although the
    first dimension differs, and the header becomes [(2, 6)]; appending
    [(2, 4)] data, which differs in the growth dimension only, throws. *)
Theorem npy_save_append_fortran_dimension_check :
  (exists files',
      npy_save (creates ["arr.npy"]) LittleEndian fortran_files "arr.npy"
        uint8_t true (repeat [chr 66] 15) [5; 3] "a" Fortran = Ok files'
      /\ exists a, npy_load 4096 files' "arr.npy" false = Ok a
                   /\ shape a = [2; 6])
  /\ npy_save (creates ["arr.npy"]) LittleEndian fortran_files "arr.npy"
       uint8_t true (repeat [chr 66] 8) [2; 4] "a" Fortran
     = Throw ("libnpy error: npy_save attempting to append misshaped data to "
              +:+ quoted "arr.npy").
Proof.
  split.
  - eexists. split; [vm_compute; reflexivity|].
    eexists. split; [vm_compute; reflexivity|]. reflexivity.
  - vm_compute. reflexivity.
Qed.

(** C4. The same append of [(5, 3)] data to the [(2, 3)] Fortran-order file,
    a mismatch in a dimension that does not grow, returns normally and
    leaves the file with other bytes than before: 21 payload bytes under a
    header that announces 12. *)
Theorem npy_save_append_mismatch_alters_file :
  exists files' old new,
    npy_save (creates ["arr.npy"]) LittleEndian fortran_files "arr.npy"
      uint8_t true (repeat [chr 66] 15) [5; 3] "a" Fortran = Ok files'
    /\ fortran_files !! "arr.npy" = Some old
    /\ files' !! "arr.npy" = Some new
    /\ old <> new
    /\ length old = 86%nat /\ length new = 101%nat.
Proof.
  eexists. eexists. eexists.
  split; [vm_compute; reflexivity|].
  split; [vm_compute; reflexivity|].
  split; [vm_compute; reflexivity|].
  split; [|split; reflexivity].
  intros H. apply (f_equal (@length ascii)) in H. discriminate H.
Qed.

(** ** The header phase of the archive writer *)

(** C6. With header bytes left, a pull copies [min (length, header size)]
    header bytes, not [min (length, remaining)]: after a first pull of 50
    bytes from an 80-byte header, 30 bytes remain, and the second pull of 50
    bytes copies 50 bytes starting 50 bytes into the header, 20 bytes past
    its end. *)
Theorem npzwrite_source_read_header_overrun :
  exists out1 p1,
    npzwrite_source_read (npz_save_callback uint32_t [3]) 50
      three_words_parameters = Ok (out1, p1)
    /\ length (npyheader p1) = 80%nat
    /\ header_bytes_remaining p1 = 30
    /\ header_tbw 50 p1 = 50
    /\ Z.min 50 (header_bytes_remaining p1) = 30
    /\ npzwrite_source_read (npz_save_callback uint32_t [3]) 50 p1 = Undefined
    /\ pull_all (npz_save_callback uint32_t [3]) [50; 50]
         three_words_parameters = Undefined.
Proof.
  eexists. eexists.
  split; [vm_compute; reflexivity|].
  repeat split; vm_compute; reflexivity.
Qed.

(** ** Decimal numbers *)

Lemma digit_val_digit_char (d : Z) : 0 <= d < 10 -> digit_val (digit_char d) = d.
Proof.
  intros Hd. unfold digit_val, digit_char. rewrite ord_chr by lia. lia.
Qed.

Lemma is_digit_digit_char (d : Z) : 0 <= d < 10 -> is_digit (digit_char d) = true.
Proof.
  intros Hd. unfold is_digit, digit_char. rewrite ord_chr by lia.
  apply andb_true_intro. split; apply Z.leb_le; lia.
Qed.

Lemma digits_value_app (a : Z) (s t : bytes) :
  digits_value a (s ++ t) = digits_value (digits_value a s) t.
Proof.
  revert a. induction s as [|c s IH]; intros a; [reflexivity|].
  simpl. apply IH.
Qed.

(** What [digits_aux] puts in front of its accumulator. *)
Record decimal_of (n : Z) (ds : bytes) : Prop := {
  decimal_nonempty : ds <> [];
  decimal_digits : forallb is_digit ds = true;
  decimal_value : forall a, digits_value a ds = a * 10 ^ Z.of_nat (length ds) + n
}.

Lemma decimal_of_single (n : Z) : 0 <= n < 10 -> decimal_of n [digit_char n].
Proof.
  intros Hn. constructor.
  - discriminate.
  - simpl. now rewrite is_digit_digit_char.
  - intros a. simpl. rewrite digit_val_digit_char by lia. lia.
Qed.

Lemma digits_aux_spec (fuel : nat) :
  forall n acc, 0 <= n < 2 * 2 ^ Z.of_nat fuel ->
    exists ds, digits_aux fuel n acc = ds ++ acc /\ decimal_of n ds.
Proof.
  induction fuel as [|f IH]; intros n acc Hn.
  - exists [digit_char (n mod 10)]. split; [reflexivity|].
    change (2 ^ Z.of_nat 0) with 1 in Hn.
    rewrite Z.mod_small by lia. apply decimal_of_single. lia.
  - cbn [digits_aux]. destruct (n / 10 =? 0) eqn:Hq.
    + apply Z.eqb_eq in Hq.
      exists [digit_char (n mod 10)]. split; [reflexivity|].
      assert (n < 10) by (apply Z.div_small_iff in Hq; lia).
      rewrite Z.mod_small by lia. apply decimal_of_single. lia.
    + apply Z.eqb_neq in Hq.
      rewrite Nat2Z.inj_succ, Z.pow_succ_r in Hn by lia.
      assert (Hdiv : 0 <= n / 10 < 2 * 2 ^ Z.of_nat f).
      { split; [apply Z.div_pos; lia|].
        apply Z.div_lt_upper_bound; lia. }
      destruct (IH (n / 10) (digit_char (n mod 10) :: acc) Hdiv)
        as (ds & Heq & [Hne Hdig Hval]).
      exists (ds ++ [digit_char (n mod 10)]). split.
      * rewrite Heq, <- app_assoc. reflexivity.
      * pose proof (Z.mod_pos_bound n 10 ltac:(lia)) as Hm.
        constructor.
        -- destruct ds; discriminate.
        -- rewrite forallb_app, Hdig. simpl. now rewrite is_digit_digit_char.
        -- intros a. rewrite digits_value_app, Hval. simpl.
           rewrite digit_val_digit_char by lia.
           rewrite length_app. simpl length.
           rewrite Nat2Z.inj_add. change (Z.of_nat 1) with 1.
           rewrite Z.pow_add_r by lia. change (10 ^ 1) with 10.
           pose proof (Z.div_mod n 10 ltac:(lia)). lia.
Qed.

Lemma digits_spec (n : Z) : 0 <= n -> decimal_of n (digits n).
Proof.
  intros Hn. unfold digits.
  assert (Hb : 0 <= n < 2 * 2 ^ Z.of_nat (Z.to_nat (Z.log2 n))).
  { split; [lia|]. rewrite Z2Nat.id by apply Z.log2_nonneg.
    destruct (Z.eq_dec n 0) as [->|Hnz]; [reflexivity|].
    pose proof (Z.log2_spec n ltac:(lia)) as Hs.
    rewrite Z.pow_succ_r in Hs by apply Z.log2_nonneg. lia. }
  destruct (digits_aux_spec _ n [] Hb) as (ds & Heq & Hds).
  rewrite Heq, app_nil_r. exact Hds.
Qed.

Lemma to_string_nonneg (n : Z) : 0 <= n -> to_string n = digits n.
Proof.
  intros Hn. unfold to_string.
  destruct (n <? 0) eqn:E; [apply Z.ltb_lt in E; lia | reflexivity].
Qed.

Lemma span_all (p : ascii -> bool) (s rest : bytes) :
  forallb p s = true ->
  match rest with [] => True | c :: _ => p c = false end ->
  span p (s ++ rest) = (s, rest).
Proof.
  intros Hs Hrest. induction s as [|c s IH].
  - simpl. destruct rest as [|c r]; [reflexivity|].
    simpl. now rewrite Hrest.
  - simpl in Hs. apply andb_prop in Hs. destruct Hs as [Hc Hs].
    simpl. rewrite Hc, (IH Hs). reflexivity.
Qed.

Lemma is_digit_not_space (c : ascii) : is_digit c = true -> is_space c = false.
Proof.
  unfold is_digit, is_space. intros H.
  apply andb_prop in H. destruct H as [H1 H2].
  apply Z.leb_le in H1, H2.
  apply orb_false_intro; [apply Z.eqb_neq; lia|].
  apply andb_false_intro2. apply Z.leb_gt. lia.
Qed.

Lemma is_digit_ord (c : ascii) : is_digit c = true <-> 48 <= ord c <= 57.
Proof.
  unfold is_digit. rewrite andb_true_iff, !Z.leb_le. tauto.
Qed.

Lemma ascii_eqb_ord (a b : ascii) : Ascii.eqb a b = (ord a =? ord b).
Proof.
  destruct (Ascii.eqb a b) eqn:E.
  - apply Ascii.eqb_eq in E. subst. symmetry. apply Z.eqb_refl.
  - symmetry. apply Z.eqb_neq. intros H. apply ord_inj in H.
    apply Ascii.eqb_neq in E. contradiction.
Qed.

Lemma stoi_decimal (n : Z) (ds : bytes) :
  decimal_of n ds -> 0 <= n <= INT_MAX -> stoi ds = Ok n.
Proof.
  intros [Hne Hdig Hval] Hn. unfold stoi.
  destruct ds as [|c ds]; [congruence|].
  simpl in Hdig. apply andb_prop in Hdig. destruct Hdig as [Hc Hds].
  cbn [drop_while]. rewrite (is_digit_not_space c Hc).
  pose proof (proj1 (is_digit_ord c) Hc) as Hord.
  rewrite !ascii_eqb_ord.
  replace (ord (chr 45)) with 45 by reflexivity.
  replace (ord (chr 43)) with 43 by reflexivity.
  destruct (ord c =? 45) eqn:E1; [apply Z.eqb_eq in E1; lia|].
  destruct (ord c =? 43) eqn:E2; [apply Z.eqb_eq in E2; lia|].
  pose proof (span_all is_digit (c :: ds) [] ltac:(simpl; now rewrite Hc, Hds) I) as Hsp.
  rewrite app_nil_r in Hsp. rewrite Hsp.
  rewrite Hval, Z.mul_0_l, Z.add_0_l.
  unfold INT_MIN, INT_MAX in *.
  destruct (-2147483648 <=? n) eqn:E3; [|apply Z.leb_gt in E3; lia].
  destruct (n <=? 2147483647) eqn:E4; [|apply Z.leb_gt in E4; lia].
  reflexivity.
Qed.

Lemma stoi_size_digits (n : Z) : 0 <= n <= INT_MAX -> stoi_size (digits n) = Ok n.
Proof.
  intros Hn. unfold stoi_size.
  rewrite (stoi_decimal n (digits n) (digits_spec n ltac:(lia)) Hn).
  cbn [bind]. unfold size_t_of_int, SIZE_MOD, INT_MAX in *.
  rewrite Z.mod_small by lia. reflexivity.
Qed.

(** ** Searching *)

Lemma nowhere_app (P : bytes -> Prop) (a b rest : bytes) :
  nowhere P a (b ++ rest) -> nowhere P b rest -> nowhere P (a ++ b) rest.
Proof.
  intros Ha Hb. induction a as [|c a IH]; [exact Hb|].
  destruct Ha as [Hc Ha]. cbn [app nowhere]. split.
  - now rewrite <- app_assoc.
  - apply IH, Ha.
Qed.

Lemma nowhere_each (P : bytes -> Prop) (pre rest : bytes) :
  (forall c s, In c pre -> P (c :: s)) -> nowhere P pre rest.
Proof.
  induction pre as [|c pre IH]; intros H; [exact I|].
  split; [apply H; now left|]. apply IH. intros c' s Hin. apply H. now right.
Qed.

Lemma nowhere_impl (P Q : bytes -> Prop) (pre rest : bytes) :
  (forall s, P s -> Q s) -> nowhere P pre rest -> nowhere Q pre rest.
Proof.
  intros HPQ. induction pre as [|c pre IH]; [trivial|].
  intros [Hc H]. split; auto.
Qed.

Lemma find_nowhere (p pre rest : bytes) :
  nowhere (no_occurrence p) pre rest -> is_prefix p rest = true ->
  find p (pre ++ rest) = Some (length pre).
Proof.
  intros Hpre Hrest. induction pre as [|c pre IH].
  - destruct rest; simpl; now rewrite Hrest.
  - destruct Hpre as [Hc Hpre]. unfold no_occurrence in Hc.
    cbn [app find]. rewrite Hc, (IH Hpre). reflexivity.
Qed.

Lemma find_from_nowhere (p before pre rest : bytes) :
  nowhere (no_occurrence p) pre rest -> is_prefix p rest = true ->
  find_from p (before ++ pre ++ rest) (length before)
  = Some (length before + length pre)%nat.
Proof.
  intros Hpre Hrest. unfold find_from.
  replace (skipn (length before) (before ++ pre ++ rest)) with (pre ++ rest).
  - now rewrite (find_nowhere _ _ _ Hpre Hrest).
  - rewrite skipn_app, skipn_all, Nat.sub_diag. reflexivity.
Qed.

Lemma regex_search_nowhere (m : matcher) (pre rest : bytes) :
  nowhere (no_match m) pre rest ->
  regex_search m (pre ++ rest) = shift (length pre) (regex_search m rest).
Proof.
  intros Hpre. induction pre as [|c pre IH].
  - cbn [app length shift]. destruct (regex_search m rest) as [[[i sub] r]|]; reflexivity.
  - destruct Hpre as [Hc Hpre]. unfold no_match in Hc.
    cbn [app regex_search]. rewrite Hc, (IH Hpre).
    destruct (regex_search m rest) as [[[i sub] r]|]; reflexivity.
Qed.

Lemma regex_search_here (m : matcher) (s : bytes) (sub : list bytes) (rest : bytes) :
  m s = Some (sub, rest) -> regex_search m s = Some (O, sub, rest).
Proof.
  intros H. destruct s; cbn [regex_search]; now rewrite H.
Qed.

Lemma regex_search_first (m : matcher) (pre s : bytes) (sub : list bytes)
    (rest : bytes) :
  nowhere (no_match m) pre s -> m s = Some (sub, rest) ->
  regex_search m (pre ++ s) = Some (length pre, sub, rest).
Proof.
  intros Hpre Hm. rewrite (regex_search_nowhere _ _ _ Hpre).
  rewrite (regex_search_here _ _ _ _ Hm). cbn [shift].
  now rewrite Nat.add_0_r.
Qed.

Lemma regex_search_none (m : matcher) (s : bytes) :
  nowhere (no_match m) s [] -> m [] = None -> regex_search m s = None.
Proof.
  intros Hs Hnil. rewrite <- (app_nil_r s).
  rewrite (regex_search_nowhere _ _ _ Hs). cbn. now rewrite Hnil.
Qed.

Lemma regex_search_suffix (m : matcher) (s : bytes) (i : nat) (sub : list bytes)
    (rest : bytes) :
  consuming m -> regex_search m s = Some (i, sub, rest) ->
  (length rest < length s)%nat.
Proof.
  intros Hm. revert i. induction s as [|c s IH]; intros i H.
  - cbn in H. destruct (m []) as [[sub' rest']|] eqn:E; [|discriminate].
    destruct (Hm _ _ _ E) as (taken & Hne & Heq).
    destruct taken; [congruence | discriminate].
  - cbn [regex_search] in H.
    destruct (m (c :: s)) as [[sub' rest']|] eqn:E.
    + injection H as <- <- <-.
      destruct (Hm _ _ _ E) as (taken & Hne & Heq).
      rewrite Heq, length_app. destruct taken; [congruence|simpl; lia].
    + destruct (regex_search m s) as [[[j sub'] rest']|] eqn:E'; [|discriminate].
      injection H as <- <- <-. specialize (IH _ eq_refl). simpl. lia.
Qed.

Lemma regex_iterate_fuel (m : matcher) :
  consuming m ->
  forall fuel s, (length s < fuel)%nat ->
    regex_iterate fuel m s = regex_iterate (S (length s)) m s.
Proof.
  intros Hm fuel. induction fuel as [fuel IH] using lt_wf_ind.
  intros s Hlen. destruct fuel as [|f]; [lia|].
  cbn [regex_iterate].
  destruct (regex_search m s) as [[[i sub] rest]|] eqn:E; [|reflexivity].
  pose proof (regex_search_suffix _ _ _ _ _ Hm E) as Hlt.
  f_equal. rewrite (IH f) by lia.
  destruct (Nat.eq_dec (length s) (S (length rest))) as [->|Hne]; [reflexivity|].
  symmetry. apply IH; lia.
Qed.

Lemma cregex_iterator_step (m : matcher) (s : bytes) :
  consuming m ->
  cregex_iterator m s
  = match regex_search m s with
    | None => []
    | Some (_, sub, rest) => sub :: cregex_iterator m rest
    end.
Proof.
  intros Hm. unfold cregex_iterator. cbn [regex_iterate].
  destruct (regex_search m s) as [[[i sub] rest]|] eqn:E; [|reflexivity].
  pose proof (regex_search_suffix _ _ _ _ _ Hm E) as Hlt.
  f_equal. apply regex_iterate_fuel; [exact Hm | lia].
Qed.

(** ** The matchers on the text they are written for *)

Lemma expect_app (p s : bytes) : expect p (p ++ s) = Some s.
Proof.
  induction p as [|c p IH]; [reflexivity|].
  cbn [app expect]. now rewrite Ascii.eqb_refl.
Qed.

Lemma expect_Some (p s r : bytes) : expect p s = Some r -> s = p ++ r.
Proof.
  revert s. induction p as [|c p IH]; intros s H.
  - cbn in H. now injection H as ->.
  - destruct s as [|y s]; [discriminate|]. cbn [expect] in H.
    destruct (Ascii.eqb c y) eqn:E; [|discriminate].
    apply Ascii.eqb_eq in E. subst y. cbn [app]. f_equal. now apply IH.
Qed.

Lemma expect_is_prefix (p s : bytes) :
  is_prefix p s = false -> expect p s = None.
Proof.
  revert s. induction p as [|c p IH]; intros s H; [discriminate|].
  destruct s as [|y s]; [reflexivity|]. cbn [expect is_prefix] in *.
  destruct (Ascii.eqb c y); [apply IH, H | reflexivity].
Qed.

Lemma is_prefix_app (p s : bytes) : is_prefix p (p ++ s) = true.
Proof.
  induction p as [|c p IH]; [reflexivity|].
  cbn [app is_prefix]. now rewrite Ascii.eqb_refl.
Qed.

Lemma span_Some (cls : ascii -> bool) (s a b : bytes) :
  span cls s = (a, b) -> s = a ++ b.
Proof.
  revert a b. induction s as [|c s IH]; intros a b H.
  - cbn in H. now injection H as <- <-.
  - cbn [span] in H. destruct (cls c).
    + destruct (span cls s) as [a' b'] eqn:E. injection H as <- <-.
      cbn [app]. f_equal. now apply IH.
    + now injection H as <- <-.
Qed.

Lemma many1_app (cls : ascii -> bool) (w rest : bytes) :
  w <> [] -> forallb cls w = true ->
  match rest with [] => True | c :: _ => cls c = false end ->
  many1 cls (w ++ rest) = Some (w, rest).
Proof.
  intros Hne Hw Hrest. unfold many1. rewrite (span_all _ _ _ Hw Hrest).
  destruct w; [congruence | reflexivity].
Qed.

Lemma many1_Some (cls : ascii -> bool) (s a b : bytes) :
  many1 cls s = Some (a, b) -> a <> [] /\ s = a ++ b.
Proof.
  unfold many1. destruct (span cls s) as [a' b'] eqn:E.
  destruct a' as [|c a']; [discriminate|].
  intros [= <- <-]. split; [discriminate|]. now apply (span_Some cls).
Qed.

Lemma one_Some (cls : ascii -> bool) (s : bytes) (c : ascii) (r : bytes) :
  one cls s = Some (c, r) -> s = c :: r.
Proof.
  destruct s as [|y s]; [discriminate|]. cbn. destruct (cls y); [|discriminate].
  now intros [= <- <-].
Qed.

Lemma consuming_digit_re : consuming digit_re.
Proof.
  intros s sub rest H. unfold digit_re in H.
  destruct (many1 is_digit s) as [[d r]|] eqn:E; [|discriminate].
  injection H as <- <-. apply many1_Some in E. destruct E as [Hne ->].
  now exists d.
Qed.

Lemma consuming_dtype_tuple_regex : consuming dtype_tuple_regex.
Proof.
  intros s sub rest H. unfold dtype_tuple_regex in H.
  destruct (expect (lit "('") s) as [s1|] eqn:E1; [|discriminate].
  destruct (many1 is_word s1) as [[w s2]|] eqn:E2; [|discriminate].
  destruct (expect (lit "', '") s2) as [s3|] eqn:E3; [|discriminate].
  destruct (one is_endian s3) as [[e s4]|] eqn:E4; [|discriminate].
  destruct (one is_code s4) as [[c s5]|] eqn:E5; [|discriminate].
  destruct (many1 is_digit s5) as [[d s6]|] eqn:E6; [|discriminate].
  destruct (expect (lit "')") s6) as [r|] eqn:E7; [|discriminate].
  injection H as <- <-.
  apply expect_Some in E1, E3, E7.
  apply (many1_Some is_word) in E2. apply (many1_Some is_digit) in E6.
  apply (one_Some is_endian) in E4. apply (one_Some is_code) in E5.
  destruct E2 as [_ E2]. destruct E6 as [_ E6].
  subst. exists (lit "('" ++ w ++ lit "', '" ++ [e] ++ [c] ++ d ++ lit "')").
  split; [discriminate|]. now rewrite <- !app_assoc.
Qed.

(** ** Character classes *)

Lemma map_type_code (T : value_type) : type_code (map_type T).
Proof.
  unfold type_code, map_type.
  destruct (kind T) as [| |[|]|]; cbn; tauto.
Qed.

Lemma type_code_is_code (c : ascii) : type_code c -> is_code c = true.
Proof.
  intros H. repeat (destruct H as [<-|H]; [reflexivity|]). destruct H.
Qed.

Lemma type_code_lower (c : ascii) : type_code c -> lower_case c.
Proof.
  intros H. unfold lower_case.
  repeat (destruct H as [<-|H]; [vm_compute; split; discriminate|]). destruct H.
Qed.

Lemma class_neq (cls : ascii -> bool) (c x : ascii) :
  cls c = true -> cls x = false -> c <> x.
Proof. intros H1 H2 ->. congruence. Qed.

Lemma lower_case_neq (c x : ascii) :
  lower_case c -> ord x < 97 \/ 122 < ord x -> c <> x.
Proof. unfold lower_case. intros H1 H2 ->. lia. Qed.

Lemma forallb_In (cls : ascii -> bool) (l : bytes) (c : ascii) :
  forallb cls l = true -> In c l -> cls c = true.
Proof. intros H. now apply forallb_forall. Qed.

Lemma is_prefix_hd (p s : bytes) (q c : ascii) :
  c <> q -> is_prefix (q :: p) (c :: s) = false.
Proof.
  intros H. cbn [is_prefix].
  destruct (Ascii.eqb q c) eqn:E; [|reflexivity].
  apply Ascii.eqb_eq in E. congruence.
Qed.

Lemma nowhere_class (cls : ascii -> bool) (q : ascii) (p l rest : bytes) :
  forallb cls l = true -> cls q = false ->
  nowhere (no_occurrence (q :: p)) l rest.
Proof.
  intros Hl Hq. apply nowhere_each. intros c s Hin.
  apply is_prefix_hd. eapply class_neq; [eapply forallb_In; eauto | exact Hq].
Qed.

(** ** The dictionary keys inside generated text *)

Ltac norm_app := repeat (progress (rewrite <- ?app_assoc; cbn [app])).

Section Keys.

Variables (x : ascii) (a r : bytes).
Hypothesis Hx : lower_case x.
Hypothesis Ha : forallb (fun c => negb (Ascii.eqb c quote)) a = true.

Let p : bytes := key x a r.

Lemma key_other (c : ascii) (s : bytes) :
  c <> quote -> no_occurrence p (c :: s).
Proof. intros H. now apply is_prefix_hd. Qed.

Lemma key_quote (y : ascii) (s : bytes) :
  y <> x -> no_occurrence p (quote :: y :: s).
Proof.
  intros H. unfold no_occurrence, p, key. cbn [is_prefix].
  rewrite Ascii.eqb_refl. cbn [andb]. now apply is_prefix_hd.
Qed.

Lemma is_prefix_quoted (u w s : bytes) (y : ascii) :
  forallb (fun c => negb (Ascii.eqb c quote)) u = true ->
  forallb (fun c => negb (Ascii.eqb c quote)) w = true ->
  y <> ":"%char ->
  is_prefix (u ++ quote :: ":"%char :: r) (w ++ quote :: y :: s) = false.
Proof.
  intros Hu. revert w. induction u as [|c u IH]; intros w Hw Hy.
  - destruct w as [|d w]; cbn [app is_prefix].
    + rewrite Ascii.eqb_refl. cbn [andb].
      destruct (Ascii.eqb ":" y) eqn:E; [|reflexivity].
      apply Ascii.eqb_eq in E. congruence.
    + cbn [forallb] in Hw. apply andb_prop in Hw. destruct Hw as [Hd _].
      rewrite Ascii.eqb_sym. now apply negb_true_iff in Hd as ->.
  - cbn [forallb] in Hu. apply andb_prop in Hu. destruct Hu as [Hc Hu].
    destruct w as [|d w]; cbn [app is_prefix].
    + now apply negb_true_iff in Hc as ->.
    + cbn [forallb] in Hw. apply andb_prop in Hw. destruct Hw as [_ Hw].
      rewrite (IH Hu w Hw Hy). apply andb_false_r.
Qed.

Lemma key_label (l s : bytes) :
  forallb is_word l = true -> l <> [] ->
  no_occurrence p (quote :: l ++ quote :: ","%char :: s).
Proof.
  intros Hl Hne. unfold no_occurrence, p, key. cbn [is_prefix].
  rewrite Ascii.eqb_refl. cbn [andb].
  apply (is_prefix_quoted (x :: a) l s ","%char); [| |discriminate].
  - cbn [forallb]. rewrite Ha, andb_true_r. apply negb_true_iff.
    apply Ascii.eqb_neq. apply lower_case_neq; [exact Hx|]. vm_compute. now left.
  - apply forallb_forall. intros c Hin. apply negb_true_iff, Ascii.eqb_neq.
    eapply class_neq; [eapply forallb_In; eauto | reflexivity].
Qed.

Lemma key_digits (n : Z) (rest : bytes) :
  0 <= n -> nowhere (no_occurrence p) (digits n) rest.
Proof.
  intros Hn. apply (nowhere_class is_digit); [|reflexivity].
  apply digits_spec, Hn.
Qed.

Lemma key_tuple (host : byte_order) (last : bool) (f : bytes * ascii * Z)
    (rest : bytes) :
  field_ok f -> nowhere (no_occurrence p) (descr_tuple host last f) rest.
Proof.
  destruct f as [[l c] w]. intros ([Hne Hl] & Hc & Hw). unfold descr_tuple.
  rewrite to_string_nonneg by lia.
  assert (Hxq : forall y, ord y < 97 \/ 122 < ord y -> y <> x).
  { intros y Hy E. subst y. unfold lower_case in Hx. lia. }
  assert (Hcq : c <> quote).
  { apply lower_case_neq; [now apply type_code_lower|]. vm_compute. now left. }
  cbn [lit list_ascii_of_string app nowhere]. split; [now apply key_other|].
  split; [norm_app; apply (key_label l _ Hl Hne)|].
  apply nowhere_app.
  { apply (nowhere_class is_word); [exact Hl | reflexivity]. }
  cbn [nowhere app]. split; [apply key_quote, Hxq; vm_compute; now left|].
  split; [now apply key_other|]. split; [now apply key_other|].
  split.
  { apply key_quote, Hxq. destruct host; vm_compute; now left. }
  split; [apply key_other; destruct host; discriminate|].
  split; [now apply key_other|].
  apply nowhere_app; [apply key_digits; lia|].
  cbn [nowhere app]. split; [apply key_quote, Hxq; vm_compute; now left|].
  split; [now apply key_other|].
  destruct last; cbn [nowhere app]; [exact I|].
  split; [now apply key_other|]. split; [now apply key_other | exact I].
Qed.

Lemma key_tuples (host : byte_order) (fs : list (bytes * ascii * Z)) (rest : bytes) :
  Forall field_ok fs -> nowhere (no_occurrence p) (descr_tuples host fs) rest.
Proof.
  induction 1 as [|f fs Hf Hfs IH]; [exact I|].
  cbn [descr_tuples]. destruct fs as [|g fs]; [now apply key_tuple|].
  apply nowhere_app; [now apply key_tuple | exact IH].
Qed.

End Keys.

(** ** Padding, as text *)

Lemma repeat_snoc {A : Type} (x : A) (n : nat) : repeat x (S n) = repeat x n ++ [x].
Proof.
  induction n as [|n IH]; [reflexivity|].
  cbn [repeat app] in *. now rewrite <- IH.
Qed.

Lemma pad_dict_padding (dict : bytes) :
  pad_dict dict = dict ++ padding (15 - (10 + length dict) mod 16).
Proof.
  unfold pad_dict, padding, set_back.
  pose proof (Nat.mod_upper_bound (10 + length dict) 16 ltac:(lia)) as Hm.
  replace (16 - (10 + length dict) mod 16)%nat
    with (S (15 - (10 + length dict) mod 16)) by lia.
  rewrite repeat_snoc, app_assoc, removelast_last, <- app_assoc. reflexivity.
Qed.

Lemma last_padding (s : bytes) (k : nat) : List.last (s ++ padding k) zero = newline.
Proof.
  unfold padding. rewrite !app_assoc. apply last_last.
Qed.

(** ** The memory order of a generated dictionary *)

Lemma nowhere_no_match_fortran (pre rest : bytes) :
  nowhere (no_occurrence (lit "'fortran_order': ")) pre rest ->
  nowhere (no_match fortran_order_regex) pre rest.
Proof.
  apply nowhere_impl. intros s Hs. unfold no_match, fortran_order_regex.
  now rewrite (expect_is_prefix _ _ Hs).
Qed.

Lemma parse_fortran_order_generated (head : bytes) (memory_order : MemoryOrder)
    (X : bytes) :
  nowhere (no_occurrence (lit "'fortran_order': ")) head
    (lit "'fortran_order': " ++ fortran_text memory_order ++ X) ->
  parse_fortran_order
    (head ++ lit "'fortran_order': " ++ fortran_text memory_order ++ X)
  = Ok memory_order.
Proof.
  intros Hhead. unfold parse_fortran_order.
  assert (Hm : exists sub rest,
             fortran_order_regex
               (lit "'fortran_order': " ++ fortran_text memory_order ++ X)
             = Some (sub, rest)
             /\ (if bytes_eqb (sub_match sub 1) (lit "True") then Fortran else C)
                = memory_order).
  { unfold fortran_order_regex. rewrite expect_app.
    destruct memory_order; cbn [fortran_text].
    - rewrite expect_app. eexists. eexists. split; reflexivity.
    - replace (expect (lit "True") (lit "False" ++ X)) with (@None bytes)
        by reflexivity.
      rewrite expect_app. eexists. eexists. split; reflexivity. }
  destruct Hm as (sub & rest & Hm & Hsub).
  rewrite (regex_search_first _ _ _ _ _ (nowhere_no_match_fortran _ _ Hhead) Hm).
  now rewrite Hsub.
Qed.

(** ** The shape of a generated dictionary *)

Lemma digit_re_not_digit (c : ascii) (s : bytes) :
  is_digit c = false -> no_match digit_re (c :: s).
Proof.
  intros H. unfold no_match, digit_re, many1. cbn [span]. now rewrite H.
Qed.

Lemma digit_re_digits (n : Z) (R : bytes) :
  0 <= n -> match R with [] => True | c :: _ => is_digit c = false end ->
  digit_re (digits n ++ R) = Some ([digits n], R).
Proof.
  intros Hn HR. unfold digit_re.
  destruct (digits_spec n Hn) as [Hne Hdig _].
  now rewrite (many1_app _ _ _ Hne Hdig HR).
Qed.

Lemma shape_tail_head (rest : list Z) (trail : bytes) :
  match trail with [] => True | c :: _ => is_digit c = false end ->
  match shape_tail rest ++ trail with [] => True | c :: _ => is_digit c = false end.
Proof.
  intros Ht. destruct rest as [|d rest]; [exact Ht|]. reflexivity.
Qed.

Lemma cregex_iterator_shape_tail (rest : list Z) (trail : bytes) :
  Forall int_range rest -> trail = [] \/ trail = lit "," ->
  cregex_iterator digit_re (shape_tail rest ++ trail)
  = map (fun d => [digits d]) rest.
Proof.
  intros Hrest Htrail. induction Hrest as [|d rest Hd Hrest IH].
  - destruct Htrail as [-> | ->]; reflexivity.
  - rewrite (cregex_iterator_step _ _ consuming_digit_re).
    unfold shape_tail. cbn [map concat]. fold (shape_tail rest).
    rewrite to_string_nonneg by (unfold int_range in Hd; lia).
    rewrite <- !app_assoc.
    rewrite (regex_search_first digit_re (lit ", ") _ [digits d]
               (shape_tail rest ++ trail)).
    + cbn [map]. now rewrite IH.
    + cbn [lit list_ascii_of_string nowhere app].
      repeat split; now apply digit_re_not_digit.
    + apply digit_re_digits; [unfold int_range in Hd; lia|].
      apply shape_tail_head. destruct Htrail as [-> | ->]; [exact I | reflexivity].
Qed.

Lemma shape_text_unfold (s0 : Z) (rest : list Z) :
  0 <= s0 ->
  exists trail, (trail = [] \/ trail = lit ",")
                /\ shape_text s0 rest = digits s0 ++ shape_tail rest ++ trail.
Proof.
  intros H. unfold shape_text. rewrite to_string_nonneg by exact H.
  destruct (length (s0 :: rest) =? 1)%nat.
  - exists (lit ","). split; [now right | reflexivity].
  - exists []. split; [now left | reflexivity].
Qed.

Lemma cregex_iterator_shape (s0 : Z) (rest : list Z) :
  Forall int_range (s0 :: rest) ->
  cregex_iterator digit_re (sh ++ shape_text s0 rest)
  = map (fun d => [digits d]) (s0 :: rest).
Proof.
  intros Hall. inversion Hall as [|? ? H0 Hrest]; subst.
  destruct (shape_text_unfold s0 rest ltac:(unfold int_range in H0; lia))
    as (trail & Htrail & ->).
  rewrite (cregex_iterator_step _ _ consuming_digit_re).
  rewrite (regex_search_first digit_re sh _ [digits s0] (shape_tail rest ++ trail)).
  - cbn [map]. now rewrite (cregex_iterator_shape_tail _ _ Hrest Htrail).
  - unfold sh. cbn [lit list_ascii_of_string nowhere app].
    repeat split; now apply digit_re_not_digit.
  - apply digit_re_digits; [unfold int_range in H0; lia|].
    apply shape_tail_head. destruct Htrail as [-> | ->]; [exact I | reflexivity].
Qed.

Lemma mapM_stoi_digits (l : list Z) :
  Forall int_range l ->
  mapM (fun m => stoi_size (sub_match m 0)) (map (fun d => [digits d]) l) = Ok l.
Proof.
  induction 1 as [|d l Hd Hl IH]; [reflexivity|].
  cbn [map mapM sub_match nth]. rewrite (stoi_size_digits d Hd). cbn [bind].
  now rewrite IH.
Qed.

Lemma forallb_shape_tail (rest : list Z) :
  Forall int_range rest -> forallb shape_char (shape_tail rest) = true.
Proof.
  induction 1 as [|d rest Hd Hrest IH]; [reflexivity|].
  unfold shape_tail. cbn [map concat]. fold (shape_tail rest).
  rewrite to_string_nonneg by (unfold int_range in Hd; lia).
  rewrite !forallb_app, IH, andb_true_r.
  apply andb_true_intro. split; [reflexivity|].
  destruct (digits_spec d ltac:(unfold int_range in Hd; lia)) as [_ Hdig _].
  apply forallb_forall. intros c Hc. unfold shape_char.
  now rewrite (forallb_In _ _ _ Hdig Hc).
Qed.

Lemma forallb_shape_text (s0 : Z) (rest : list Z) :
  Forall int_range (s0 :: rest) -> forallb shape_char (shape_text s0 rest) = true.
Proof.
  intros Hall. inversion Hall as [|? ? H0 Hrest]; subst.
  destruct (shape_text_unfold s0 rest ltac:(unfold int_range in H0; lia))
    as (trail & Htrail & ->).
  rewrite !forallb_app, (forallb_shape_tail _ Hrest).
  destruct (digits_spec s0 ltac:(unfold int_range in H0; lia)) as [_ Hdig _].
  apply andb_true_intro. split.
  - apply forallb_forall. intros c Hc. unfold shape_char.
    now rewrite (forallb_In _ _ _ Hdig Hc).
  - destruct Htrail as [-> | ->]; reflexivity.
Qed.

Lemma slice_middle (a b c : bytes) :
  slice (a ++ b ++ c) (length a) (length a + length b) = b.
Proof.
  unfold slice.
  replace (length a + length b - length a)%nat with (length b) by lia.
  replace (skipn (length a) (a ++ b ++ c)) with (b ++ c).
  - rewrite firstn_app, firstn_all, Nat.sub_diag. cbn [firstn]. apply app_nil_r.
  - rewrite skipn_app, skipn_all, Nat.sub_diag. reflexivity.
Qed.

Lemma parse_shape_generated (head : bytes) (s0 : Z) (rest : list Z) (X : bytes) :
  nowhere (no_occurrence sh) head (sh ++ shape_text s0 rest ++ lit ")" ++ X) ->
  Forall int_range (s0 :: rest) ->
  parse_shape (head ++ sh ++ shape_text s0 rest ++ lit ")" ++ X) = Ok (s0 :: rest).
Proof.
  intros Hhead Hall. unfold parse_shape.
  rewrite (find_nowhere _ _ _ Hhead) by apply is_prefix_app.
  replace (head ++ sh ++ shape_text s0 rest ++ lit ")" ++ X)
    with (head ++ (sh ++ shape_text s0 rest) ++ lit ")" ++ X)
    by now rewrite <- app_assoc.
  rewrite find_from_nowhere; [|apply nowhere_app|reflexivity].
  - rewrite slice_middle, (cregex_iterator_shape _ _ Hall).
    now apply mapM_stoi_digits.
  - unfold sh. cbn [lit list_ascii_of_string nowhere app].
    repeat split; reflexivity.
  - apply (nowhere_class shape_char); [now apply forallb_shape_text | reflexivity].
Qed.

(** ** The descriptor of a generated dictionary *)

Lemma find_desc_generated (R : bytes) : find desc (lit "{" ++ desc ++ R) = Some 1%nat.
Proof.
  apply (find_nowhere desc (lit "{")); [|apply is_prefix_app].
  cbn. split; [reflexivity | exact I].
Qed.

Lemma simple_descr_regex_generated (e c : ascii) (w : Z) (R : bytes) :
  is_endian e = true -> is_code c = true -> 0 <= w ->
  simple_descr_regex ([quote] ++ [e] ++ [c] ++ digits w ++ [quote] ++ R)
  = Some ([[quote] ++ [e] ++ [c] ++ digits w ++ [quote]; [e]; [c]; digits w], R).
Proof.
  intros He Hc Hw. unfold simple_descr_regex.
  rewrite expect_app. cbn [app one]. rewrite He. cbn [one]. rewrite Hc.
  destruct (digits_spec w Hw) as [Hne Hdig _].
  rewrite (many1_app is_digit (digits w) (quote :: R) Hne Hdig) by reflexivity.
  change (quote :: R) with ([quote] ++ R). now rewrite expect_app.
Qed.

Lemma parse_descr_plain_generated (e c : ascii) (w : Z) (R : bytes) :
  is_endian e = true -> e <> ">"%char -> is_code c = true -> int_range w ->
  parse_descr (lit "{" ++ desc ++ [quote] ++ [e] ++ [c] ++ digits w ++ [quote] ++ R)
  = Ok ([w], [c], []).
Proof.
  intros He Hbig Hc Hw. unfold parse_descr.
  rewrite find_desc_generated.
  replace (nth_error _ (1 + length desc)) with (Some quote) by reflexivity.
  rewrite Ascii.eqb_refl.
  replace (skipn 1 (lit "{" ++ desc ++ [quote] ++ [e] ++ [c] ++ digits w ++ [quote] ++ R))
    with (desc ++ [quote] ++ [e] ++ [c] ++ digits w ++ [quote] ++ R) by reflexivity.
  erewrite regex_search_first;
    [| | apply simple_descr_regex_generated; unfold int_range in Hw; auto; lia].
  - cbn [sub_match nth].
    replace (bytes_eqb [e] (lit ">")) with false.
    + rewrite (stoi_size_digits w Hw). reflexivity.
    + cbn. destruct (Ascii.eqb e ">") eqn:E; [|reflexivity].
      apply Ascii.eqb_eq in E. contradiction.
  - unfold desc. cbn [lit list_ascii_of_string nowhere app].
    repeat split; reflexivity.
Qed.

Lemma dtype_tuple_regex_generated (f : bytes * ascii * Z) (R : bytes) :
  field_ok f ->
  dtype_tuple_regex (descr_tuple LittleEndian true f ++ R)
  = Some (tuple_matches LittleEndian f, R).
Proof.
  destruct f as [[l c] w]. intros ([Hne Hl] & Hc & Hw).
  unfold descr_tuple, tuple_matches, dtype_tuple_regex.
  rewrite to_string_nonneg by lia.
  rewrite <- !app_assoc, expect_app.
  rewrite (many1_app is_word l _ Hne Hl) by reflexivity.
  rewrite expect_app. cbn [app one].
  replace (is_endian (BigEndianTest LittleEndian)) with true by reflexivity.
  cbn [one]. rewrite (type_code_is_code c Hc).
  destruct (digits_spec w ltac:(lia)) as [Hdne Hdig _].
  rewrite (many1_app is_digit (digits w) _ Hdne Hdig) by reflexivity.
  now rewrite expect_app.
Qed.

Lemma descr_tuple_sep (host : byte_order) (f : bytes * ascii * Z) :
  descr_tuple host false f = descr_tuple host true f ++ lit ", ".
Proof.
  destruct f as [[l c] w]. unfold descr_tuple.
  rewrite <- !app_assoc. reflexivity.
Qed.

Lemma cregex_iterator_tuples (fs : list (bytes * ascii * Z)) :
  forall f pre comma,
    Forall field_ok (f :: fs) ->
    pre = lit "[" \/ pre = lit ", " -> comma = [] \/ comma = lit "," ->
    cregex_iterator dtype_tuple_regex
      (pre ++ descr_tuples LittleEndian (f :: fs) ++ comma)
    = map (tuple_matches LittleEndian) (f :: fs).
Proof.
  induction fs as [|g fs IH]; intros f pre comma Hall Hpre Hcomma;
    inversion Hall as [|? ? Hf Hfs]; subst;
    rewrite (cregex_iterator_step _ _ consuming_dtype_tuple_regex).
  - cbn [descr_tuples].
    rewrite (regex_search_first dtype_tuple_regex pre _
               (tuple_matches LittleEndian f) comma).
    + cbn [map]. f_equal. destruct Hcomma as [-> | ->]; reflexivity.
    + destruct Hpre as [-> | ->]; cbn; repeat split; reflexivity.
    + now apply dtype_tuple_regex_generated.
  - cbn [descr_tuples]. rewrite descr_tuple_sep, <- !app_assoc.
    rewrite (regex_search_first dtype_tuple_regex pre _
               (tuple_matches LittleEndian f)
               (lit ", " ++ descr_tuples LittleEndian (g :: fs) ++ comma)).
    + cbn [map]. f_equal. apply IH; auto.
    + destruct Hpre as [-> | ->]; cbn; repeat split; reflexivity.
    + now apply dtype_tuple_regex_generated.
Qed.

Lemma parse_tuple_generated (f : bytes * ascii * Z) :
  field_ok f -> parse_tuple (tuple_matches LittleEndian f) = Ok f.
Proof.
  destruct f as [[l c] w]. intros (_ & _ & Hw).
  unfold parse_tuple, tuple_matches. cbn [sub_match nth].
  replace (bytes_eqb [BigEndianTest LittleEndian] (lit ">")) with false
    by reflexivity.
  now rewrite (stoi_size_digits w Hw).
Qed.

Lemma mapM_parse_tuple (fs : list (bytes * ascii * Z)) :
  Forall field_ok fs ->
  mapM parse_tuple (map (tuple_matches LittleEndian) fs) = Ok fs.
Proof.
  induction 1 as [|f fs Hf Hfs IH]; [reflexivity|].
  cbn [map mapM]. rewrite (parse_tuple_generated f Hf). cbn [bind].
  now rewrite IH.
Qed.

Lemma forallb_not_bracket_tuple (host : byte_order) (last : bool)
    (f : bytes * ascii * Z) :
  field_ok f -> forallb not_bracket (descr_tuple host last f) = true.
Proof.
  destruct f as [[l c] w]. intros ([Hne Hl] & Hc & Hw). unfold descr_tuple.
  rewrite to_string_nonneg by lia.
  destruct (digits_spec w ltac:(lia)) as [_ Hdig _].
  rewrite !forallb_app.
  assert (H1 : forallb not_bracket l = true).
  { apply forallb_forall. intros d Hd. unfold not_bracket.
    apply negb_true_iff, Ascii.eqb_neq.
    apply (class_neq is_word); [now apply (forallb_In is_word l) | reflexivity]. }
  assert (H2 : forallb not_bracket (digits w) = true).
  { apply forallb_forall. intros d Hd. unfold not_bracket.
    apply negb_true_iff, Ascii.eqb_neq.
    apply (class_neq is_digit); [now apply (forallb_In is_digit (digits w)) | reflexivity]. }
  assert (H3 : not_bracket c = true).
  { unfold not_bracket. apply negb_true_iff, Ascii.eqb_neq.
    apply lower_case_neq; [now apply type_code_lower|]. vm_compute. now left. }
  rewrite H1, H2. cbn [forallb]. rewrite H3.
  destruct host, last; reflexivity.
Qed.

Lemma forallb_not_bracket_tuples (host : byte_order) (fs : list (bytes * ascii * Z)) :
  Forall field_ok fs -> forallb not_bracket (descr_tuples host fs) = true.
Proof.
  induction 1 as [|f fs Hf Hfs IH]; [reflexivity|].
  cbn [descr_tuples]. destruct fs as [|g fs].
  - now apply forallb_not_bracket_tuple.
  - rewrite forallb_app, IH, andb_true_r. now apply forallb_not_bracket_tuple.
Qed.

Lemma parse_descr_struct_generated (f : bytes * ascii * Z)
    (fs : list (bytes * ascii * Z)) (comma R : bytes) :
  Forall field_ok (f :: fs) -> comma = [] \/ comma = lit "," ->
  parse_descr (lit "{" ++ desc ++ lit "[" ++ descr_tuples LittleEndian (f :: fs)
                 ++ comma ++ lit "]" ++ R)
  = Ok (map snd (f :: fs), map (fun g => snd (fst g)) (f :: fs),
        map (fun g => fst (fst g)) (f :: fs)).
Proof.
  intros Hall Hcomma. unfold parse_descr.
  rewrite find_desc_generated.
  replace (nth_error _ (1 + length desc)) with (Some "["%char) by reflexivity.
  replace (Ascii.eqb "[" quote) with false by reflexivity.
  rewrite Ascii.eqb_refl.
  replace (lit "{" ++ desc ++ lit "[" ++ descr_tuples LittleEndian (f :: fs)
             ++ comma ++ lit "]" ++ R)
    with ((lit "{" ++ desc)
            ++ (lit "[" ++ descr_tuples LittleEndian (f :: fs) ++ comma)
            ++ lit "]" ++ R)
    by now rewrite <- !app_assoc.
  replace (1 + length desc)%nat with (length (lit "{" ++ desc)) by reflexivity.
  rewrite find_from_nowhere; [| |reflexivity].
  - rewrite slice_middle.
    rewrite (cregex_iterator_tuples fs f (lit "[") comma Hall) by auto.
    now rewrite (mapM_parse_tuple _ Hall).
  - apply (nowhere_class not_bracket); [|reflexivity].
    rewrite !forallb_app, (forallb_not_bracket_tuples _ _ Hall).
    destruct Hcomma as [-> | ->]; reflexivity.
Qed.

(** ** Parsing a generated dictionary *)

Ltac key_step :=
  first [ exact I
        | apply key_other; discriminate
        | apply key_quote; discriminate
        | apply key_other; assumption
        | apply key_quote; assumption ].

Lemma dict_head_plain (host : byte_order) (dtype : ascii) (wordsize : Z) :
  type_code dtype -> 0 <= wordsize -> dict_head (plain_head host dtype wordsize).
Proof.
  intros Hc Hw. constructor; [eexists; reflexivity|].
  intros x a r rest Hx Ha Hxd. unfold plain_head.
  assert (Hcq : dtype <> quote).
  { apply lower_case_neq; [now apply type_code_lower|]. vm_compute. now left. }
  assert (Hxq : forall y, ord y < 97 \/ 122 < ord y -> y <> x).
  { intros y Hy E. subst y. unfold lower_case in Hx. lia. }
  assert (He : BigEndianTest host <> x /\ BigEndianTest host <> quote).
  { split; [apply Hxq|]; destruct host; vm_compute; (now left) || discriminate. }
  destruct He as [He1 He2].
  assert (H1 : ":"%char <> x) by (apply Hxq; vm_compute; now left).
  assert (H2 : ","%char <> x) by (apply Hxq; vm_compute; now left).
  assert (H3 : "d"%char <> x) by congruence.
  cbn [lit list_ascii_of_string app nowhere].
  repeat (split; [key_step|]).
  apply nowhere_app; [now apply key_digits|].
  cbn [nowhere app]. repeat (split; [key_step|]). exact I.
Qed.

Lemma dict_head_struct (host : byte_order) (fs : list (bytes * ascii * Z)) :
  Forall field_ok fs -> dict_head (struct_head host fs).
Proof.
  intros Hfs. constructor; [eexists; reflexivity|].
  intros x a r rest Hx Ha Hxd. unfold struct_head.
  assert (Hxq : forall y, ord y < 97 \/ 122 < ord y -> y <> x).
  { intros y Hy E. subst y. unfold lower_case in Hx. lia. }
  assert (H1 : ":"%char <> x) by (apply Hxq; vm_compute; now left).
  assert (H3 : "d"%char <> x) by congruence.
  cbn [lit list_ascii_of_string app nowhere].
  repeat (split; [key_step|]).
  apply nowhere_app; [now apply key_tuples|].
  destruct (length fs =? 1)%nat;
    cbn [lit list_ascii_of_string nowhere app];
    repeat (split; [key_step|]); exact I.
Qed.

Lemma key_fortran_part (x : ascii) (a r : bytes) (memory_order : MemoryOrder)
    (rest : bytes) :
  lower_case x -> x <> "f"%char ->
  nowhere (no_occurrence (key x a r))
    (lit "'fortran_order': " ++ fortran_text memory_order ++ lit ", ") rest.
Proof.
  intros Hx Hxf.
  assert (Hxq : forall y, ord y < 97 \/ 122 < ord y -> y <> x).
  { intros y Hy E. subst y. unfold lower_case in Hx. lia. }
  assert (H1 : ":"%char <> x) by (apply Hxq; vm_compute; now left).
  assert (H3 : "f"%char <> x) by congruence.
  destruct memory_order; cbn [lit list_ascii_of_string app nowhere fortran_text];
    repeat (split; [key_step|]); exact I.
Qed.

Lemma last_padding_tail (head : bytes) (memory_order : MemoryOrder) (s0 : Z)
    (rest : list Z) (k : nat) :
  List.last (head ++ dict_tail memory_order s0 rest k) zero = newline.
Proof.
  unfold dict_tail. rewrite !app_assoc. apply last_padding.
Qed.

Lemma parse_npy_dict_generated (head : bytes) (memory_order : MemoryOrder)
    (s0 : Z) (rest : list Z) (k : nat) (ws : list Z) (dt : list ascii)
    (ls : list bytes) :
  dict_head head -> Forall int_range (s0 :: rest) ->
  parse_descr (head ++ dict_tail memory_order s0 rest k) = Ok (ws, dt, ls) ->
  parse_npy_dict (head ++ dict_tail memory_order s0 rest k)
  = Ok {| hdr_word_sizes := ws; hdr_data_types := dt; hdr_labels := ls;
          hdr_shape := s0 :: rest; hdr_memory_order := memory_order |}.
Proof.
  intros [[t Hfront] Hkeys] Hshape Hdescr.
  assert (Hfo : parse_fortran_order (head ++ dict_tail memory_order s0 rest k)
                = Ok memory_order).
  { unfold dict_tail. apply parse_fortran_order_generated.
    apply (Hkeys "f"%char (lit "ortran_order") (lit " "));
      [vm_compute; split; discriminate | reflexivity | discriminate]. }
  assert (Hsh : parse_shape (head ++ dict_tail memory_order s0 rest k)
                = Ok (s0 :: rest)).
  { unfold dict_tail.
    replace (head ++ lit "'fortran_order': " ++ fortran_text memory_order
               ++ lit ", " ++ sh ++ shape_text s0 rest ++ lit "), }" ++ padding k)
      with ((head ++ lit "'fortran_order': " ++ fortran_text memory_order ++ lit ", ")
              ++ sh ++ shape_text s0 rest ++ lit ")" ++ lit ", }" ++ padding k)
      by (rewrite <- !app_assoc; reflexivity).
    apply parse_shape_generated; [|exact Hshape].
    apply nowhere_app.
    - apply (Hkeys "s"%char (lit "hape") (lit " ("));
        [vm_compute; split; discriminate | reflexivity | discriminate].
    - apply (key_fortran_part "s"%char (lit "hape") (lit " ("));
        [vm_compute; split; discriminate | discriminate]. }
  unfold parse_npy_dict.
  rewrite Hfo, Hsh, Hdescr, last_padding_tail. cbn [bind].
  subst head. reflexivity.
Qed.

(** ** Reading a generated header from a stream *)

Lemma plain_dict_text (host : byte_order) (s0 : Z) (rest : list Z)
    (dtype : ascii) (wordsize : Z) (memory_order : MemoryOrder) :
  0 <= wordsize ->
  exists k,
    create_npy_header host (s0 :: rest) dtype wordsize memory_order
    = Ok (preamble (plain_head host dtype wordsize
                      ++ dict_tail memory_order s0 rest k)
            ++ plain_head host dtype wordsize
            ++ dict_tail memory_order s0 rest k).
Proof.
  intros Hw. eexists. unfold create_npy_header, finish_header.
  rewrite pad_dict_padding. rewrite to_string_nonneg by exact Hw.
  unfold plain_head, dict_tail, sh.
  match goal with
  | |- Ok (preamble ?a ++ ?a) = Ok (preamble ?b ++ ?b) =>
      replace a with b; [reflexivity|]
  end.
  rewrite <- !app_assoc. reflexivity.
Qed.

Lemma struct_dict_text (host : byte_order) (s0 : Z) (rest : list Z)
    (labels : list bytes) (dtypes : list ascii) (sizes : list Z)
    (memory_order : MemoryOrder) :
  length labels = length dtypes -> length dtypes = length sizes ->
  exists k,
    create_npy_header_struct host (s0 :: rest) labels dtypes sizes memory_order
    = Ok (preamble (struct_head host (zip3 labels dtypes sizes)
                      ++ dict_tail memory_order s0 rest k)
            ++ struct_head host (zip3 labels dtypes sizes)
            ++ dict_tail memory_order s0 rest k).
Proof.
  intros H1 H2. eexists. unfold create_npy_header_struct, finish_header.
  rewrite H1, H2, !Nat.eqb_refl. cbn [negb orb].
  rewrite pad_dict_padding.
  unfold struct_head, dict_tail, sh.
  assert (Hlen : length (zip3 labels dtypes sizes) = length sizes).
  { clear - H1 H2. revert dtypes sizes H1 H2.
    induction labels as [|l labels IH]; intros [|d dtypes] [|s sizes] H1 H2;
      try discriminate; [reflexivity|].
    cbn [zip3 length]. f_equal. apply IH; now injection H1; injection H2. }
  rewrite Hlen.
  match goal with
  | |- Ok (preamble ?a ++ ?a) = Ok (preamble ?b ++ ?b) =>
      replace a with b; [reflexivity|]
  end.
  rewrite <- !app_assoc. reflexivity.
Qed.

Lemma preamble_fields (dict : bytes) :
  is_prefix npy_magic_string (preamble dict) = true
  /\ ord (nth 6 (preamble dict) zero) = 1
  /\ ord (nth 7 (preamble dict) zero) = 0
  /\ load_le16 (nth 8 (preamble dict) zero) (nth 9 (preamble dict) zero)
     = Z.of_nat (length dict) mod 65536.
Proof.
  split; [reflexivity|]. split; [reflexivity|]. split; [reflexivity|].
  unfold preamble. cbn [le_bytes lit list_ascii_of_string app nth].
  set (v := Z.of_nat (length dict) mod 65536).
  assert (0 <= v < 65536) by (apply Z.mod_pos_bound; lia).
  unfold load_le16.
  rewrite !ord_chr by (apply Z.mod_pos_bound; lia).
  pose proof (Z.div_mod v 256 ltac:(lia)).
  rewrite (Z.mod_small (v / 256)); [lia|].
  split; [apply Z.div_pos; lia | apply Z.div_lt_upper_bound; lia].
Qed.

Lemma firstn_exact {A : Type} (a b : list A) : firstn (length a) (a ++ b) = a.
Proof.
  rewrite firstn_app, firstn_all, Nat.sub_diag. cbn [firstn]. apply app_nil_r.
Qed.

Lemma skipn_exact {A : Type} (a b : list A) : skipn (length a) (a ++ b) = b.
Proof.
  rewrite skipn_app, skipn_all, Nat.sub_diag. reflexivity.
Qed.

Lemma stream_read_exact (a b c : bytes) :
  stream_read (length b) {| content := a ++ b ++ c; pos := length a; good := true |}
  = (b, {| content := a ++ b ++ c; pos := (length a + length b)%nat; good := true |}).
Proof.
  unfold stream_read. cbn [good pos content].
  rewrite skipn_exact, firstn_exact, Nat.eqb_refl. reflexivity.
Qed.

Lemma parse_npy_header_generated (dict payload : bytes) (h : parsed_header) :
  Z.of_nat (length dict) < 65536 ->
  parse_npy_dict dict = Ok h ->
  parse_npy_header (open_existing ((preamble dict ++ dict) ++ payload))
  = Ok (h, {| content := (preamble dict ++ dict) ++ payload;
              pos := length (preamble dict ++ dict); good := true |}).
Proof.
  intros Hlen Hparse.
  destruct (preamble_fields dict) as (Hmagic & Hmajor & Hminor & Hfield).
  rewrite Z.mod_small in Hfield by lia.
  unfold parse_npy_header.
  assert (H1 : stream_read 10 (open_existing ((preamble dict ++ dict) ++ payload))
               = (preamble dict,
                  {| content := (preamble dict ++ dict) ++ payload;
                     pos := 10; good := true |})).
  { rewrite <- app_assoc.
    exact (stream_read_exact [] (preamble dict) (dict ++ payload)). }
  rewrite H1, length_preamble.
  change (10 <? 10)%nat with false. cbn iota.
  rewrite Hmagic, Hmajor, Hminor, Hfield. cbn [negb orb Z.eqb Pos.eqb].
  rewrite Nat2Z.id.
  assert (H2 : stream_read (length dict)
                 {| content := (preamble dict ++ dict) ++ payload;
                    pos := 10; good := true |}
               = (dict, {| content := (preamble dict ++ dict) ++ payload;
                           pos := length (preamble dict ++ dict);
                           good := true |})).
  { rewrite <- app_assoc, length_app.
    exact (stream_read_exact (preamble dict) dict payload). }
  rewrite H2. unfold zero_filled. rewrite Nat.sub_diag. cbn [repeat].
  rewrite app_nil_r, Hparse. reflexivity.
Qed.

(** ** Element counts *)

Lemma fold_multiplies (l : list Z) (acc : Z) :
  fold_left (fun a x => (a * x) mod SIZE_MOD) l (acc mod SIZE_MOD)
  = (acc * product l) mod SIZE_MOD.
Proof.
  revert acc. induction l as [|x l IH]; intros acc; cbn [fold_left product fold_right].
  - now rewrite Z.mul_1_r.
  - fold (product l). rewrite Z.mul_mod_idemp_l by (unfold SIZE_MOD; lia).
    rewrite IH. f_equal. ring.
Qed.

Lemma accumulate_multiplies_product (l : list Z) :
  accumulate_multiplies l = product l mod SIZE_MOD.
Proof.
  unfold accumulate_multiplies.
  change 1 with (1 mod SIZE_MOD) at 1. rewrite fold_multiplies. f_equal. ring.
Qed.

Lemma fold_plus (l : list Z) (acc : Z) :
  fold_left (fun a x => (a + x) mod SIZE_MOD) l (acc mod SIZE_MOD)
  = (acc + sum_of l) mod SIZE_MOD.
Proof.
  revert acc. induction l as [|x l IH]; intros acc; cbn [fold_left sum_of fold_right].
  - now rewrite Z.add_0_r.
  - fold (sum_of l). rewrite Z.add_mod_idemp_l by (unfold SIZE_MOD; lia).
    rewrite IH. f_equal. ring.
Qed.

Lemma accumulate_plus_sum (l : list Z) :
  accumulate_plus l = sum_of l mod SIZE_MOD.
Proof.
  unfold accumulate_plus.
  change 0 with (0 mod SIZE_MOD) at 1. rewrite fold_plus. f_equal.
Qed.

Lemma sum_sizes_sum (Tup : tuple_type) :
  sum_sizes Tup = sum_of (element_sizes Tup) mod SIZE_MOD.
Proof. apply accumulate_plus_sum. Qed.

Lemma int_of_size_t_range (z : Z) : - 2 ^ 31 <= int_of_size_t z < 2 ^ 31.
Proof.
  unfold int_of_size_t.
  pose proof (Z.mod_pos_bound (z + 2 ^ 31) (2 ^ 32) ltac:(lia)). lia.
Qed.

Lemma int_of_size_t_mod (z : Z) : int_of_size_t z mod 2 ^ 32 = z mod 2 ^ 32.
Proof.
  unfold int_of_size_t.
  rewrite Zminus_mod_idemp_l. f_equal. ring.
Qed.

Lemma mod64_mod32 (z : Z) : (z mod SIZE_MOD) mod 2 ^ 32 = z mod 2 ^ 32.
Proof.
  apply Z.mod_mod_divide. exists (2 ^ 32). reflexivity.
Qed.

Lemma fold_multiplies_int (l : list Z) :
  forall acc p,
    - 2 ^ 31 <= acc < 2 ^ 31 -> acc mod 2 ^ 32 = p mod 2 ^ 32 ->
    let r := fold_left (fun acc x => int_of_size_t
                          ((size_t_of_int acc * x) mod SIZE_MOD)) l acc in
    - 2 ^ 31 <= r < 2 ^ 31 /\ r mod 2 ^ 32 = (p * product l) mod 2 ^ 32.
Proof.
  induction l as [|x l IH]; intros acc p Hacc Hp; cbn [fold_left product fold_right].
  - rewrite Z.mul_1_r. auto.
  - fold (product l).
    replace (p * (x * product l)) with ((p * x) * product l) by ring.
    apply IH; [apply int_of_size_t_range|].
    rewrite int_of_size_t_mod, mod64_mod32. unfold size_t_of_int.
    rewrite <- Z.mul_mod_idemp_l, mod64_mod32, Hp by lia.
    now rewrite Z.mul_mod_idemp_l by lia.
Qed.

Lemma accumulate_multiplies_int_product (l : list Z) :
  0 <= product l < 2 ^ 31 -> accumulate_multiplies_int l = product l.
Proof.
  intros Hp. unfold accumulate_multiplies_int.
  destruct (fold_multiplies_int l 1 1 ltac:(lia) eq_refl) as [Hr Hm].
  cbv zeta in Hr, Hm. rewrite Z.mul_1_l in Hm.
  set (r := fold_left _ l 1) in *.
  assert (r = product l).
  { rewrite (Z.mod_small (product l)) in Hm by lia.
    destruct (Z_lt_le_dec r 0) as [Hneg|Hpos].
    - replace (r mod 2 ^ 32) with (r + 2 ^ 32) in Hm; [lia|].
      apply (Zmod_unique _ _ (-1)); lia.
    - rewrite Z.mod_small in Hm by lia. exact Hm. }
  unfold size_t_of_int, SIZE_MOD. rewrite Z.mod_small; lia.
Qed.

Lemma product_nonneg (l : list Z) : Forall int_range l -> 0 <= product l.
Proof.
  induction 1 as [|x l Hx Hl IH]; cbn; [lia|].
  fold (product l). unfold int_range in Hx. nia.
Qed.

(** ** Writing the payload at the end of the file *)

Lemma stream_write_at_end (data : bytes) (fs : fstream) :
  at_end fs ->
  stream_write data fs
  = {| content := content fs ++ data; pos := length (content fs ++ data);
       good := true |}.
Proof.
  intros [Hgood Hpos]. unfold stream_write. rewrite Hgood, Hpos.
  rewrite firstn_all, skipn_all2 by lia. now rewrite app_nil_r, length_app.
Qed.

Lemma at_end_written (c : bytes) :
  at_end {| content := c; pos := length c; good := true |}.
Proof. split; reflexivity. Qed.

Lemma at_end_eta (fs : fstream) :
  at_end fs ->
  fs = {| content := content fs ++ []; pos := length (content fs ++ []);
          good := true |}.
Proof.
  intros [Hgood Hpos]. destruct fs as [c p g]. cbn in *. subst.
  now rewrite app_nil_r.
Qed.

Lemma length_concat_sized (size : Z) (l : list bytes) :
  Forall (fun e => Z.of_nat (length e) = size) l ->
  Z.of_nat (length (concat l)) = Z.of_nat (length l) * size.
Proof.
  induction 1 as [|e l He Hl IH]; [reflexivity|].
  cbn [concat length]. rewrite length_app. lia.
Qed.

Lemma write_data_all (size : Z) (start : list bytes) (nels : Z) (fs : fstream) :
  Forall (fun e => Z.of_nat (length e) = size) start ->
  Z.of_nat (length start) = nels -> nels * size < SIZE_MOD ->
  write_data size start nels fs = Ok (stream_write (concat start) fs).
Proof.
  intros Hsized Hlen Hbound. unfold write_data.
  pose proof (length_concat_sized _ _ Hsized) as Hc. rewrite Hlen in Hc.
  rewrite Z.mod_small by lia.
  destruct (Z.of_nat (length (concat start)) <? nels * size) eqn:E;
    [apply Z.ltb_lt in E; lia|].
  rewrite <- Hc, Nat2Z.id, firstn_all. reflexivity.
Qed.

Lemma firstn_split {A : Type} (n m : nat) (l : list A) :
  firstn (n + m) l = firstn n l ++ firstn m (skipn n l).
Proof.
  revert l. induction n as [|n IH]; intros l; [reflexivity|].
  destruct l as [|x l]; cbn [Nat.add firstn skipn app].
  - now rewrite firstn_nil.
  - now rewrite IH.
Qed.

Lemma write_data_loop_all (size : Z) (buffer_size : nat) (fuel : nat) :
  forall (it : list bytes) todo fs,
    at_end fs -> (todo <= fuel)%nat -> (todo <= length it)%nat ->
    (0 < todo -> 0 < buffer_size)%nat ->
    Forall (fun e => Z.of_nat (length e) = size) it ->
    0 <= size -> Z.of_nat todo * size < SIZE_MOD ->
    write_data_loop fuel size buffer_size it todo fs
    = Ok {| content := content fs ++ concat (firstn todo it);
            pos := length (content fs ++ concat (firstn todo it));
            good := true |}.
Proof.
  induction fuel as [|fuel IH]; intros it todo fs Hend Hfuel Hit Hbs Hsized Hsz Hbound.
  - assert (todo = 0%nat) as -> by lia. cbn. f_equal. now apply at_end_eta.
  - cbn [write_data_loop]. destruct (todo =? 0)%nat eqn:E.
    + apply Nat.eqb_eq in E. subst todo. cbn. f_equal. now apply at_end_eta.
    + apply Nat.eqb_neq in E.
      set (count := Nat.min buffer_size todo).
      assert (Hcount : (0 < count <= todo)%nat) by (unfold count; lia).
      destruct (length it <? count)%nat eqn:E2; [apply Nat.ltb_lt in E2; lia|].
      rewrite write_data_all.
      * cbn [bind]. rewrite stream_write_at_end by exact Hend.
        rewrite IH.
        -- cbn [content].
           assert (Hsplit : firstn todo it
                            = firstn count it ++ firstn (todo - count) (skipn count it)).
           { rewrite <- firstn_split. f_equal. lia. }
           now rewrite Hsplit, concat_app, <- app_assoc.
        -- apply at_end_written.
        -- lia.
        -- rewrite length_skipn. lia.
        -- lia.
        -- now apply Forall_drop.
        -- exact Hsz.
        -- nia.
      * now apply Forall_take.
      * rewrite length_firstn. lia.
      * nia.
Qed.

Lemma write_payload (contiguous : bool) (size : Z) (start : list bytes)
    (nels : Z) (fs : fstream) :
  at_end fs -> Forall (fun e => Z.of_nat (length e) = size) start ->
  Z.of_nat (length start) = nels -> 0 <= size -> nels * size < SIZE_MOD ->
  (if contiguous then write_data else write_data_chunked) size start nels fs
  = Ok {| content := content fs ++ concat start;
          pos := length (content fs ++ concat start); good := true |}.
Proof.
  intros Hend Hsized Hlen Hsz Hbound. destruct contiguous.
  - rewrite (write_data_all _ _ _ _ Hsized Hlen Hbound).
    now rewrite stream_write_at_end.
  - unfold write_data_chunked. subst nels. rewrite Nat2Z.id.
    rewrite write_data_loop_all; auto; try lia.
    now rewrite firstn_all.
Qed.

(** ** Saving and loading a plain array *)

Lemma int_of_size_t_small (z : Z) : 0 <= z < 2 ^ 31 -> int_of_size_t z = z.
Proof.
  intros Hz. unfold int_of_size_t. rewrite Z.mod_small; lia.
Qed.

Lemma write_header_truncated (header : bytes) :
  seekp_end (stream_write header (seekp_beg open_truncate))
  = {| content := header; pos := length header; good := true |}.
Proof.
  unfold open_truncate, seekp_beg, stream_write, seekp_end. cbn.
  now rewrite skipn_nil, app_nil_r.
Qed.

Lemma is_open_exists (creatable : string -> bool) (files : gmap string bytes)
    (fname : string) (file : bytes) :
  files !! fname = Some file -> is_open creatable files fname = true.
Proof. intros H. unfold is_open, exists_. now rewrite H. Qed.

Lemma npy_save_write (creatable : string -> bool) (files : gmap string bytes)
    (fname : string) (T : value_type) (contiguous : bool) (start : list bytes)
    (shape : list Z) (memory_order : MemoryOrder) (header : bytes) :
  is_open creatable files fname = true ->
  0 < sizeof T < 2 ^ 31 -> 0 <= product shape < 2 ^ 31 ->
  Z.of_nat (length start) = product shape ->
  Forall (fun e : bytes => Z.of_nat (length e) = sizeof T) start ->
  create_npy_header LittleEndian shape (map_type T) (sizeof T) memory_order
  = Ok header ->
  npy_save creatable LittleEndian files fname T contiguous start shape "w"
    memory_order
  = Ok (<[fname := header ++ concat start]> files).
Proof.
  intros Hopen HT Hprod Hlen Hsized Hheader. unfold npy_save.
  rewrite Hopen. change (String.eqb "w" "a") with false. cbn [bind open_out].
  rewrite (int_of_size_t_small (sizeof T) ltac:(lia)), Hheader. cbn [bind].
  rewrite write_header_truncated.
  rewrite (accumulate_multiplies_int_product _ Hprod).
  rewrite write_payload; [reflexivity | apply at_end_written | exact Hsized
                          | exact Hlen | lia | unfold SIZE_MOD; nia].
Qed.

Lemma MemoryMappedBuffer_window (alignment : Z) (header payload : bytes) :
  0 < alignment -> payload <> [] ->
  Z.of_nat (length header) + Z.of_nat (length payload) < SIZE_MOD ->
  MemoryMappedBuffer alignment (header ++ payload) (Z.of_nat (length header))
    (Z.of_nat (length payload))
  = Ok payload.
Proof.
  intros Hal Hne Hsize. unfold MemoryMappedBuffer.
  set (n := Z.of_nat (length header)).
  set (m := Z.of_nat (length payload)).
  assert (Hm : 0 < m) by (destruct payload; [congruence | unfold m; simpl; lia]).
  pose proof (Z.mod_pos_bound n alignment Hal) as Hoff.
  pose proof (Z.div_mod n alignment ltac:(lia)) as Hdm.
  assert (Hdiv : 0 <= n / alignment) by (apply Z.div_pos; lia).
  assert (Hbase : n / alignment * alignment = n - n mod alignment) by lia.
  rewrite Hbase, Z.mod_small by lia.
  destruct (n mod alignment + m =? 0) eqn:E1; [apply Z.eqb_eq in E1; lia|].
  rewrite length_app.
  destruct (Z.of_nat (length header + length payload)
            <? n - n mod alignment + (n mod alignment + m)) eqn:E2;
    [apply Z.ltb_lt in E2; lia|].
  cbn [orb]. f_equal.
  rewrite firstn_all2 by (rewrite length_skipn, length_app; lia).
  rewrite skipn_skipn.
  replace (Z.to_nat (n mod alignment) + Z.to_nat (n - n mod alignment))%nat
    with (length header) by lia.
  apply skipn_exact.
Qed.

Lemma skipn_repeat_zero (k n : nat) :
  skipn k (repeat zero n) = repeat zero (n - k).
Proof.
  revert n. induction k as [|k IH]; intros [|n]; cbn [skipn Nat.sub repeat];
    try reflexivity.
  apply IH.
Qed.

Lemma read_into_allocated (n : Z) (got : bytes) :
  n < 2 ^ 63 ->
  (let! allocated := InMemoryBuffer n in Ok (read_into got allocated))
  = Ok (zero_filled (Z.to_nat n) got).
Proof.
  intros Hn. unfold InMemoryBuffer.
  destruct (2 ^ 63 <=? n) eqn:E; [apply Z.leb_le in E; lia|].
  cbn [bind]. unfold read_into, zero_filled.
  now rewrite skipn_repeat_zero.
Qed.

Lemma read_into_full (got dest : bytes) :
  length got = length dest -> read_into got dest = got.
Proof.
  intros H. unfold read_into.
  rewrite skipn_all2 by lia. apply app_nil_r.
Qed.

Lemma npy_load_written (alignment : Z) (files : gmap string bytes)
    (fname : string) (memory_mapped : bool) (dict payload : bytes)
    (h : parsed_header) :
  Z.of_nat (length dict) < 65536 ->
  parse_npy_dict dict = Ok h ->
  Z.of_nat (length payload)
  = (accumulate_plus (hdr_word_sizes h) * accumulate_multiplies (hdr_shape h))
      mod SIZE_MOD ->
  Z.of_nat (length payload) < 2 ^ 63 ->
  (memory_mapped = true -> 0 < alignment /\ payload <> []) ->
  npy_load alignment (<[fname := (preamble dict ++ dict) ++ payload]> files)
    fname memory_mapped
  = Ok (make_NpyArray (hdr_shape h) (hdr_word_sizes h) (hdr_labels h)
          (hdr_memory_order h) payload).
Proof.
  intros Hdict Hparse Hlen Hsmall Hmapped. unfold npy_load.
  rewrite lookup_insert_eq.
  rewrite (parse_npy_header_generated _ _ _ Hdict Hparse). cbn [bind].
  rewrite read_into_allocated by (rewrite <- Hlen; exact Hsmall).
  rewrite <- Hlen, Nat2Z.id.
  destruct memory_mapped; cbn [negb].
  - unfold tellg. cbn [good pos].
    rewrite MemoryMappedBuffer_window; [reflexivity | | |]; try apply Hmapped; auto.
    rewrite length_app, length_preamble. unfold SIZE_MOD in *. lia.
  - unfold stream_read. cbn [good pos content fst].
    rewrite skipn_exact, firstn_all. unfold zero_filled.
    rewrite Nat.sub_diag. cbn [repeat]. now rewrite app_nil_r.
Qed.

(** ** Packing tuples *)

Lemma overwrite_length (p : nat) (e buf : bytes) :
  (p + length e <= length buf)%nat -> length (overwrite p e buf) = length buf.
Proof.
  intros H. unfold overwrite.
  rewrite !length_app, length_firstn, length_skipn. lia.
Qed.

Lemma overwrite_firstn (p : nat) (e buf : bytes) :
  (p + length e <= length buf)%nat ->
  firstn (p + length e) (overwrite p e buf) = firstn p buf ++ e.
Proof.
  intros H. unfold overwrite. rewrite app_assoc.
  replace (p + length e)%nat with (length (firstn p buf ++ e)) at 1
    by (rewrite length_app, length_firstn; lia).
  apply firstn_exact.
Qed.

Lemma overwrite_skipn (p : nat) (e buf : bytes) (q : nat) :
  (p + length e <= length buf)%nat -> (p + length e <= q)%nat ->
  skipn q (overwrite p e buf) = skipn q buf.
Proof.
  intros H Hq. unfold overwrite. rewrite app_assoc, skipn_app.
  rewrite skipn_all2 by (rewrite length_app, length_firstn; lia).
  rewrite length_app, length_firstn, skipn_skipn. cbn [app]. f_equal. lia.
Qed.

Lemma overwrite_firstn_before (p : nat) (e buf : bytes) (q : nat) :
  (q <= p)%nat -> (p <= length buf)%nat ->
  firstn q (overwrite p e buf) = firstn q buf.
Proof.
  intros Hq Hp. unfold overwrite. rewrite firstn_app, length_firstn.
  replace (q - Nat.min p (length buf))%nat with 0%nat by lia.
  cbn [firstn]. rewrite app_nil_r, firstn_firstn. f_equal. lia.
Qed.

Lemma write_at_overwrite (p : nat) (e buf : bytes) :
  (p + length e <= length buf)%nat -> write_at p e buf = Ok (overwrite p e buf).
Proof.
  intros H. unfold write_at.
  destruct (length buf <? p + length e)%nat eqn:E;
    [apply Nat.ltb_lt in E; lia | reflexivity].
Qed.

Lemma fill_from_packed (base : nat) (tup : list bytes) (sizes : list Z) :
  Forall2 (fun (e : bytes) (s : Z) => Z.of_nat (length e) = s) tup sizes ->
  forall o buf,
    0 <= o -> o + sum_of sizes < SIZE_MOD ->
    (base + Z.to_nat o + Z.to_nat (sum_of sizes) <= length buf)%nat ->
    fill_from (combine (match sizes with
                        | [] => []
                        | _ => o :: calc_offsets_impl o sizes
                        end) sizes) tup base buf
    = Ok (firstn (base + Z.to_nat o) buf ++ concat tup
            ++ skipn (base + Z.to_nat o + Z.to_nat (sum_of sizes)) buf).
Proof.
  induction 1 as [|e s tup sizes He Hrest IH]; intros o buf Ho Hsum Hbuf.
  - cbn [combine fill_from concat sum_of fold_right app] in *.
    rewrite Nat.add_0_r. now rewrite firstn_skipn.
  - cbn [sum_of fold_right] in Hsum, Hbuf |- *. fold (sum_of sizes) in *.
    assert (Hs : 0 <= s) by lia.
    assert (Hsizes : 0 <= sum_of sizes).
    { clear - Hrest. induction Hrest as [|e' s' ? ? He' ? IH']; cbn; [lia|].
      fold (sum_of l'). lia. }
    cbn [combine fill_from].
    rewrite He, Z.eqb_refl. cbn [negb].
    rewrite write_at_overwrite by lia. cbn [bind].
    replace (combine (calc_offsets_impl o (s :: sizes)) sizes)
      with (combine (match sizes with
                     | [] => []
                     | _ => (o + s) :: calc_offsets_impl (o + s) sizes
                     end) sizes).
    2:{ destruct sizes as [|s' sizes]; [reflexivity|].
        cbn [calc_offsets_impl]. unfold SIZE_MOD in *.
        now rewrite (Z.mod_small (o + s)) by lia. }
    rewrite IH; [| lia | lia | rewrite overwrite_length; lia].
    f_equal. cbn [concat].
    replace (base + Z.to_nat (o + s))%nat with (base + Z.to_nat o + length e)%nat by lia.
    rewrite overwrite_firstn by lia.
    rewrite overwrite_skipn by lia.
    rewrite <- !app_assoc.
    replace (base + Z.to_nat o + length e + Z.to_nat (sum_of sizes))%nat
      with (base + Z.to_nat o + Z.to_nat (s + sum_of sizes))%nat by lia.
    reflexivity.
Qed.

Lemma sum_of_nonneg_sized (tup : list bytes) (sizes : list Z) :
  Forall2 (fun (e : bytes) (s : Z) => Z.of_nat (length e) = s) tup sizes ->
  Z.of_nat (length (concat tup)) = sum_of sizes.
Proof.
  induction 1 as [|e s tup sizes He Hrest IH]; [reflexivity|].
  cbn [concat sum_of fold_right]. fold (sum_of sizes).
  rewrite length_app. lia.
Qed.

Lemma fill_packed (Tup : tuple_type) (tup : list bytes) (base : nat) (buf : bytes) :
  tuple_sized Tup tup -> sum_of (element_sizes Tup) < SIZE_MOD ->
  (base + length (concat tup) <= length buf)%nat ->
  fill Tup tup base buf = Ok (overwrite base (concat tup) buf).
Proof.
  intros Hsized Hsum Hbuf. unfold fill, offsets, overwrite.
  pose proof (sum_of_nonneg_sized _ _ Hsized) as Hlen.
  replace (combine match Tup with
                   | [] => []
                   | _ :: _ => 0 :: calc_offsets_impl 0 (element_sizes Tup)
                   end (element_sizes Tup))
    with (combine (match element_sizes Tup with
                   | [] => []
                   | _ => 0 :: calc_offsets_impl 0 (element_sizes Tup)
                   end) (element_sizes Tup))
    by (destruct Tup; reflexivity).
  rewrite (fill_from_packed base tup _ Hsized 0 buf); [| lia | lia | lia].
  cbn [Z.to_nat]. rewrite !Nat.add_0_r.
  replace (Z.to_nat (sum_of (element_sizes Tup))) with (length (concat tup)) by lia.
  reflexivity.
Qed.

Lemma fill_tuples_packed (Tup : tuple_type) (tuples : list (list bytes)) :
  Forall (tuple_sized Tup) tuples ->
  sum_of (element_sizes Tup) < SIZE_MOD ->
  forall count buf,
    ((count + length tuples) * Z.to_nat (sum_sizes Tup) <= length buf)%nat ->
    fill_tuples Tup tuples count buf
    = Ok (overwrite (count * Z.to_nat (sum_sizes Tup))
            (concat (map (@concat ascii) tuples)) buf).
Proof.
  intros Hall Hsum. induction Hall as [|tup tuples Htup Hrest IH];
    intros count buf Hbuf.
  - cbn [fill_tuples map concat]. unfold overwrite. cbn [app length].
    now rewrite Nat.add_0_r, firstn_skipn.
  - cbn [fill_tuples map concat length] in *.
    pose proof (sum_of_nonneg_sized _ _ Htup) as Hlen.
    assert (HS : Z.to_nat (sum_sizes Tup) = length (concat tup)).
    { rewrite sum_sizes_sum, Z.mod_small; lia. }
    rewrite HS in *.
    rewrite fill_packed by (auto; nia). cbn [bind].
    rewrite IH by (rewrite overwrite_length; nia).
    f_equal. unfold overwrite at 1 3.
    replace (S count * length (concat tup))%nat
      with (count * length (concat tup) + length (concat tup))%nat by lia.
    rewrite overwrite_firstn by nia.
    rewrite overwrite_skipn by (rewrite ?length_app; nia).
    rewrite <- !app_assoc, !length_app.
    replace (count * length (concat tup) + length (concat tup)
             + length (concat (map (@concat ascii) tuples)))%nat
      with (count * length (concat tup)
            + (length (concat tup) + length (concat (map (@concat ascii) tuples))))%nat
      by lia.
    reflexivity.
Qed.

Lemma concat_map_singleton (l : bytes) : concat (map (fun c => [c]) l) = l.
Proof. induction l as [|c l IH]; [reflexivity|]. cbn. now rewrite IH. Qed.

Lemma length_packed (Tup : tuple_type) (tuples : list (list bytes)) :
  Forall (tuple_sized Tup) tuples ->
  Z.of_nat (length (concat (map (@concat ascii) tuples)))
  = Z.of_nat (length tuples) * sum_of (element_sizes Tup).
Proof.
  induction 1 as [|tup tuples Htup Hrest IH]; [reflexivity|].
  cbn [map concat length]. rewrite length_app.
  pose proof (sum_of_nonneg_sized _ _ Htup). lia.
Qed.

Lemma write_data_tuple_loop_all (Tup : tuple_type) (buffer_size : nat) (fuel : nat) :
  0 <= sum_of (element_sizes Tup) < SIZE_MOD ->
  forall (it : list (list bytes)) todo buf fs,
    at_end fs -> (todo <= fuel)%nat -> (todo <= length it)%nat ->
    (0 < todo -> 0 < buffer_size)%nat ->
    Forall (tuple_sized Tup) it ->
    Z.of_nat (length buf) = Z.of_nat buffer_size * sum_of (element_sizes Tup) ->
    Z.of_nat todo * sum_of (element_sizes Tup) < SIZE_MOD ->
    write_data_tuple_loop fuel Tup buffer_size buf it todo fs
    = Ok {| content := content fs ++ concat (map (@concat ascii) (firstn todo it));
            pos := length (content fs
                             ++ concat (map (@concat ascii) (firstn todo it)));
            good := true |}.
Proof.
  intros Hsum.
  assert (HS : sum_sizes Tup = sum_of (element_sizes Tup)).
  { rewrite sum_sizes_sum. apply Z.mod_small. exact Hsum. }
  induction fuel as [|fuel IH];
    intros it todo buf fs Hend Hfuel Hit Hbs Hsized Hbuf Hbound.
  - assert (todo = 0%nat) as -> by lia. cbn. f_equal. now apply at_end_eta.
  - cbn [write_data_tuple_loop]. destruct (todo =? 0)%nat eqn:E.
    + apply Nat.eqb_eq in E. subst todo. cbn. f_equal. now apply at_end_eta.
    + apply Nat.eqb_neq in E.
      set (count := Nat.min buffer_size todo).
      assert (Hcount : (0 < count <= todo)%nat) by (unfold count; lia).
      assert (Hcb : (count <= buffer_size)%nat) by (unfold count; lia).
      destruct (length it <? count)%nat eqn:E2; [apply Nat.ltb_lt in E2; lia|].
      assert (Hchunk : Forall (tuple_sized Tup) (firstn count it))
        by now apply Forall_take.
      pose proof (length_packed _ _ Hchunk) as Hpacked.
      rewrite length_firstn in Hpacked.
      replace (Nat.min count (length it)) with count in Hpacked by lia.
      rewrite fill_tuples_packed; [| exact Hchunk | lia |].
      2:{ rewrite length_firstn, HS. nia. }
      cbn [bind Nat.mul].
      set (packed := concat (map (@concat ascii) (firstn count it))) in *.
      unfold write_data. rewrite concat_map_singleton, HS.
      rewrite (Z.mod_small (Z.of_nat count * _)) by nia.
      rewrite Z.mul_1_r, Z.mod_small by nia.
      rewrite overwrite_length by (cbn [Nat.add]; nia).
      destruct (Z.of_nat (length buf)
                <? Z.of_nat count * sum_of (element_sizes Tup)) eqn:E3;
        [apply Z.ltb_lt in E3; nia|].
      cbn [bind].
      replace (Z.to_nat (Z.of_nat count * sum_of (element_sizes Tup)))
        with (0 + length packed)%nat by lia.
      rewrite overwrite_firstn by (cbn [Nat.add]; nia).
      cbn [firstn app].
      rewrite stream_write_at_end by exact Hend.
      rewrite IH.
      * cbn [content].
        assert (Hsplit : firstn todo it
                         = firstn count it ++ firstn (todo - count) (skipn count it)).
        { rewrite <- firstn_split. f_equal. lia. }
        now rewrite Hsplit, map_app, concat_app, <- app_assoc.
      * apply at_end_written.
      * lia.
      * rewrite length_skipn. lia.
      * lia.
      * now apply Forall_drop.
      * rewrite overwrite_length by (cbn [Nat.add]; nia). exact Hbuf.
      * nia.
Qed.

Lemma write_data_tuple_all (Tup : tuple_type) (start : list (list bytes))
    (nels : Z) (fs : fstream) :
  at_end fs -> Forall (tuple_sized Tup) start ->
  Z.of_nat (length start) = nels ->
  0 <= sum_of (element_sizes Tup) < SIZE_MOD ->
  nels * sum_of (element_sizes Tup) < SIZE_MOD ->
  write_data_tuple Tup start nels fs
  = Ok {| content := content fs ++ concat (map (@concat ascii) start);
          pos := length (content fs ++ concat (map (@concat ascii) start));
          good := true |}.
Proof.
  intros Hend Hsized Hlen Hsum Hbound. unfold write_data_tuple.
  assert (HS : sum_sizes Tup = sum_of (element_sizes Tup)).
  { rewrite sum_sizes_sum. apply Z.mod_small. exact Hsum. }
  subst nels. rewrite Nat2Z.id.
  rewrite write_data_tuple_loop_all; auto; try lia.
  - now rewrite firstn_all.
  - rewrite repeat_length, HS.
    rewrite Z.mod_small by nia. rewrite Z2Nat.id by nia. reflexivity.
Qed.

(** ** Round trip *)

Lemma parse_generated_plain (T : value_type) (s0 : Z) (rest : list Z)
    (order : MemoryOrder) (k : nat) :
  0 < sizeof T < 2 ^ 31 -> Forall int_range (s0 :: rest) ->
  parse_npy_dict (plain_head LittleEndian (map_type T) (sizeof T)
                    ++ dict_tail order s0 rest k)
  = Ok {| hdr_word_sizes := [sizeof T]; hdr_data_types := [map_type T];
          hdr_labels := []; hdr_shape := s0 :: rest;
          hdr_memory_order := order |}.
Proof.
  intros HT Hshape.
  apply parse_npy_dict_generated;
    [apply dict_head_plain; [apply map_type_code | lia] | exact Hshape |].
  replace (plain_head LittleEndian (map_type T) (sizeof T)
             ++ dict_tail order s0 rest k)
    with (lit "{" ++ desc ++ [quote] ++ [BigEndianTest LittleEndian]
            ++ [map_type T] ++ digits (sizeof T) ++ [quote]
            ++ lit ", " ++ dict_tail order s0 rest k)
    by (unfold plain_head; rewrite <- !app_assoc; reflexivity).
  apply parse_descr_plain_generated;
    [reflexivity | discriminate | apply type_code_is_code, map_type_code |].
  unfold int_range, INT_MAX. lia.
Qed.

Lemma zip3_fields (labels0 : list bytes) (Tup : tuple_type) :
  length labels0 = length Tup ->
  let fs := zip3 labels0 (tuple_data_types Tup) (element_sizes Tup) in
  map snd fs = element_sizes Tup
  /\ map (fun g => snd (fst g)) fs = tuple_data_types Tup
  /\ map (fun g => fst (fst g)) fs = labels0
  /\ length fs = length Tup.
Proof.
  revert Tup. induction labels0 as [|l labels0 IH]; intros [|T Tup] Hlen;
    try discriminate; [cbn; auto|].
  injection Hlen as Hlen. destruct (IH Tup Hlen) as (H1 & H2 & H3 & H4).
  unfold tuple_data_types, element_sizes in *.
  cbn [zip3 map fst snd length]. cbv zeta in *.
  rewrite H1, H2, H3, H4. auto.
Qed.

Lemma zip3_field_ok (labels0 : list bytes) (Tup : tuple_type) :
  Forall word_label labels0 -> Forall (fun T => 0 < sizeof T < 2 ^ 31) Tup ->
  Forall field_ok (zip3 labels0 (tuple_data_types Tup) (element_sizes Tup)).
Proof.
  intros Hl. revert Tup. induction Hl as [|l labels0 Hw Hl IH]; intros Tup HT.
  - constructor.
  - destruct HT as [|T Tup HT HTup]; [constructor|].
    cbn [tuple_data_types element_sizes map zip3]. constructor.
    + split; [exact Hw|]. split; [apply map_type_code|].
      unfold INT_MAX. lia.
    + apply IH, HTup.
Qed.

Lemma parse_generated_struct (labels0 : list bytes) (Tup : tuple_type) (s0 : Z)
    (rest : list Z) (order : MemoryOrder) (k : nat) :
  Tup <> [] -> length labels0 = length Tup ->
  Forall word_label labels0 -> Forall (fun T => 0 < sizeof T < 2 ^ 31) Tup ->
  Forall int_range (s0 :: rest) ->
  parse_npy_dict
    (struct_head LittleEndian
       (zip3 labels0 (tuple_data_types Tup) (element_sizes Tup))
       ++ dict_tail order s0 rest k)
  = Ok {| hdr_word_sizes := element_sizes Tup;
          hdr_data_types := tuple_data_types Tup;
          hdr_labels := labels0; hdr_shape := s0 :: rest;
          hdr_memory_order := order |}.
Proof.
  intros Hne Hlen Hlabels HT Hshape.
  pose proof (zip3_field_ok _ _ Hlabels HT) as Hok.
  destruct (zip3_fields labels0 Tup Hlen) as (H1 & H2 & H3 & H4).
  cbv zeta in *.
  set (fs := zip3 labels0 (tuple_data_types Tup) (element_sizes Tup)) in *.
  apply parse_npy_dict_generated;
    [now apply dict_head_struct | exact Hshape |].
  destruct fs as [|f fs'] eqn:Hfs.
  { destruct Tup; [congruence | discriminate H4]. }
  rewrite <- Hfs in *.
  replace (struct_head LittleEndian fs ++ dict_tail order s0 rest k)
    with (lit "{" ++ desc ++ lit "[" ++ descr_tuples LittleEndian fs
            ++ (if (length fs =? 1)%nat then lit "," else []) ++ lit "]"
            ++ lit ", " ++ dict_tail order s0 rest k)
    by (unfold struct_head; rewrite <- !app_assoc; reflexivity).
  rewrite <- H1, <- H2, <- H3. rewrite Hfs in *.
  apply parse_descr_struct_generated; [exact Hok|].
  destruct (length (f :: fs') =? 1)%nat; auto.
Qed.

Lemma npy_save_struct_write (creatable : string -> bool)
    (files : gmap string bytes) (fname : string) (Tup : tuple_type)
    (labels0 : list bytes) (first : list (list bytes)) (shape0 : list Z)
    (order : MemoryOrder) (header : bytes) :
  is_open creatable files fname = true ->
  length labels0 = length Tup ->
  0 <= product shape0 < 2 ^ 31 ->
  Z.of_nat (length first) = product shape0 ->
  Forall (tuple_sized Tup) first ->
  0 <= sum_of (element_sizes Tup) < SIZE_MOD ->
  product shape0 * sum_of (element_sizes Tup) < SIZE_MOD ->
  create_npy_header_struct LittleEndian shape0 labels0 (tuple_data_types Tup)
    (element_sizes Tup) order = Ok header ->
  npy_save_struct creatable LittleEndian files fname Tup labels0 first shape0
    "w" order
  = Ok (<[fname := header ++ concat (map (@concat ascii) first)]> files).
Proof.
  intros Hopen Hlen Hprod Hfirst Hsized Hsum Hbound Hheader.
  unfold npy_save_struct.
  rewrite Hlen, Nat.eqb_refl, Hopen. cbn [negb].
  change (String.eqb "w" "a") with false. cbn [bind open_out].
  rewrite Hheader. cbn [bind].
  rewrite write_header_truncated.
  rewrite (accumulate_multiplies_int_product _ Hprod).
  rewrite write_data_tuple_all;
    [reflexivity | apply at_end_written | exact Hsized | exact Hfirst
     | exact Hsum | exact Hbound].
Qed.

Lemma sum_of_sizes_nonneg (Tup : tuple_type) :
  Forall (fun T => 0 < sizeof T < 2 ^ 31) Tup -> 0 <= sum_of (element_sizes Tup).
Proof.
  induction 1 as [|T Tup HT HTup IH]; [reflexivity|].
  change (0 <= sizeof T + sum_of (element_sizes Tup)). lia.
Qed.

Lemma sum_of_positive (Tup : tuple_type) :
  Forall (fun T => 0 < sizeof T < 2 ^ 31) Tup -> Tup <> [] ->
  0 < sum_of (element_sizes Tup).
Proof.
  intros H Hne. destruct H as [|T Tup HT HTup]; [congruence|].
  pose proof (sum_of_sizes_nonneg Tup HTup).
  change (0 < sizeof T + sum_of (element_sizes Tup)). lia.
Qed.

Lemma round_trip_plain (creatable : string -> bool) (alignment : Z)
    (files : gmap string bytes) (fname : string) (T : value_type)
    (contiguous memory_mapped : bool) (start : list bytes) (shape0 : list Z)
    (order : MemoryOrder) :
  is_open creatable files fname = true ->
  0 < sizeof T < 2 ^ 31 ->
  shape0 <> [] -> Forall int_range shape0 -> product shape0 < 2 ^ 31 ->
  Z.of_nat (length start) = product shape0 ->
  Forall (fun e : bytes => Z.of_nat (length e) = sizeof T) start ->
  (forall h,
      create_npy_header LittleEndian shape0 (map_type T) (sizeof T) order = Ok h ->
      Z.of_nat (length h) < 65546) ->
  (memory_mapped = true -> 0 < alignment /\ 0 < product shape0) ->
  exists files' a,
    npy_save creatable LittleEndian files fname T contiguous start shape0 "w"
      order = Ok files'
    /\ npy_load alignment files' fname memory_mapped = Ok a
    /\ round_trip a shape0 [sizeof T] [] order (concat start).
Proof.
  intros Hopen HT Hne Hshape Hprod Hlen Hsized Hheader Hmapped.
  destruct shape0 as [|s0 rest]; [congruence|].
  pose proof (product_nonneg _ Hshape) as Hpos.
  destruct (plain_dict_text LittleEndian s0 rest (map_type T) (sizeof T) order
              ltac:(lia)) as [k Hk].
  set (dict := plain_head LittleEndian (map_type T) (sizeof T)
                 ++ dict_tail order s0 rest k) in *.
  pose proof (Hheader _ Hk) as Hdict.
  rewrite length_app, length_preamble in Hdict.
  pose proof (length_concat_sized _ _ Hsized) as Hpayload. rewrite Hlen in Hpayload.
  eexists. eexists. split; [|split].
  - apply npy_save_write;
      [exact Hopen | exact HT | lia | exact Hlen | exact Hsized | exact Hk].
  - apply (npy_load_written alignment files fname memory_mapped dict (concat start)
             _ ltac:(lia) (parse_generated_plain T s0 rest order k HT Hshape)).
    + cbn [hdr_word_sizes hdr_shape].
      rewrite accumulate_plus_sum, accumulate_multiplies_product.
      cbn [sum_of fold_right]. rewrite Z.add_0_r.
      unfold SIZE_MOD.
      rewrite (Z.mod_small (sizeof T)), (Z.mod_small (product (s0 :: rest))) by lia.
      rewrite Z.mod_small by nia. lia.
    + nia.
    + intros Hmm. destruct (Hmapped Hmm) as [Hal Hp0]. split; [exact Hal|].
      intros Hnil. apply (f_equal (@length ascii)) in Hnil.
      cbn [length] in Hnil. nia.
  - repeat split.
Qed.

Lemma round_trip_struct (creatable : string -> bool) (alignment : Z)
    (files : gmap string bytes) (fname : string) (Tup : tuple_type)
    (labels0 : list bytes) (memory_mapped : bool) (first : list (list bytes))
    (shape0 : list Z) (order : MemoryOrder) :
  is_open creatable files fname = true ->
  Tup <> [] -> length labels0 = length Tup ->
  Forall (fun T => 0 < sizeof T < 2 ^ 31) Tup ->
  Forall word_label labels0 ->
  shape0 <> [] -> Forall int_range shape0 -> product shape0 < 2 ^ 31 ->
  Z.of_nat (length first) = product shape0 ->
  Forall (tuple_sized Tup) first ->
  sum_of (element_sizes Tup) < 2 ^ 63 ->
  product shape0 * sum_of (element_sizes Tup) < 2 ^ 63 ->
  (forall h,
      create_npy_header_struct LittleEndian shape0 labels0 (tuple_data_types Tup)
        (element_sizes Tup) order = Ok h ->
      Z.of_nat (length h) < 65546) ->
  (memory_mapped = true -> 0 < alignment /\ 0 < product shape0) ->
  exists files' a,
    npy_save_struct creatable LittleEndian files fname Tup labels0 first shape0
      "w" order = Ok files'
    /\ npy_load alignment files' fname memory_mapped = Ok a
    /\ round_trip a shape0 (element_sizes Tup) labels0 order
         (concat (map (@concat ascii) first)).
Proof.
  intros Hopen HTup Hlabels HT Hwords Hne Hshape Hprod Hlen Hsized Hsum Hbytes
    Hheader Hmapped.
  destruct shape0 as [|s0 rest]; [congruence|].
  pose proof (product_nonneg _ Hshape) as Hpos.
  pose proof (sum_of_positive _ HT HTup) as Hsumpos.
  assert (Hl2 : length labels0 = length (tuple_data_types Tup))
    by (unfold tuple_data_types; now rewrite length_map).
  assert (Hl3 : length (tuple_data_types Tup) = length (element_sizes Tup))
    by (unfold tuple_data_types, element_sizes; now rewrite !length_map).
  destruct (struct_dict_text LittleEndian s0 rest labels0 (tuple_data_types Tup)
              (element_sizes Tup) order Hl2 Hl3) as [k Hk].
  set (dict := struct_head LittleEndian
                 (zip3 labels0 (tuple_data_types Tup) (element_sizes Tup))
                 ++ dict_tail order s0 rest k) in *.
  pose proof (Hheader _ Hk) as Hdict.
  rewrite length_app, length_preamble in Hdict.
  pose proof (length_packed _ _ Hsized) as Hpayload. rewrite Hlen in Hpayload.
  eexists. eexists. split; [|split].
  - apply npy_save_struct_write;
      [exact Hopen | exact Hlabels | lia | exact Hlen | exact Hsized
       | unfold SIZE_MOD; lia | unfold SIZE_MOD; lia | exact Hk].
  - apply (npy_load_written alignment files fname memory_mapped dict
             (concat (map (@concat ascii) first)) _ ltac:(lia)
             (parse_generated_struct labels0 Tup s0 rest order k HTup Hlabels
                Hwords HT Hshape)).
    + cbn [hdr_word_sizes hdr_shape].
      rewrite accumulate_plus_sum, accumulate_multiplies_product.
      unfold SIZE_MOD.
      rewrite (Z.mod_small (sum_of _)), (Z.mod_small (product (s0 :: rest))) by lia.
      rewrite Z.mod_small by nia. lia.
    + nia.
    + intros Hmm. destruct (Hmapped Hmm) as [Hal Hp0]. split; [exact Hal|].
      intros Hnil. apply (f_equal (@length ascii)) in Hnil.
      cbn [length] in Hnil. nia.
  - repeat split.
Qed.

(** X25. On a little-endian host, an array written by [npy_save] in mode
    ["w"] under a name that has a file or can be created, and loaded again
    by [npy_load] (in memory, or memory-mapped when the payload is not empty
    and the mapping alignment positive), has the shape, word sizes, labels
    and memory order that were saved and the bytes of the source data as
    payload, provided that: the rank is at least 1, every dimension and the
    number of elements are below [2^31], every word size is positive and
    below [2^31], the source holds exactly as many well-sized elements as the
    shape says, the header is shorter than 65546 bytes and, for a structured
    array, there is at least one field, as many labels as fields, every
    label is a non-empty run of letters, digits and underscores and a tuple
    and the payload are smaller than [2^63] bytes.  A plain array loads with
    an empty label sequence. *)
Theorem npy_save_load_round_trip :
  (forall (creatable : string -> bool) (alignment : Z)
          (files : gmap string bytes) (fname : string) (T : value_type)
          (contiguous memory_mapped : bool) (start : list bytes)
          (shape0 : list Z) (order : MemoryOrder),
      is_open creatable files fname = true ->
      0 < sizeof T < 2 ^ 31 ->
      shape0 <> [] -> Forall int_range shape0 -> product shape0 < 2 ^ 31 ->
      Z.of_nat (length start) = product shape0 ->
      Forall (fun e : bytes => Z.of_nat (length e) = sizeof T) start ->
      (forall h,
          create_npy_header LittleEndian shape0 (map_type T) (sizeof T) order
          = Ok h ->
          Z.of_nat (length h) < 65546) ->
      (memory_mapped = true -> 0 < alignment /\ 0 < product shape0) ->
      exists files' a,
        npy_save creatable LittleEndian files fname T contiguous start shape0
          "w" order = Ok files'
        /\ npy_load alignment files' fname memory_mapped = Ok a
        /\ round_trip a shape0 [sizeof T] [] order (concat start))
  /\ (forall (creatable : string -> bool) (alignment : Z)
             (files : gmap string bytes) (fname : string) (Tup : tuple_type)
             (labels0 : list bytes) (memory_mapped : bool)
             (first : list (list bytes)) (shape0 : list Z) (order : MemoryOrder),
         is_open creatable files fname = true ->
         Tup <> [] -> length labels0 = length Tup ->
         Forall (fun T => 0 < sizeof T < 2 ^ 31) Tup ->
         Forall word_label labels0 ->
         shape0 <> [] -> Forall int_range shape0 -> product shape0 < 2 ^ 31 ->
         Z.of_nat (length first) = product shape0 ->
         Forall (tuple_sized Tup) first ->
         sum_of (element_sizes Tup) < 2 ^ 63 ->
         product shape0 * sum_of (element_sizes Tup) < 2 ^ 63 ->
         (forall h,
             create_npy_header_struct LittleEndian shape0 labels0
               (tuple_data_types Tup) (element_sizes Tup) order = Ok h ->
             Z.of_nat (length h) < 65546) ->
         (memory_mapped = true -> 0 < alignment /\ 0 < product shape0) ->
         exists files' a,
           npy_save_struct creatable LittleEndian files fname Tup labels0 first
             shape0 "w" order = Ok files'
           /\ npy_load alignment files' fname memory_mapped = Ok a
           /\ round_trip a shape0 (element_sizes Tup) labels0 order
                (concat (map (@concat ascii) first))).
Proof.
  split.
  - intros. now apply round_trip_plain.
  - intros. now apply round_trip_struct.
Qed.

Lemma npy_save_load_round_trip_witness :
  (exists files' a,
      npy_save (creates ["arr.npy"]) LittleEndian ∅ "arr.npy" uint32_t true
        [lit "abcd"; lit "efgh"] [2; 1] "w" Fortran = Ok files'
      /\ npy_load 4096 files' "arr.npy" true = Ok a
      /\ round_trip a [2; 1] [4] [] Fortran (lit "abcdefgh"))
  /\ (exists files' a,
         npy_save_struct (creates ["s.npy"]) LittleEndian ∅ "s.npy"
           [int32_t; int8_t; int16_t] [lit "a"; lit "b_2"; lit "c"]
           [[lit "aaaa"; lit "b"; lit "cc"]; [lit "dddd"; lit "e"; lit "ff"]]
           [2] "w" C = Ok files'
         /\ npy_load 4096 files' "s.npy" false = Ok a
         /\ round_trip a [2] [4; 1; 2] [lit "a"; lit "b_2"; lit "c"] C
              (lit "aaaabccddddeff")).
Proof.
  destruct npy_save_load_round_trip as [Hplain Hstruct]. split.
  - apply (Hplain (creates ["arr.npy"]) 4096 ∅ "arr.npy"%string uint32_t true
             true [lit "abcd"; lit "efgh"] [2; 1] Fortran).
    + reflexivity.
    + cbn. lia.
    + discriminate.
    + repeat constructor; unfold INT_MAX; lia.
    + cbn. lia.
    + reflexivity.
    + repeat constructor.
    + intros h Hh. vm_compute in Hh. injection Hh as <-. vm_compute. reflexivity.
    + intros _. split; [lia | cbn; lia].
  - apply (Hstruct (creates ["s.npy"]) 4096 ∅ "s.npy"%string
             [int32_t; int8_t; int16_t] [lit "a"; lit "b_2"; lit "c"] false
             [[lit "aaaa"; lit "b"; lit "cc"]; [lit "dddd"; lit "e"; lit "ff"]]
             [2] C).
    + reflexivity.
    + discriminate.
    + reflexivity.
    + repeat constructor; cbn; lia.
    + repeat constructor; discriminate.
    + discriminate.
    + repeat constructor; unfold INT_MAX; lia.
    + cbn. lia.
    + reflexivity.
    + repeat constructor.
    + cbn. lia.
    + cbn. lia.
    + intros h Hh. vm_compute in Hh. injection Hh as <-. vm_compute. reflexivity.
    + intros Hmm. discriminate Hmm.
Defined.

Lemma spaced_label_saved :
  npy_save_struct (creates ["s.npy"]) LittleEndian ∅ "s.npy" [int32_t]
    [lit "a b"] [[lit "aaaa"]; [lit "dddd"]] [2] "w" C = Ok spaced_label_files.
Proof. vm_compute. reflexivity. Qed.

Lemma spaced_label_loaded :
  npy_load 4096 spaced_label_files "s.npy" false
  = Ok (make_NpyArray [2] [] [] C []).
Proof. vm_compute. reflexivity. Qed.

(** C1. The round trip fails for a label outside the word pattern of the
    parser: a structured array of two records with one [int32_t] field
    labelled ["a b"] is saved without error, and loading the file yields the
    shape and the memory order but no field at all: no word size, no label
    and an empty payload, where the claim has the width 4, the label and the
    eight bytes that were saved. *)
Theorem npy_save_load_label_lost :
  exists files' a,
    npy_save_struct (creates ["s.npy"]) LittleEndian ∅ "s.npy" [int32_t]
      [lit "a b"] [[lit "aaaa"]; [lit "dddd"]] [2] "w" C = Ok files'
    /\ npy_load 4096 files' "s.npy" false = Ok a
    /\ shape a = [2] /\ memory_order a = C
    /\ word_sizes a = [] /\ labels a = [] /\ buffer a = []
    /\ ~ round_trip a [2] [4] [lit "a b"] C (lit "aaaadddd").
Proof.
  exists spaced_label_files, (make_NpyArray [2] [] [] C []).
  split; [exact spaced_label_saved|].
  split; [exact spaced_label_loaded|].
  repeat split. intros (_ & Hsizes & _). discriminate Hsizes.
Qed.

(** ** Big-endian descriptors *)

Lemma stoi_defined (s : bytes) : defined (stoi s).
Proof.
  unfold defined, stoi.
  destruct (drop_while is_space s) as [|c t].
  - cbn. discriminate.
  - destruct (Ascii.eqb c (chr 45)); [|destruct (Ascii.eqb c (chr 43))];
      match goal with
      | |- context [span is_digit ?x] => destruct (span is_digit x) as [[|d ds] r]
      end; try discriminate;
      match goal with
      | |- context [if ?b then Ok _ else _] => destruct b
      end; discriminate.
Qed.

Lemma stoi_size_defined (s : bytes) : defined (stoi_size s).
Proof.
  unfold defined, stoi_size. pose proof (stoi_defined s) as H.
  destruct (stoi s); cbn; congruence.
Qed.

Lemma mapM_defined {A B : Type} (f : A -> result B) (l : list A) :
  (forall x, defined (f x)) -> defined (mapM f l).
Proof.
  intros Hf. induction l as [|x l IH]; [discriminate|].
  cbn [mapM]. pose proof (Hf x) as Hx. unfold defined in *.
  destruct (f x); cbn [bind]; try congruence.
  destruct (mapM f l); cbn [bind]; congruence.
Qed.

Lemma parse_shape_defined (dict : bytes) : defined (parse_shape dict).
Proof.
  unfold parse_shape.
  destruct (find sh dict) as [ps|]; [|discriminate].
  destruct (find_from (lit ")") dict ps) as [pe|]; [|discriminate].
  apply mapM_defined. intros m. apply stoi_size_defined.
Qed.

Lemma parse_fortran_order_defined (dict : bytes) :
  defined (parse_fortran_order dict).
Proof.
  unfold parse_fortran_order.
  destruct (regex_search fortran_order_regex dict) as [[[i m] r]|]; discriminate.
Qed.

Lemma parse_npy_dict_descr_throws (dict : bytes) :
  dict <> [] -> throws (parse_descr dict) -> throws (parse_npy_dict dict).
Proof.
  intros Hne [w Hw]. unfold parse_npy_dict.
  destruct dict as [|front t]; [congruence|].
  destruct (negb (Ascii.eqb (List.last (front :: t) zero) newline));
    [apply throws_Throw|].
  destruct (negb (Ascii.eqb front "{")); [apply throws_Throw|].
  pose proof (parse_fortran_order_defined (front :: t)) as H1.
  pose proof (parse_shape_defined (front :: t)) as H2.
  unfold defined in *.
  destruct (parse_fortran_order (front :: t)); cbn [bind];
    [|apply throws_Throw|congruence].
  destruct (parse_shape (front :: t)); cbn [bind];
    [|apply throws_Throw|congruence].
  rewrite Hw. apply throws_Throw.
Qed.

Lemma find_Some_skipn (p s : bytes) (i : nat) :
  find p s = Some i -> is_prefix p (skipn i s) = true /\ (i <= length s)%nat.
Proof.
  revert i. induction s as [|c s IH]; intros i H; cbn [find] in H.
  - destruct (is_prefix p []) eqn:E; [|discriminate].
    injection H as <-. cbn. auto.
  - destruct (is_prefix p (c :: s)) eqn:E.
    + injection H as <-. cbn. split; [exact E | lia].
    + destruct (find p s) as [j|] eqn:Ej; [|discriminate].
      injection H as <-. destruct (IH j eq_refl). cbn. split; [assumption | lia].
Qed.

Lemma nth_error_skipn_hd (s t : bytes) (i k : nat) (c : ascii) (pre : bytes) :
  skipn i s = pre ++ c :: t -> k = length pre ->
  nth_error s (i + k) = Some c.
Proof.
  intros H ->. rewrite <- (firstn_skipn i s) at 1. rewrite H.
  assert (Hi : (i <= length s)%nat).
  { destruct (Nat.le_gt_cases i (length s)) as [Hle|Hgt]; [exact Hle|].
    rewrite skipn_all2 in H by lia. destruct pre; discriminate. }
  rewrite nth_error_app2 by (rewrite length_firstn; lia).
  rewrite length_firstn.
  replace (i + length pre - Nat.min i (length s))%nat with (length pre) by lia.
  rewrite nth_error_app2 by lia. now rewrite Nat.sub_diag.
Qed.

Lemma parse_descr_big_endian_single (dict : bytes) (p : nat) (c : ascii)
    (ds R : bytes) :
  find desc dict = Some p ->
  skipn p dict = desc ++ big_endian_descr c ds ++ R ->
  is_code c = true -> digit_run ds ->
  throws (parse_descr dict).
Proof.
  intros Hfind Hskip Hc [Hne Hds]. unfold parse_descr. rewrite Hfind.
  assert (Hnth : nth_error dict (p + length desc) = Some quote).
  { apply (nth_error_skipn_hd dict (lit ">" ++ [c] ++ ds ++ [quote] ++ R) p _ quote desc);
      [|reflexivity].
    rewrite Hskip. unfold big_endian_descr. now rewrite <- !app_assoc. }
  rewrite Hnth, Ascii.eqb_refl, Hskip.
  assert (Hm : simple_descr_regex (big_endian_descr c ds ++ R)
               = Some ([big_endian_descr c ds; lit ">"; [c]; ds], R)).
  { unfold big_endian_descr. cbn [lit list_ascii_of_string app].
    unfold simple_descr_regex. cbn [expect].
    rewrite Ascii.eqb_refl. cbn [one].
    replace (is_endian ">") with true by reflexivity. cbn [one]. rewrite Hc.
    rewrite <- app_assoc.
    rewrite (many1_app is_digit ds _ Hne Hds) by reflexivity.
    cbn [app expect]. rewrite Ascii.eqb_refl. reflexivity. }
  rewrite (regex_search_first simple_descr_regex desc _ _ _ ltac:(
             unfold desc, big_endian_descr;
             cbn [lit list_ascii_of_string nowhere app];
             repeat split; reflexivity) Hm).
  apply throws_Throw.
Qed.

Lemma parse_tuple_defined (m : list bytes) : defined (parse_tuple m).
Proof.
  unfold defined, parse_tuple.
  destruct (bytes_eqb (sub_match m 2) (lit ">")); [discriminate|].
  pose proof (stoi_size_defined (sub_match m 4)) as H.
  destruct (stoi_size (sub_match m 4)); cbn [bind]; congruence.
Qed.

Lemma regex_search_sound (m : matcher) (s : bytes) (i : nat) (sub : list bytes)
    (rest : bytes) :
  regex_search m s = Some (i, sub, rest) ->
  m (skipn i s) = Some (sub, rest) /\ (i <= length s)%nat.
Proof.
  revert i. induction s as [|c s IH]; intros i H; cbn [regex_search] in H.
  - destruct (m []) as [[sub' rest']|] eqn:E; [|discriminate].
    injection H as <- <- <-. auto.
  - destruct (m (c :: s)) as [[sub' rest']|] eqn:E.
    + injection H as <- <- <-. cbn. split; [exact E | lia].
    + destruct (regex_search m s) as [[[j sub'] rest']|] eqn:E'; [|discriminate].
      injection H as <- <- <-. destruct (IH j eq_refl) as [H1 H2].
      cbn. split; [exact H1 | lia].
Qed.

Lemma regex_search_leftmost (m : matcher) (pre s : bytes) (sub : list bytes)
    (rest : bytes) :
  m s = Some (sub, rest) ->
  exists j sub' rest',
    regex_search m (pre ++ s) = Some (j, sub', rest') /\ (j <= length pre)%nat.
Proof.
  intros Hm. induction pre as [|c pre IH].
  - exists O, sub, rest. split; [now apply regex_search_here | cbn; lia].
  - cbn [app regex_search].
    destruct (m (c :: pre ++ s)) as [[sub' rest']|] eqn:E.
    + exists O, sub', rest'. split; [reflexivity | cbn; lia].
    + destruct IH as (j & sub' & rest' & Hj & Hle). rewrite Hj.
      exists (S j), sub', rest'. split; [reflexivity | cbn; lia].
Qed.

Lemma forallb_not_In (cls : ascii -> bool) (x : ascii) (l : bytes) :
  forallb cls l = true -> cls x = false -> ~ In x l.
Proof.
  intros Hl Hx Hin. rewrite (forallb_In _ _ _ Hl Hin) in Hx. discriminate.
Qed.

Lemma span_class (cls : ascii -> bool) (s a b : bytes) :
  span cls s = (a, b) -> forallb cls a = true.
Proof.
  revert a b. induction s as [|x s IH]; intros a b Es; cbn [span] in Es.
  - now injection Es as <- <-.
  - destruct (cls x) eqn:Ex.
    + destruct (span cls s) as [a' b'] eqn:Es'.
      injection Es as <- <-. cbn [forallb]. rewrite Ex. now apply (IH a' b').
    + now injection Es as <- <-.
Qed.

(** A match of [dtype_tuple_regex] starts with a parenthesis and holds no
    other one. *)
Lemma dtype_tuple_regex_shape (s : bytes) (sub : list bytes) (rest : bytes) :
  dtype_tuple_regex s = Some (sub, rest) ->
  exists taken, s = "("%char :: taken ++ rest /\ no_paren taken.
Proof.
  intros H. unfold dtype_tuple_regex in H.
  destruct (expect (lit "('") s) as [s1|] eqn:E1; [|discriminate].
  destruct (many1 is_word s1) as [[w s2]|] eqn:E2; [|discriminate].
  destruct (expect (lit "', '") s2) as [s3|] eqn:E3; [|discriminate].
  destruct (one is_endian s3) as [[e s4]|] eqn:E4; [|discriminate].
  destruct (one is_code s4) as [[c s5]|] eqn:E5; [|discriminate].
  destruct (many1 is_digit s5) as [[d s6]|] eqn:E6; [|discriminate].
  destruct (expect (lit "')") s6) as [r|] eqn:E7; [|discriminate].
  injection H as <- <-.
  assert (Hw : forallb is_word w = true).
  { unfold many1 in E2. destruct (span is_word s1) as [a b] eqn:Es.
    destruct a; [discriminate|]. injection E2 as <- <-.
    apply (span_class _ _ _ _ Es). }
  assert (Hd : forallb is_digit d = true).
  { unfold many1 in E6. destruct (span is_digit s5) as [a b] eqn:Es.
    destruct a; [discriminate|]. injection E6 as <- <-.
    apply (span_class _ _ _ _ Es). }
  assert (He : is_endian e = true).
  { destruct s3 as [|y s3]; [discriminate|]. cbn in E4.
    destruct (is_endian y) eqn:Ey; [|discriminate]. now injection E4 as <- <-. }
  assert (Hc : is_code c = true).
  { destruct s4 as [|y s4]; [discriminate|]. cbn in E5.
    destruct (is_code y) eqn:Ey; [|discriminate]. now injection E5 as <- <-. }
  apply expect_Some in E1, E3, E7.
  apply (many1_Some is_word) in E2. apply (many1_Some is_digit) in E6.
  apply (one_Some is_endian) in E4. apply (one_Some is_code) in E5.
  destruct E2 as [_ E2]. destruct E6 as [_ E6]. subst.
  exists (lit "'" ++ w ++ lit "', '" ++ [e] ++ [c] ++ d ++ lit "')").
  split; [now rewrite <- !app_assoc|].
  unfold no_paren. rewrite !in_app_iff. cbn [lit list_ascii_of_string In].
  pose proof (forallb_not_In is_word "("%char w Hw eq_refl).
  pose proof (forallb_not_In is_digit "("%char d Hd eq_refl).
  assert (e <> "("%char) by (intros ->; discriminate).
  assert (c <> "("%char) by (intros ->; discriminate).
  intros [[?|[]] | [? | [[?|[?|[?|[?|[]]]]] | [[?|[]] | [[?|[]] | [?|[?|[?|[]]]]]]]]];
    try discriminate; try contradiction; try congruence.
Qed.

Lemma dtype_tuple_regex_big_endian (l : bytes) (c : ascii) (ds s2 : bytes) :
  word_label l -> is_code c = true -> digit_run ds ->
  dtype_tuple_regex (big_endian_tuple l c ds ++ s2)
  = Some (big_endian_matches l c ds, s2).
Proof.
  intros [Hne Hl] Hc [Hdne Hds].
  unfold big_endian_tuple, big_endian_matches, dtype_tuple_regex.
  rewrite <- !app_assoc, expect_app.
  rewrite (many1_app is_word l _ Hne Hl) by reflexivity.
  rewrite expect_app. cbn [lit list_ascii_of_string app one].
  replace (is_endian ">") with true by reflexivity. cbn [one]. rewrite Hc.
  rewrite (many1_app is_digit ds _ Hdne Hds) by reflexivity.
  cbn [lit list_ascii_of_string expect]. now rewrite !Ascii.eqb_refl.
Qed.

(** A match that starts before a tuple ends before it. *)
Lemma match_before_paren (u taken T' rest s2 : bytes) :
  u <> [] -> no_paren taken ->
  u ++ ("("%char :: T') ++ s2 = ("("%char :: taken) ++ rest ->
  exists s1', u = ("("%char :: taken) ++ s1'
              /\ rest = s1' ++ ("("%char :: T') ++ s2.
Proof.
  intros Hu Hno Heq. apply app_eq_app in Heq.
  destruct Heq as (l & [[H1 H2] | [H1 H2]]).
  - exists l. auto.
  - destruct l as [|x l].
    + exists []. rewrite app_nil_r in *. cbn [app] in *. split; congruence.
    + exfalso. cbn [app] in H2. injection H2 as <- H2.
      destruct u as [|u0 u]; [congruence|].
      cbn [app] in H1. injection H1 as _ H1.
      apply Hno. rewrite H1. apply in_or_app. right. now left.
Qed.

Lemma cregex_iterator_reaches (l : bytes) (c : ascii) (ds s2 : bytes) :
  word_label l -> is_code c = true -> digit_run ds ->
  forall n s1, (length s1 <= n)%nat ->
    exists ms1 ms2,
      cregex_iterator dtype_tuple_regex (s1 ++ big_endian_tuple l c ds ++ s2)
      = ms1 ++ big_endian_matches l c ds :: ms2.
Proof.
  intros Hl Hc Hds.
  pose proof (dtype_tuple_regex_big_endian l c ds s2 Hl Hc Hds) as HT.
  induction n as [|n IH]; intros s1 Hlen.
  - destruct s1; [|cbn in Hlen; lia]. cbn [app].
    rewrite (cregex_iterator_step _ _ consuming_dtype_tuple_regex).
    rewrite (regex_search_here _ _ _ _ HT).
    exists [], (cregex_iterator dtype_tuple_regex s2). reflexivity.
  - rewrite (cregex_iterator_step _ _ consuming_dtype_tuple_regex).
    destruct (regex_search_leftmost dtype_tuple_regex s1 _ _ _ HT)
      as (j & sub & rest & Hsearch & Hj).
    rewrite Hsearch.
    destruct (regex_search_sound _ _ _ _ _ Hsearch) as [Hm _].
    destruct (Nat.eq_dec j (length s1)) as [->|Hne].
    + rewrite skipn_exact, HT in Hm. injection Hm as <- <-.
      exists [], (cregex_iterator dtype_tuple_regex s2). reflexivity.
    + assert (Hskip : skipn j (s1 ++ big_endian_tuple l c ds ++ s2)
                      = skipn j s1 ++ big_endian_tuple l c ds ++ s2).
      { rewrite skipn_app. replace (j - length s1)%nat with 0%nat by lia.
        reflexivity. }
      rewrite Hskip in Hm.
      destruct (dtype_tuple_regex_shape _ _ _ Hm) as (taken & Heq & Hno).
      destruct (match_before_paren (skipn j s1) taken
                  (tl (big_endian_tuple l c ds)) rest s2) as (s1' & Hu & Hrest).
      * intros Hnil. apply (f_equal (@length ascii)) in Hnil.
        rewrite length_skipn in Hnil. cbn in Hnil. lia.
      * exact Hno.
      * exact Heq.
      * assert (Hshort : (length s1' <= n)%nat).
        { apply (f_equal (@length ascii)) in Hu.
          rewrite length_skipn, length_app in Hu. cbn [length] in Hu. lia. }
        destruct (IH s1' Hshort) as (ms1 & ms2 & Hiter).
        exists (sub :: ms1), ms2. rewrite Hrest.
        change ("("%char :: tl (big_endian_tuple l c ds))
          with (big_endian_tuple l c ds).
        now rewrite Hiter.
Qed.

Lemma mapM_parse_tuple_big_endian (l : bytes) (c : ascii) (ds : bytes)
    (ms1 ms2 : list (list bytes)) :
  throws (mapM parse_tuple (ms1 ++ big_endian_matches l c ds :: ms2)).
Proof.
  induction ms1 as [|m ms1 IH]; cbn [app mapM].
  - replace (parse_tuple (big_endian_matches l c ds))
      with (@Throw (bytes * ascii * Z)
              "parse_npy_header: data stored in big-endian format (not supported)")
      by reflexivity.
    apply throws_Throw.
  - pose proof (parse_tuple_defined m) as Hm. unfold defined in Hm.
    destruct (parse_tuple m); cbn [bind];
      [|apply throws_Throw|congruence].
    destruct IH as [w Hw]. rewrite Hw. apply throws_Throw.
Qed.

Lemma find_skip (p pre rest : bytes) :
  nowhere (no_occurrence p) pre rest ->
  find p (pre ++ rest) = option_map (Nat.add (length pre)) (find p rest).
Proof.
  intros Hpre. induction pre as [|x pre IH].
  - cbn. now destruct (find p rest).
  - destruct Hpre as [Hx Hpre]. unfold no_occurrence in Hx.
    cbn [app find]. rewrite Hx, (IH Hpre).
    destruct (find p rest); reflexivity.
Qed.

Lemma parse_descr_big_endian_tuple (dict : bytes) (p : nat) (mid l : bytes)
    (c : ascii) (ds post : bytes) :
  find desc dict = Some p ->
  skipn p dict = desc ++ lit "[" ++ mid ++ big_endian_tuple l c ds ++ post ->
  forallb not_bracket mid = true ->
  word_label l -> is_code c = true -> not_bracket c = true -> digit_run ds ->
  throws (parse_descr dict).
Proof.
  intros Hfind Hskip Hmid Hl Hc Hcb Hds. unfold parse_descr. rewrite Hfind.
  assert (Hnth : nth_error dict (p + length desc) = Some "["%char).
  { apply (nth_error_skipn_hd dict (mid ++ big_endian_tuple l c ds ++ post) p _
             "["%char desc); [|reflexivity].
    now rewrite Hskip. }
  rewrite Hnth. replace (Ascii.eqb "[" quote) with false by reflexivity.
  rewrite Ascii.eqb_refl.
  assert (Hrest : skipn (p + length desc) dict
                  = (lit "[" ++ mid ++ big_endian_tuple l c ds) ++ post).
  { rewrite Nat.add_comm, <- skipn_skipn, Hskip, skipn_exact.
    now rewrite <- !app_assoc. }
  unfold find_from. rewrite Hrest.
  assert (Hnob : forallb not_bracket (lit "[" ++ mid ++ big_endian_tuple l c ds)
                 = true).
  { destruct Hl as [_ Hl]. destruct Hds as [_ Hds].
    unfold big_endian_tuple. rewrite !forallb_app, Hmid.
    replace (forallb not_bracket l) with true.
    2:{ symmetry. apply forallb_forall. intros x Hx. unfold not_bracket.
        apply negb_true_iff, Ascii.eqb_neq.
        apply (class_neq is_word); [now apply (forallb_In is_word l) | reflexivity]. }
    replace (forallb not_bracket ds) with true.
    2:{ symmetry. apply forallb_forall. intros x Hx. unfold not_bracket.
        apply negb_true_iff, Ascii.eqb_neq.
        apply (class_neq is_digit); [now apply (forallb_In is_digit ds) | reflexivity]. }
    cbn [forallb lit list_ascii_of_string]. rewrite Hcb. reflexivity. }
  rewrite find_skip by (apply (nowhere_class not_bracket); [exact Hnob | reflexivity]).
  destruct (find (lit "]") post) as [q|]; cbn [option_map]; [|apply throws_Throw].
  unfold slice.
  replace (p + length desc
           + (length (lit "[" ++ mid ++ big_endian_tuple l c ds) + q)
           - (p + length desc))%nat
    with (length (lit "[" ++ mid ++ big_endian_tuple l c ds) + q)%nat by lia.
  rewrite Hrest, firstn_app, firstn_all2 by lia.
  replace (length (lit "[" ++ mid ++ big_endian_tuple l c ds) + q
           - length (lit "[" ++ mid ++ big_endian_tuple l c ds))%nat
    with q by lia.
  replace ((lit "[" ++ mid ++ big_endian_tuple l c ds) ++ firstn q post)
    with ((lit "[" ++ mid) ++ big_endian_tuple l c ds ++ firstn q post)
    by now rewrite <- !app_assoc.
  destruct (cregex_iterator_reaches l c ds (firstn q post) Hl Hc Hds
              (length (lit "[" ++ mid)) (lit "[" ++ mid) (Nat.le_refl _))
    as (ms1 & ms2 & Hiter).
  rewrite Hiter.
  destruct (mapM_parse_tuple_big_endian l c ds ms1 ms2) as [w Hw].
  rewrite Hw. apply throws_Throw.
Qed.

(** X26. Let the value of ['descr'] (the text after the first occurrence of
    ['descr': ]) be either a single-field descriptor ['>cN'], or a list that
    holds, before its first closing bracket, a tuple [('label', '>cN')] whose
    label is a non-empty run of letters, digits and underscores; here [c] is
    a character of [[a-zA-z]] (in a tuple not the closing bracket) and [N] a
    non-empty run of digits.  Then [parse_npy_dict] throws. *)
Theorem parse_npy_dict_big_endian (dict : bytes) (p : nat) :
  find desc dict = Some p ->
  (exists c ds R,
      skipn p dict = desc ++ big_endian_descr c ds ++ R
      /\ is_code c = true /\ digit_run ds)
  \/ (exists mid l c ds post,
         skipn p dict
         = desc ++ lit "[" ++ mid ++ big_endian_tuple l c ds ++ post
         /\ forallb not_bracket mid = true /\ word_label l
         /\ is_code c = true /\ not_bracket c = true /\ digit_run ds) ->
  throws (parse_npy_dict dict).
Proof.
  intros Hfind Hdescr. apply parse_npy_dict_descr_throws.
  - intros ->. destruct p; discriminate Hfind.
  - destruct Hdescr as [(c & ds & R & Hskip & Hc & Hds)
                       | (mid & l & c & ds & post & Hskip & Hmid & Hl & Hc & Hcb & Hds)].
    + eapply parse_descr_big_endian_single; eauto.
    + eapply parse_descr_big_endian_tuple; eauto.
Qed.

Lemma parse_npy_dict_big_endian_witness :
  throws (parse_npy_dict big_endian_plain_dict)
  /\ throws (parse_npy_dict big_endian_struct_dict).
Proof.
  split.
  - apply (parse_npy_dict_big_endian big_endian_plain_dict 1); [reflexivity|].
    left. exists "i"%char, (lit "4"),
      (lit ", 'fortran_order': False, 'shape': (3,), }" ++ [newline]).
    split; [reflexivity|]. split; [reflexivity|]. split; [discriminate | reflexivity].
  - apply (parse_npy_dict_big_endian big_endian_struct_dict 1); [reflexivity|].
    right. exists (lit "('a', '<i4'), "), (lit "c"), "f"%char, (lit "8"),
      (lit "], 'fortran_order': True, 'shape': (3, 2), }" ++ [newline]).
    split; [reflexivity|]. split; [reflexivity|].
    split; [split; [discriminate | reflexivity]|].
    split; [reflexivity|]. split; [reflexivity|].
    split; [discriminate | reflexivity].
Defined.

(** C7. A descriptor list whose first tuple [('a b', '>i4')] carries the
    big-endian marker is parsed without error: the tuple pattern wants a
    label of word characters, so the loop that rejects the marker never sees
    this tuple, and the header is accepted with the field [c] alone, where
    the claim has the parse fail for any tuple with the marker. *)
Theorem parse_npy_dict_spaced_big_endian :
  parse_npy_dict spaced_big_endian_dict
  = Ok {| hdr_word_sizes := [4]; hdr_data_types := ["i"%char];
          hdr_labels := [lit "c"]; hdr_shape := [3]; hdr_memory_order := C |}
  /\ exists pre post,
      spaced_big_endian_dict
      = pre ++ lit "('a b', '>i4')" ++ post.
Proof.
  split; [vm_compute; reflexivity|].
  exists (lit "{'descr': ["),
    (lit ", ('c', '<i4')], 'fortran_order': False, 'shape': (3,), }"
       ++ [newline]).
  reflexivity.
Qed.

(** ** Appending *)

Lemma npy_save_append_checked (fname : string) (T : value_type)
    (dict payload : bytes)
    (h : parsed_header) (s0 t0 : Z) (rest : list Z) (ws : list Z)
    (dt : list ascii) (order : MemoryOrder) :
  Z.of_nat (length dict) < 65536 ->
  parse_npy_dict dict = Ok h ->
  hdr_word_sizes h = sizeof T :: ws ->
  hdr_data_types h = map_type T :: dt ->
  hdr_memory_order h = order ->
  hdr_shape h = t0 :: rest ->
  npy_save_append fname T ((preamble dict ++ dict) ++ payload) (s0 :: rest) order
  = Ok ({| content := (preamble dict ++ dict) ++ payload;
           pos := length (preamble dict ++ dict); good := true |},
        grow order (t0 :: rest) (s0 :: rest)).
Proof.
  intros Hlen Hparse Hws Hdt Hmo Hshape. unfold npy_save_append.
  rewrite (parse_npy_header_generated _ _ _ Hlen Hparse). cbn [bind].
  rewrite Hws, Hdt, Hmo, Hshape. cbn [at0 bind length].
  rewrite Z.eqb_refl, Ascii.eqb_refl, Nat.eqb_refl. cbn [negb].
  replace (MemoryOrder_eqb order order) with true by (destruct order; reflexivity).
  cbn [negb].
  replace (equal3 Z.eqb rest rest) with true; [reflexivity|].
  symmetry. unfold equal3. clear. induction rest as [|x rest IH]; [reflexivity|].
  cbn [combine forallb fst snd]. now rewrite Z.eqb_refl, IH.
Qed.

(** The file after an append that passes the checks: the regenerated header
    is written over the start of the old file, whatever its length, and the
    new data follows the old bytes. *)
Lemma npy_save_append_written (creatable : string -> bool)
    (files : gmap string bytes) (fname : string) (T : value_type)
    (contiguous : bool) (start : list bytes) (dict payload header' : bytes)
    (h : parsed_header) (s0 t0 : Z) (rest : list Z) (ws : list Z)
    (dt : list ascii) (order : MemoryOrder) :
  files !! fname = Some ((preamble dict ++ dict) ++ payload) ->
  Z.of_nat (length dict) < 65536 ->
  parse_npy_dict dict = Ok h ->
  hdr_word_sizes h = sizeof T :: ws ->
  hdr_data_types h = map_type T :: dt ->
  hdr_memory_order h = order ->
  hdr_shape h = t0 :: rest ->
  0 < sizeof T < 2 ^ 31 -> 0 <= product (s0 :: rest) < 2 ^ 31 ->
  Z.of_nat (length start) = product (s0 :: rest) ->
  Forall (fun e : bytes => Z.of_nat (length e) = sizeof T) start ->
  create_npy_header LittleEndian (grow order (t0 :: rest) (s0 :: rest))
    (map_type T) (sizeof T) order = Ok header' ->
  npy_save creatable LittleEndian files fname T contiguous start (s0 :: rest)
    "a" order
  = Ok (<[fname := (header'
                      ++ skipn (length header') ((preamble dict ++ dict) ++ payload))
                     ++ concat start]> files).
Proof.
  intros Hfile Hlen Hparse Hws Hdt Hmo Hshape HT Hprod Hstart Hsized Hheader.
  unfold npy_save. rewrite (is_open_exists creatable _ _ _ Hfile).
  change (String.eqb "a" "a") with true. rewrite Hfile.
  rewrite (npy_save_append_checked fname T dict payload h s0 t0 rest ws dt order)
    by assumption.
  cbn [bind]. rewrite (int_of_size_t_small (sizeof T) ltac:(lia)), Hheader.
  cbn [bind]. rewrite (accumulate_multiplies_int_product _ Hprod).
  set (file := (preamble dict ++ dict) ++ payload).
  replace (seekp_end (stream_write header'
             (seekp_beg {| content := file; pos := length (preamble dict ++ dict);
                           good := true |})))
    with {| content := header' ++ skipn (length header') file;
            pos := length (header' ++ skipn (length header') file);
            good := true |} by reflexivity.
  rewrite write_payload; [reflexivity | apply at_end_written | exact Hsized
                          | exact Hstart | lia | unfold SIZE_MOD; nia].
Qed.

(** Loading in memory a file that may be shorter than its header says: the
    missing bytes are the zeros of the value-initialised buffer. *)
Lemma npy_load_zero_filled (alignment : Z) (files : gmap string bytes)
    (fname : string) (dict payload : bytes) (h : parsed_header) :
  Z.of_nat (length dict) < 65536 ->
  parse_npy_dict dict = Ok h ->
  (accumulate_plus (hdr_word_sizes h) * accumulate_multiplies (hdr_shape h))
    mod SIZE_MOD < 2 ^ 63 ->
  npy_load alignment (<[fname := (preamble dict ++ dict) ++ payload]> files)
    fname false
  = Ok (make_NpyArray (hdr_shape h) (hdr_word_sizes h) (hdr_labels h)
          (hdr_memory_order h)
          (let n := Z.to_nat ((accumulate_plus (hdr_word_sizes h)
                               * accumulate_multiplies (hdr_shape h))
                              mod SIZE_MOD) in
           zero_filled n (firstn n payload))).
Proof.
  intros Hdict Hparse Hsmall. unfold npy_load.
  rewrite lookup_insert_eq.
  rewrite (parse_npy_header_generated _ _ _ Hdict Hparse). cbn [bind negb].
  rewrite read_into_allocated by exact Hsmall.
  unfold stream_read. cbn [good pos content fst bind]. now rewrite skipn_exact.
Qed.

(** ** An append that lengthens the header *)

Lemma header_9 :
  create_npy_header LittleEndian [9; 10000; 1000] (map_type uint8_t)
    (sizeof uint8_t) C = Ok (preamble dict_9 ++ dict_9)
  /\ length (preamble dict_9 ++ dict_9) = 80%nat
  /\ parse_npy_dict dict_9
     = Ok {| hdr_word_sizes := [1]; hdr_data_types := ["u"%char];
             hdr_labels := []; hdr_shape := [9; 10000; 1000];
             hdr_memory_order := C |}.
Proof. repeat split; vm_compute; reflexivity. Qed.

Lemma header_10 :
  create_npy_header LittleEndian (grow C [9; 10000; 1000] [1; 10000; 1000])
    (map_type uint8_t) (sizeof uint8_t) C = Ok (preamble dict_10 ++ dict_10)
  /\ length (preamble dict_10 ++ dict_10) = 96%nat
  /\ parse_npy_dict dict_10
     = Ok {| hdr_word_sizes := [1]; hdr_data_types := ["u"%char];
             hdr_labels := []; hdr_shape := [10; 10000; 1000];
             hdr_memory_order := C |}.
Proof. repeat split; vm_compute; reflexivity. Qed.

Lemma append_header_growth (start1 start2 : list bytes) :
  Z.of_nat (length start1) = 90000000 ->
  Z.of_nat (length start2) = 10000000 ->
  Forall (fun e : bytes => Z.of_nat (length e) = 1) start1 ->
  Forall (fun e : bytes => Z.of_nat (length e) = 1) start2 ->
  exists files1 files2 a,
    npy_save (creates ["big.npy"]) LittleEndian ∅ "big.npy" uint8_t true
      start1 [9; 10000; 1000] "w" RowMajor = Ok files1
    /\ npy_save (creates ["big.npy"]) LittleEndian files1 "big.npy" uint8_t
         true start2 [1; 10000; 1000] "a" RowMajor = Ok files2
    /\ npy_load 4096 files2 "big.npy" false = Ok a
    /\ shape a = [10; 10000; 1000]
    /\ buffer a = skipn 16 (concat start1) ++ concat start2 ++ repeat zero 16.
Proof.
  intros Hlen1 Hlen2 Hsized1 Hsized2.
  destruct header_9 as (Hh9 & Hl9 & Hp9).
  destruct header_10 as (Hh10 & Hl10 & Hp10).
  pose proof (length_concat_sized _ _ Hsized1) as Hc1.
  pose proof (length_concat_sized _ _ Hsized2) as Hc2.
  assert (Hd9 : Z.of_nat (length dict_9) < 65536) by (vm_compute; reflexivity).
  assert (Hd10 : Z.of_nat (length dict_10) < 65536) by (vm_compute; reflexivity).
  eexists. eexists. eexists.
  split.
  { apply (npy_save_write (creates ["big.npy"]) ∅ "big.npy"%string uint8_t true
             start1 [9; 10000; 1000] C (preamble dict_9 ++ dict_9));
      [reflexivity | cbn; lia | cbn; lia | exact Hlen1 | exact Hsized1
       | exact Hh9]. }
  split.
  { eapply (npy_save_append_written (creates ["big.npy"]) _ "big.npy"%string
             uint8_t true start2 dict_9
             (concat start1) (preamble dict_10 ++ dict_10) _ 1 9 [10000; 1000]
             [] [] C);
      [apply lookup_insert_eq | exact Hd9 | exact Hp9 | reflexivity | reflexivity
       | reflexivity | reflexivity | cbn; lia | cbn; lia | exact Hlen2
       | exact Hsized2 | exact Hh10]. }
  assert (Hfile : ((preamble dict_10 ++ dict_10)
                     ++ skipn (length (preamble dict_10 ++ dict_10))
                          ((preamble dict_9 ++ dict_9) ++ concat start1))
                    ++ concat start2
                  = (preamble dict_10 ++ dict_10)
                      ++ (skipn 16 (concat start1) ++ concat start2)).
  { rewrite <- app_assoc.
    replace (skipn (length (preamble dict_10 ++ dict_10))
               ((preamble dict_9 ++ dict_9) ++ concat start1))
      with (skipn 16 (concat start1)); [reflexivity|].
    rewrite skipn_app, (skipn_all2 (preamble dict_9 ++ dict_9)) by lia.
    rewrite Hl10, Hl9. reflexivity. }
  rewrite Hfile.
  rewrite (npy_load_zero_filled 4096 _ "big.npy"%string dict_10 _ _ Hd10 Hp10)
    by (vm_compute; reflexivity).
  split; [reflexivity|]. split; [reflexivity|].
  cbn [buffer make_NpyArray hdr_word_sizes hdr_shape].
  replace ((accumulate_plus [1] * accumulate_multiplies [10; 10000; 1000])
             mod SIZE_MOD) with 100000000 by (vm_compute; reflexivity).
  cbv zeta. unfold zero_filled.
  assert (Hlen : length (skipn 16 (concat start1) ++ concat start2)
                 = (Z.to_nat 100000000 - 16)%nat).
  { rewrite length_app, length_skipn. lia. }
  rewrite firstn_all2 by lia. rewrite Hlen.
  replace (Z.to_nat 100000000 - (Z.to_nat 100000000 - 16))%nat with 16%nat by lia.
  now rewrite <- app_assoc.
Qed.

Lemma Forall_repeat_sized (x : bytes) (n : nat) :
  Forall (fun e : bytes => Z.of_nat (length e) = Z.of_nat (length x)) (repeat x n).
Proof.
  apply List.Forall_forall. intros e He. apply repeat_spec in He. now subst.
Qed.

Lemma concat_repeat_snoc (c : ascii) (n : nat) :
  concat (repeat [c] (S n)) = concat (repeat [c] n) ++ [c].
Proof. now rewrite repeat_snoc, concat_app. Qed.

(** C3. Appending a [(1, 10000, 1000)] array to a [(9, 10000, 1000)] array
    of [uint8_t] in RowMajor order turns the 9 of the header into 10: the
    regenerated header is 96 bytes long where the old one had 80, so writing
    it in place overwrites the first 16 payload bytes.  The file loads with
    shape [(10, 10000, 1000)], but its payload is the first array without its
    first 16 bytes, then the second array, then 16 bytes that were never
    read; it is not the concatenation of the two source arrays. *)
Theorem npy_save_append_header_growth :
  exists files1 files2 a,
    npy_save (creates ["big.npy"]) LittleEndian ∅ "big.npy" uint8_t true
      big_first [9; 10000; 1000] "w" RowMajor = Ok files1
    /\ npy_save (creates ["big.npy"]) LittleEndian files1 "big.npy" uint8_t
         true big_second [1; 10000; 1000] "a" RowMajor = Ok files2
    /\ npy_load 4096 files2 "big.npy" false = Ok a
    /\ shape a = [10; 10000; 1000]
    /\ buffer a
       = skipn 16 (concat big_first) ++ concat big_second ++ repeat zero 16
    /\ buffer a <> concat big_first ++ concat big_second.
Proof.
  destruct (append_header_growth big_first big_second)
    as (files1 & files2 & a & H1 & H2 & H3 & H4 & H5).
  - unfold big_first. rewrite repeat_length. lia.
  - unfold big_second. rewrite repeat_length. lia.
  - apply (Forall_repeat_sized [chr 65]).
  - apply (Forall_repeat_sized [chr 66]).
  - exists files1, files2, a. repeat (split; [assumption|]).
    rewrite H5. unfold big_second.
    replace (Z.to_nat 10000000) with (S (Z.to_nat 9999999)) by lia.
    rewrite concat_repeat_snoc.
    change (repeat zero 16) with (repeat zero 15 ++ [zero]).
    rewrite !app_assoc. intros Heq. apply app_inj_tail in Heq.
    destruct Heq as [_ Heq]. vm_compute in Heq. discriminate Heq.
Qed.

(** ** What the append checks reject *)

Lemma equal3_neq (a b : list Z) :
  length a = length b -> a <> b -> equal3 Z.eqb a b = false.
Proof.
  revert b. induction a as [|x a IH]; intros [|y b] Hlen Hne;
    cbn [length] in Hlen; try discriminate; [congruence|].
  unfold equal3. cbn [combine forallb fst snd].
  destruct (Z.eqb_spec x y) as [->|Hxy]; [|reflexivity].
  cbn [andb]. apply IH; [lia | congruence].
Qed.

(** A mismatch with the width or the type code of the first field of the
    file, or in the memory order, the rank or a dimension behind the first,
    makes the append branch throw, before anything is written. *)
Lemma npy_save_append_mismatch_throws (fname : string) (T : value_type)
    (file : bytes) (shape0 : list Z) (order : MemoryOrder) (h : parsed_header)
    (fs : fstream) (w : Z) (ws : list Z) (d : ascii) (dt : list ascii) :
  parse_npy_header (open_existing file) = Ok (h, fs) ->
  hdr_word_sizes h = w :: ws -> hdr_data_types h = d :: dt ->
  sizeof T <> w \/ map_type T <> d \/ order <> hdr_memory_order h
  \/ length shape0 <> length (hdr_shape h) \/ tl shape0 <> tl (hdr_shape h) ->
  throws (npy_save_append fname T file shape0 order).
Proof.
  intros Hparse Hws Hdt Hmis. unfold npy_save_append.
  rewrite Hparse. cbn [bind]. rewrite Hws, Hdt. cbn [bind at0].
  destruct (Z.eqb_spec (sizeof T) w) as [Hw|Hw]; cbn [negb];
    [|apply throws_Throw].
  destruct (Ascii.eqb_spec (map_type T) d) as [Hd|Hd]; cbn [negb];
    [|apply throws_Throw].
  destruct (MemoryOrder_eqb order (hdr_memory_order h)) eqn:Ho; cbn [negb];
    [|apply throws_Throw].
  destruct (Nat.eqb_spec (length (hdr_shape h)) (length shape0)) as [Hr|Hr];
    cbn [negb]; [|apply throws_Throw].
  assert (Htl : tl shape0 <> tl (hdr_shape h)).
  { destruct Hmis as [?|[?|[Hm|[?|?]]]]; try congruence.
    exfalso. apply Hm. destruct order, (hdr_memory_order h);
      try reflexivity; discriminate Ho. }
  destruct shape0 as [|s0 rest], (hdr_shape h) as [|t0 trest];
    cbn [length tl] in *; try discriminate; [congruence|].
  rewrite equal3_neq; [apply throws_Throw | lia | exact Htl].
Qed.

(** The append branch of the structured [npy_save] never returns: its rank
    check compares the rank of the file with that of an empty vector. *)
Lemma npy_save_struct_append_never_returns (fname : string) (Tup : tuple_type)
    (file : bytes) (order : MemoryOrder) :
  ~ returns (npy_save_struct_append fname Tup file order).
Proof.
  intros [r Hr]. unfold npy_save_struct_append in Hr.
  destruct (parse_npy_header (open_existing file)) as [[h fs]| |];
    cbn [bind] in Hr; try discriminate.
  repeat match type of Hr with
         | (if ?c then _ else _) = _ => destruct c; try discriminate
         end.
Qed.

Lemma npy_save_struct_append_fails (creatable : string -> bool)
    (host : byte_order) (files : gmap string bytes) (fname : string)
    (Tup : tuple_type) (labels0 : list bytes) (first : list (list bytes))
    (shape0 : list Z) (order : MemoryOrder) (file : bytes) :
  files !! fname = Some file ->
  ~ returns (npy_save_struct creatable host files fname Tup labels0 first
               shape0 "a" order).
Proof.
  intros Hfile [r Hr]. unfold npy_save_struct in Hr.
  destruct (negb (length labels0 =? length Tup)%nat); [discriminate|].
  rewrite Hfile in Hr. cbn [String.eqb Ascii.eqb Bool.eqb] in Hr.
  pose proof (npy_save_struct_append_never_returns fname Tup file order) as Hn.
  destruct (npy_save_struct_append fname Tup file order) as [o| |];
    cbn [bind] in Hr; try discriminate.
  apply Hn. now exists o.
Qed.

(** [npy_save] in mode ["a"] on an existing file with such a mismatch throws;
    the files are as they were. *)
Lemma npy_save_append_rejects (creatable : string -> bool) (host : byte_order)
    (files : gmap string bytes) (fname : string) (T : value_type)
    (contiguous : bool) (start : list bytes) (file : bytes) (shape0 : list Z)
    (order : MemoryOrder) (h : parsed_header) (fs : fstream) (w : Z)
    (ws : list Z) (d : ascii) (dt : list ascii) :
  files !! fname = Some file ->
  parse_npy_header (open_existing file) = Ok (h, fs) ->
  hdr_word_sizes h = w :: ws -> hdr_data_types h = d :: dt ->
  sizeof T <> w \/ map_type T <> d \/ order <> hdr_memory_order h
  \/ length shape0 <> length (hdr_shape h) \/ tl shape0 <> tl (hdr_shape h) ->
  throws (npy_save creatable host files fname T contiguous start shape0 "a"
            order).
Proof.
  intros Hfile Hparse Hws Hdt Hmis. unfold npy_save. rewrite Hfile.
  cbn [String.eqb Ascii.eqb Bool.eqb].
  destruct (npy_save_append_mismatch_throws fname T file shape0 order h fs w ws
              d dt Hparse Hws Hdt Hmis) as [what Hthrow].
  rewrite Hthrow. apply throws_Throw.
Qed.

(** ** Pulls behind the header *)

(** Once a first pull has taken the whole header, pulls narrower than an
    element deliver the payload in order: each element goes through the side
    buffer. *)
Lemma pull_all_narrow_chunks :
  exists p,
    pull_all (npz_save_callback uint32_t [3]) [80; 3; 3; 3; 3; 3; 3; 3; 3; 3]
      three_words_parameters
    = Ok (npyheader three_words_parameters ++ concat three_words, p)
    /\ elements_written_total p = 3 /\ buffer_size p = 0.
Proof. eexists. split; [vm_compute; reflexivity | split; reflexivity]. Qed.

(** The pull that moves an element into the side buffer hands no byte to the
    sink although elements are left. *)
Lemma npzwrite_source_read_empty_pull :
  exists p1 p2,
    npzwrite_source_read (npz_save_callback uint32_t [3]) 80
      three_words_parameters = Ok (npyheader three_words_parameters, p1)
    /\ npzwrite_source_read (npz_save_callback uint32_t [3]) 3 p1 = Ok ([], p2)
    /\ buffer_size p2 = 4 /\ elements_written_total p2 = 1.
Proof.
  eexists. eexists. split; [vm_compute; reflexivity|].
  split; [vm_compute; reflexivity | split; reflexivity].
Qed.

(** ** Appending under a header of unchanged length *)

(** Writing [(a1, rest)] and appending [(a2, rest)] in RowMajor order loads
    as one array of shape [(a1 + a2, rest)] holding both payloads, as long
    as the header of the combined shape is as long as the first one. *)
Lemma npy_save_append_round_trip (creatable : string -> bool) (alignment : Z)
    (files : gmap string bytes) (fname : string) (T : value_type)
    (contiguous : bool) (start1 start2 : list bytes) (a1 a2 : Z)
    (rest : list Z) (header1 header2 : bytes) :
  is_open creatable files fname = true ->
  0 < sizeof T < 2 ^ 31 ->
  Forall int_range (a1 :: rest) -> Forall int_range (a2 :: rest) ->
  int_range (a1 + a2) -> product ((a1 + a2) :: rest) < 2 ^ 31 ->
  Z.of_nat (length start1) = product (a1 :: rest) ->
  Z.of_nat (length start2) = product (a2 :: rest) ->
  Forall (fun e : bytes => Z.of_nat (length e) = sizeof T) start1 ->
  Forall (fun e : bytes => Z.of_nat (length e) = sizeof T) start2 ->
  create_npy_header LittleEndian (a1 :: rest) (map_type T) (sizeof T) RowMajor
  = Ok header1 ->
  create_npy_header LittleEndian ((a1 + a2) :: rest) (map_type T) (sizeof T)
    RowMajor = Ok header2 ->
  length header2 = length header1 -> Z.of_nat (length header1) < 65546 ->
  exists files1 files2 a,
    npy_save creatable LittleEndian files fname T contiguous start1
      (a1 :: rest) "w" RowMajor = Ok files1
    /\ npy_save creatable LittleEndian files1 fname T contiguous start2
         (a2 :: rest) "a" RowMajor = Ok files2
    /\ npy_load alignment files2 fname false = Ok a
    /\ round_trip a ((a1 + a2) :: rest) [sizeof T] [] RowMajor
         (concat start1 ++ concat start2).
Proof.
  intros Hopen HT Hs1 Hs2 Hsum Hprod Hlen1 Hlen2 Hsized1 Hsized2 Hh1 Hh2 Hsame
    Hshort.
  assert (Hs12 : Forall int_range ((a1 + a2) :: rest))
    by (constructor; [exact Hsum | now inversion Hs1]).
  assert (Hrest : 0 <= product rest)
    by (apply product_nonneg; now inversion Hs1).
  assert (Ha1 : 0 <= a1 <= INT_MAX) by now inversion Hs1.
  assert (Ha2 : 0 <= a2 <= INT_MAX) by now inversion Hs2.
  cbn [product fold_right] in Hprod, Hlen1, Hlen2. fold (product rest) in *.
  destruct (plain_dict_text LittleEndian a1 rest (map_type T) (sizeof T) RowMajor
              ltac:(lia)) as [k1 Hk1].
  destruct (plain_dict_text LittleEndian (a1 + a2) rest (map_type T) (sizeof T)
              RowMajor ltac:(lia)) as [k2 Hk2].
  set (dict1 := plain_head LittleEndian (map_type T) (sizeof T)
                  ++ dict_tail RowMajor a1 rest k1) in *.
  set (dict2 := plain_head LittleEndian (map_type T) (sizeof T)
                  ++ dict_tail RowMajor (a1 + a2) rest k2) in *.
  assert (E1 : header1 = preamble dict1 ++ dict1) by congruence.
  assert (E2 : header2 = preamble dict2 ++ dict2) by congruence.
  subst header1 header2.
  assert (Hd1 : Z.of_nat (length dict1) < 65536)
    by (rewrite length_app, length_preamble in Hshort; lia).
  assert (Hd2 : Z.of_nat (length dict2) < 65536)
    by (rewrite <- Hsame, length_app, length_preamble in Hshort; lia).
  pose proof (length_concat_sized _ _ Hsized1) as Hc1.
  pose proof (length_concat_sized _ _ Hsized2) as Hc2.
  eexists. eexists. eexists.
  split.
  { apply (npy_save_write creatable files fname T contiguous start1 (a1 :: rest)
             RowMajor (preamble dict1 ++ dict1));
      [exact Hopen | exact HT | cbn [product fold_right]; fold (product rest); nia
       | cbn [product fold_right]; exact Hlen1 | exact Hsized1 | exact Hk1]. }
  split.
  { eapply (npy_save_append_written creatable _ fname T contiguous start2 dict1
              (concat start1) (preamble dict2 ++ dict2) _ a2 a1 rest [] []
              RowMajor);
      [apply lookup_insert_eq | exact Hd1
       | exact (parse_generated_plain T a1 rest RowMajor k1 HT Hs1)
       | reflexivity | reflexivity | reflexivity | reflexivity | exact HT
       | cbn [product fold_right]; fold (product rest); nia
       | cbn [product fold_right]; exact Hlen2 | exact Hsized2 |].
    unfold RowMajor in *. cbn [grow hd]. unfold SIZE_MOD.
    rewrite Z.mod_small by (unfold INT_MAX in *; lia).
    exact Hk2. }
  assert (Hfile : ((preamble dict2 ++ dict2)
                     ++ skipn (length (preamble dict2 ++ dict2))
                          ((preamble dict1 ++ dict1) ++ concat start1))
                    ++ concat start2
                  = (preamble dict2 ++ dict2) ++ (concat start1 ++ concat start2)).
  { rewrite Hsame, skipn_exact. now rewrite <- app_assoc. }
  rewrite Hfile. split.
  - apply (npy_load_written alignment _ fname false dict2
             (concat start1 ++ concat start2) _ Hd2
             (parse_generated_plain T (a1 + a2) rest RowMajor k2 HT Hs12)).
    + cbn [hdr_word_sizes hdr_shape].
      rewrite accumulate_plus_sum, accumulate_multiplies_product.
      cbn [sum_of product fold_right]. fold (product rest). rewrite Z.add_0_r.
      unfold SIZE_MOD.
      rewrite (Z.mod_small (sizeof T)), (Z.mod_small ((a1 + a2) * product rest))
        by lia.
      rewrite Z.mod_small by nia. rewrite length_app. lia.
    + rewrite length_app. nia.
    + discriminate.
  - repeat split.
Qed.

Example npy_save_append_round_trip_small :
  exists files1 files2 a,
    npy_save (creates ["arr.npy"]) LittleEndian ∅ "arr.npy" uint8_t true
      [lit "a"; lit "b"; lit "c"; lit "d"; lit "e"; lit "f"] [2; 3] "w"
      RowMajor = Ok files1
    /\ npy_save (creates ["arr.npy"]) LittleEndian files1 "arr.npy" uint8_t
         true [lit "g"; lit "h"; lit "i"] [1; 3] "a" RowMajor = Ok files2
    /\ npy_load 4096 files2 "arr.npy" false = Ok a
    /\ round_trip a [3; 3] [1] [] RowMajor (lit "abcdefghi").
Proof.
  eapply (npy_save_append_round_trip (creates ["arr.npy"]) 4096 ∅ "arr.npy"
            uint8_t true
            [lit "a"; lit "b"; lit "c"; lit "d"; lit "e"; lit "f"]
            [lit "g"; lit "h"; lit "i"] 2 1 [3]);
    try reflexivity;
    try (repeat constructor; unfold int_range, INT_MAX; cbn; lia);
    try (cbn; lia).
Qed.

(** * Further properties of the library *)

(** ** Headers written and read back *)

Lemma parse_npy_header_buffer_generated (dict trailing : bytes)
    (h : parsed_header) :
  Z.of_nat (length dict) < 65536 ->
  parse_npy_dict dict = Ok h ->
  parse_npy_header_buffer ((preamble dict ++ dict) ++ trailing) = Ok h.
Proof.
  intros Hlen Hparse.
  destruct (preamble_fields dict) as (_ & Hmajor & Hminor & Hfield).
  rewrite Z.mod_small in Hfield by lia.
  unfold parse_npy_header_buffer.
  assert (Hnth : forall i, (i < 10)%nat ->
            nth_error ((preamble dict ++ dict) ++ trailing) i
            = Some (nth i (preamble dict) zero)).
  { intros i Hi. rewrite <- app_assoc, nth_error_app1 by (rewrite length_preamble; lia).
    apply nth_error_nth'. rewrite length_preamble. lia. }
  rewrite !Hnth by lia. rewrite Hmajor, Hminor, Hfield, Nat2Z.id.
  cbn [Z.eqb Pos.eqb andb negb].
  destruct (length ((preamble dict ++ dict) ++ trailing) <? 10 + length dict)%nat
    eqn:E.
  - apply Nat.ltb_lt in E. rewrite !length_app, length_preamble in E. lia.
  - rewrite <- app_assoc.
    replace (skipn 10 (preamble dict ++ dict ++ trailing)) with (dict ++ trailing)
      by (symmetry; apply (skipn_exact (preamble dict))).
    now rewrite firstn_exact.
Qed.

(** X1. A header written by the single-type [create_npy_header] on a
    little-endian host is read back by the raw-buffer [parse_npy_header]:
    one word size, one type code, no label, the shape and the memory order
    that were written.  The dimensions have to fit an [int], the width is a
    positive [int] and the dictionary fits its 16-bit length field. *)
Theorem create_npy_header_parse_buffer (T : value_type) (s0 : Z)
    (rest : list Z) (order : MemoryOrder) (header : bytes) :
  0 < sizeof T < 2 ^ 31 -> Forall int_range (s0 :: rest) ->
  create_npy_header LittleEndian (s0 :: rest) (map_type T) (sizeof T) order
  = Ok header ->
  Z.of_nat (length header) < 65546 ->
  parse_npy_header_buffer header
  = Ok {| hdr_word_sizes := [sizeof T]; hdr_data_types := [map_type T];
          hdr_labels := []; hdr_shape := s0 :: rest;
          hdr_memory_order := order |}.
Proof.
  intros HT Hshape Hheader Hshort.
  destruct (plain_dict_text LittleEndian s0 rest (map_type T) (sizeof T) order
              ltac:(lia)) as [k Hk].
  set (dict := plain_head LittleEndian (map_type T) (sizeof T)
                  ++ dict_tail order s0 rest k) in *.
  assert (E : header = preamble dict ++ dict) by congruence. subst header.
  rewrite length_app, length_preamble in Hshort.
  rewrite <- (app_nil_r (preamble _ ++ _)).
  apply parse_npy_header_buffer_generated; [lia|].
  now apply parse_generated_plain.
Qed.

Lemma create_npy_header_parse_buffer_witness :
  parse_npy_header_buffer
    (get_or [] (create_npy_header LittleEndian [8; 4; 2] "f"%char 8 Fortran))
  = Ok {| hdr_word_sizes := [8]; hdr_data_types := ["f"%char];
          hdr_labels := []; hdr_shape := [8; 4; 2];
          hdr_memory_order := Fortran |}.
Proof.
  apply (create_npy_header_parse_buffer double_t 8 [4; 2] Fortran).
  - cbn. lia.
  - repeat constructor; unfold INT_MAX; lia.
  - reflexivity.
  - vm_compute. reflexivity.
Defined.

(** X2. A header written by the structured [create_npy_header] on a
    little-endian host, followed by any payload, is read back by the stream
    [parse_npy_header]: the widths, type codes and labels of the fields, the
    shape and the memory order; the stream is left at the first payload
    byte.  The labels have to be non-empty runs of word characters. *)
Theorem create_npy_header_parse_stream (labels0 : list bytes)
    (Tup : tuple_type) (s0 : Z) (rest : list Z) (order : MemoryOrder)
    (header payload : bytes) :
  Tup <> [] -> length labels0 = length Tup ->
  Forall word_label labels0 -> Forall (fun T => 0 < sizeof T < 2 ^ 31) Tup ->
  Forall int_range (s0 :: rest) ->
  create_npy_header_struct LittleEndian (s0 :: rest) labels0
    (tuple_data_types Tup) (element_sizes Tup) order = Ok header ->
  Z.of_nat (length header) < 65546 ->
  parse_npy_header (open_existing (header ++ payload))
  = Ok ({| hdr_word_sizes := element_sizes Tup;
           hdr_data_types := tuple_data_types Tup;
           hdr_labels := labels0; hdr_shape := s0 :: rest;
           hdr_memory_order := order |},
        {| content := header ++ payload; pos := length header; good := true |}).
Proof.
  intros HTup Hlabels Hwords HT Hshape Hheader Hshort.
  assert (Hl2 : length labels0 = length (tuple_data_types Tup))
    by (unfold tuple_data_types; now rewrite length_map).
  assert (Hl3 : length (tuple_data_types Tup) = length (element_sizes Tup))
    by (unfold tuple_data_types, element_sizes; now rewrite !length_map).
  destruct (struct_dict_text LittleEndian s0 rest labels0 (tuple_data_types Tup)
              (element_sizes Tup) order Hl2 Hl3) as [k Hk].
  set (dict := struct_head LittleEndian
                  (zip3 labels0 (tuple_data_types Tup) (element_sizes Tup))
                  ++ dict_tail order s0 rest k) in *.
  assert (E : header = preamble dict ++ dict) by congruence. subst header.
  rewrite length_app, length_preamble in Hshort.
  apply parse_npy_header_generated; [lia|].
  now apply parse_generated_struct.
Qed.

Lemma create_npy_header_parse_stream_witness :
  parse_npy_header
    (open_existing
       (get_or [] (create_npy_header_struct LittleEndian [3] [lit "a"; lit "b_2"]
                     ["i"%char; "f"%char] [4; 8] C)
          ++ lit "payload"))
  = Ok ({| hdr_word_sizes := [4; 8]; hdr_data_types := ["i"%char; "f"%char];
           hdr_labels := [lit "a"; lit "b_2"]; hdr_shape := [3];
           hdr_memory_order := C |},
        {| content :=
             get_or [] (create_npy_header_struct LittleEndian [3]
                          [lit "a"; lit "b_2"] ["i"%char; "f"%char] [4; 8] C)
               ++ lit "payload";
           pos := 96; good := true |}).
Proof.
  apply (create_npy_header_parse_stream [lit "a"; lit "b_2"] [int32_t; double_t]
           3 [] C
           (get_or [] (create_npy_header_struct LittleEndian [3]
                         [lit "a"; lit "b_2"] ["i"%char; "f"%char] [4; 8] C))
           (lit "payload")).
  - discriminate.
  - reflexivity.
  - repeat constructor; discriminate.
  - repeat constructor; cbn; lia.
  - repeat constructor; unfold INT_MAX; lia.
  - reflexivity.
  - vm_compute. reflexivity.
Defined.

(** ** Files that are not NPY files *)

Lemma is_prefix_firstn (p s : bytes) :
  is_prefix p s = true -> firstn (length p) s = p.
Proof.
  revert s. induction p as [|x p IH]; intros [|y s] H; try reflexivity;
    cbn [is_prefix] in H; [discriminate|].
  apply andb_prop in H. destruct H as [Hxy Hp].
  apply Ascii.eqb_eq in Hxy. subst y. cbn [length firstn]. now rewrite IH.
Qed.

(** X3. [npy_load] throws, in memory or memory-mapped, for every file of at
    least 10 bytes that does not begin with the magic string followed by the
    version bytes 1 and 0. *)
Theorem npy_load_rejects_foreign_file (alignment : Z)
    (files : gmap string bytes) (fname : string) (memory_mapped : bool)
    (file : bytes) :
  files !! fname = Some file -> (10 <= length file)%nat ->
  firstn 6 file <> npy_magic_string
  \/ nth 6 file zero <> chr 1 \/ nth 7 file zero <> chr 0 ->
  throws (npy_load alignment files fname memory_mapped).
Proof.
  intros Hfile Hlen Hbad. unfold npy_load. rewrite Hfile.
  assert (Hread : stream_read 10 (open_existing file)
                  = (firstn 10 file,
                     {| content := file; pos := length (firstn 10 file);
                        good := (length (firstn 10 file) =? 10)%nat |}))
    by reflexivity.
  assert (H10 : length (firstn 10 file) = 10%nat)
    by (rewrite length_firstn; lia).
  assert (Hnth : forall i, (i < 10)%nat ->
                   nth i (firstn 10 file) zero = nth i file zero).
  { intros i Hi. rewrite <- (firstn_skipn 10 file) at 2.
    now rewrite app_nth1 by lia. }
  destruct (parse_npy_header_validates _ _ _ Hread H10) as [w Hw].
  - destruct Hbad as [Hmagic | [Hmajor | Hminor]].
    + left. destruct (is_prefix npy_magic_string (firstn 10 file)) eqn:E;
        [|reflexivity].
      exfalso. apply Hmagic. apply is_prefix_firstn in E.
      change (length npy_magic_string) with 6%nat in E.
      rewrite firstn_firstn in E. exact E.
    + right. left. rewrite Hnth by lia. intros E. apply Hmajor.
      apply ord_inj. rewrite E. reflexivity.
    + right. right. rewrite Hnth by lia. intros E. apply Hminor.
      apply ord_inj. rewrite E. reflexivity.
  - rewrite Hw. apply throws_Throw.
Qed.

Lemma npy_load_rejects_foreign_file_witness :
  throws (npy_load 4096 (<["a.npy" := lit "PK" ++ repeat zero 20]> ∅) "a.npy" true).
Proof.
  apply (npy_load_rejects_foreign_file 4096 _ "a.npy" true
           (lit "PK" ++ repeat zero 20)).
  - apply lookup_insert_eq.
  - cbn. lia.
  - left. discriminate.
Defined.

(** ** Writing the payload *)

(** X4. Elements reached through an iterator that is not contiguous are
    copied in chunks of at most 65536 elements; the stream receives the same
    bytes as from the single write of the contiguous overload: the elements
    one after the other, behind what the file held. *)
Theorem write_data_chunked_as_contiguous (size_elem : Z) (start : list bytes)
    (fs : fstream) :
  at_end fs -> Forall (fun e => Z.of_nat (length e) = size_elem) start ->
  0 <= size_elem -> Z.of_nat (length start) * size_elem < SIZE_MOD ->
  write_data_chunked size_elem start (Z.of_nat (length start)) fs
  = write_data size_elem start (Z.of_nat (length start)) fs
  /\ write_data size_elem start (Z.of_nat (length start)) fs
     = Ok {| content := content fs ++ concat start;
             pos := length (content fs ++ concat start); good := true |}.
Proof.
  intros Hend Hsized Hsize Hbytes.
  pose proof (write_payload true size_elem start _ fs Hend Hsized eq_refl Hsize
                Hbytes) as Hc.
  pose proof (write_payload false size_elem start _ fs Hend Hsized eq_refl Hsize
                Hbytes) as Hn.
  cbv iota in Hc, Hn. rewrite Hc, Hn. split; reflexivity.
Qed.

Lemma write_data_chunked_as_contiguous_witness :
  write_data_chunked 4 three_words 3 open_truncate
  = write_data 4 three_words 3 open_truncate
  /\ write_data 4 three_words 3 open_truncate
     = Ok {| content := lit "abcdefghijkl"; pos := 12; good := true |}.
Proof.
  apply (write_data_chunked_as_contiguous 4 three_words open_truncate).
  - split; reflexivity.
  - repeat constructor.
  - lia.
  - cbn. unfold SIZE_MOD. lia.
Defined.

(** X5. [write_data_tuple] writes the elements of each tuple back to back,
    one tuple after the other, with no padding between elements or tuples,
    whatever the number of tuples per chunk. *)
Theorem write_data_tuple_packed (Tup : tuple_type) (start : list (list bytes))
    (fs : fstream) :
  at_end fs -> Forall (tuple_sized Tup) start ->
  0 <= sum_of (element_sizes Tup) < SIZE_MOD ->
  Z.of_nat (length start) * sum_of (element_sizes Tup) < SIZE_MOD ->
  write_data_tuple Tup start (Z.of_nat (length start)) fs
  = Ok {| content := content fs ++ concat (map (@concat ascii) start);
          pos := length (content fs ++ concat (map (@concat ascii) start));
          good := true |}.
Proof.
  intros Hend Hsized Hsum Hbytes.
  now apply write_data_tuple_all.
Qed.

Lemma write_data_tuple_packed_witness :
  write_data_tuple [int32_t; int8_t; int16_t]
    [[lit "aaaa"; lit "b"; lit "cc"]; [lit "dddd"; lit "e"; lit "ff"]] 2
    open_truncate
  = Ok {| content := lit "aaaabccddddeff"; pos := 14; good := true |}.
Proof.
  apply (write_data_tuple_packed [int32_t; int8_t; int16_t]
           [[lit "aaaa"; lit "b"; lit "cc"]; [lit "dddd"; lit "e"; lit "ff"]]
           open_truncate).
  - split; reflexivity.
  - repeat constructor.
  - cbn. unfold SIZE_MOD. lia.
  - cbn. unfold SIZE_MOD. lia.
Defined.

(** ** Tuples in a buffer *)

Lemma dereference_at (pre e rest : bytes) :
  dereference (pre ++ e ++ rest) (Z.of_nat (length pre)) (Z.of_nat (length e))
  = Ok e.
Proof.
  unfold dereference, copy_n.
  destruct (Z.of_nat (length pre) <? 0) eqn:E1; [apply Z.ltb_lt in E1; lia|].
  destruct (Z.of_nat (length (pre ++ e ++ rest))
            <? Z.of_nat (length pre) + Z.of_nat (length e)) eqn:E2.
  { apply Z.ltb_lt in E2. rewrite !length_app in E2. lia. }
  cbn [orb]. rewrite !Nat2Z.id, skipn_exact, firstn_exact. reflexivity.
Qed.

Lemma mapM_dereference_packed (ptr : Z) (tup : list bytes) (sizes : list Z) :
  Forall2 (fun (e : bytes) (s : Z) => Z.of_nat (length e) = s) tup sizes ->
  forall o pre rest,
    0 <= o -> o + sum_of sizes < SIZE_MOD ->
    Z.of_nat (length pre) = ptr + o ->
    mapM (fun os : Z * Z =>
            dereference (pre ++ concat tup ++ rest) (ptr + fst os) (snd os))
      (combine (match sizes with
                | [] => []
                | _ => o :: calc_offsets_impl o sizes
                end) sizes)
    = Ok tup.
Proof.
  induction 1 as [|e s tup sizes He Hrest IH]; intros o pre rest Ho Hsum Hpre.
  - reflexivity.
  - cbn [sum_of fold_right] in Hsum. fold (sum_of sizes) in Hsum.
    assert (Hsizes : 0 <= sum_of sizes).
    { rewrite <- (sum_of_nonneg_sized _ _ Hrest). lia. }
    cbn [combine mapM fst snd concat].
    rewrite <- Hpre, <- He, <- app_assoc, dereference_at. cbn [bind].
    replace (combine (calc_offsets_impl o (Z.of_nat (length e) :: sizes)) sizes)
      with (combine (match sizes with
                     | [] => []
                     | _ => (o + s) :: calc_offsets_impl (o + s) sizes
                     end) sizes).
    2:{ destruct sizes as [|s' sizes]; [reflexivity|].
        cbn [calc_offsets_impl]. rewrite He. unfold SIZE_MOD in *.
        now rewrite (Z.mod_small (o + s)) by lia. }
    replace (pre ++ e ++ concat tup ++ rest)
      with ((pre ++ e) ++ concat tup ++ rest) by now rewrite <- app_assoc.
    rewrite (IH (o + s) (pre ++ e) rest); [reflexivity | lia | lia |].
    rewrite length_app. lia.
Qed.

Lemma tuple_dereference_packed (Tup : tuple_type) (tup : list bytes)
    (pre rest : bytes) :
  tuple_sized Tup tup -> sum_of (element_sizes Tup) < SIZE_MOD ->
  tuple_dereference Tup (pre ++ concat tup ++ rest) (Z.of_nat (length pre))
  = Ok tup.
Proof.
  intros Hsized Hsum. unfold tuple_dereference, offsets.
  replace (combine match Tup with
                   | [] => []
                   | _ :: _ => 0 :: calc_offsets_impl 0 (element_sizes Tup)
                   end (element_sizes Tup))
    with (combine (match element_sizes Tup with
                   | [] => []
                   | _ => 0 :: calc_offsets_impl 0 (element_sizes Tup)
                   end) (element_sizes Tup))
    by (destruct Tup; reflexivity).
  apply (mapM_dereference_packed _ tup _ Hsized 0 pre rest); lia.
Qed.

(** X6. What [fill] puts into a buffer, [tuple_iterator::dereference] reads
    back: after a tuple is filled in at a position of a buffer that has room
    for it, dereferencing a tuple iterator at that position yields the
    elements of the tuple, and the bytes around the tuple are as before. *)
Theorem fill_tuple_dereference (Tup : tuple_type) (tup : list bytes)
    (base : nat) (buf : bytes) :
  tuple_sized Tup tup -> sum_of (element_sizes Tup) < SIZE_MOD ->
  (base + length (concat tup) <= length buf)%nat ->
  exists buf',
    fill Tup tup base buf = Ok buf'
    /\ tuple_dereference Tup buf' (Z.of_nat base) = Ok tup
    /\ firstn base buf' = firstn base buf
    /\ skipn (base + length (concat tup)) buf'
       = skipn (base + length (concat tup)) buf.
Proof.
  intros Hsized Hsum Hroom. exists (overwrite base (concat tup) buf).
  split; [now apply fill_packed|].
  split; [|split].
  - unfold overwrite.
    replace (Z.of_nat base) with (Z.of_nat (length (firstn base buf)))
      by (rewrite length_firstn; lia).
    now apply tuple_dereference_packed.
  - apply overwrite_firstn_before; lia.
  - apply overwrite_skipn; lia.
Qed.

Lemma fill_tuple_dereference_witness :
  exists buf',
    fill [int32_t; int8_t; int16_t] [lit "aaaa"; lit "b"; lit "cc"] 2
      (repeat zero 10) = Ok buf'
    /\ tuple_dereference [int32_t; int8_t; int16_t] buf' 2
       = Ok [lit "aaaa"; lit "b"; lit "cc"]
    /\ firstn 2 buf' = firstn 2 (repeat zero 10)
    /\ skipn 9 buf' = skipn 9 (repeat zero 10).
Proof.
  apply (fill_tuple_dereference [int32_t; int8_t; int16_t]
           [lit "aaaa"; lit "b"; lit "cc"] 2 (repeat zero 10)).
  - repeat constructor.
  - cbn. unfold SIZE_MOD. lia.
  - cbn. lia.
Defined.

(** ** Loading *)

(** X7. [npy_load] into memory does not compare the length of the file with
    what the header announces.  For a header that parses and announces fewer
    than [2^63] bytes, and with the allocation of the buffer succeeding, it
    returns an array of [num_bytes] bytes with the parsed shape, word sizes,
    labels and memory order: the payload bytes that are there followed by
    zero bytes for the ones that are missing; bytes behind the announced
    payload are ignored.  A header that announces [2^63] bytes or more makes
    the call throw, the array being more than can be allocated. *)
Theorem npy_load_payload_window (alignment : Z) (files : gmap string bytes)
    (fname : string) (dict payload : bytes) (h : parsed_header) :
  files !! fname = Some ((preamble dict ++ dict) ++ payload) ->
  Z.of_nat (length dict) < 65536 ->
  parse_npy_dict dict = Ok h ->
  let announced :=
    (accumulate_plus (hdr_word_sizes h) * accumulate_multiplies (hdr_shape h))
      mod SIZE_MOD in
  (announced < 2 ^ 63 ->
   exists a,
     npy_load alignment files fname false = Ok a
     /\ shape a = hdr_shape h /\ word_sizes a = hdr_word_sizes h
     /\ labels a = hdr_labels h /\ memory_order a = hdr_memory_order h
     /\ num_bytes a = announced
     /\ buffer a
        = firstn (Z.to_nat announced) payload
            ++ repeat zero (Z.to_nat announced - length payload))
  /\ (2 ^ 63 <= announced -> throws (npy_load alignment files fname false)).
Proof.
  intros Hfile Hlen Hparse announced. split.
  - intros Hsmall.
    rewrite <- (insert_id files fname _ Hfile).
    rewrite (npy_load_zero_filled alignment files fname dict payload h Hlen
               Hparse Hsmall).
    eexists. split; [reflexivity|]. repeat (split; [reflexivity|]).
    split.
    + unfold num_bytes. cbn [num_vals total_value_size make_NpyArray].
      now rewrite Z.mul_comm.
    + cbv zeta. unfold zero_filled. cbn [buffer make_NpyArray].
      fold announced. set (n := Z.to_nat announced). rewrite length_firstn.
      replace (n - Nat.min n (length payload))%nat with (n - length payload)%nat
        by lia.
      reflexivity.
  - intros Hbig. unfold npy_load. rewrite Hfile.
    rewrite (parse_npy_header_generated _ _ _ Hlen Hparse). cbn [bind negb].
    fold announced. unfold InMemoryBuffer.
    destruct (2 ^ 63 <=? announced) eqn:E; [|apply Z.leb_gt in E; lia].
    cbn [bind]. apply throws_Throw.
Qed.

Lemma npy_load_payload_window_witness :
  (exists a,
      npy_load 4096
        (<["t.npy" := (preamble plain_dict ++ plain_dict) ++ lit "abc"]> ∅)
        "t.npy" false = Ok a
      /\ shape a = [8; 4; 2] /\ word_sizes a = [4]
      /\ labels a = [] /\ memory_order a = C
      /\ num_bytes a = 256
      /\ buffer a = lit "abc" ++ repeat zero 253)
  /\ throws
       (npy_load 4096 (<["t.npy" := (preamble huge_dict ++ huge_dict) ++ []]> ∅)
          "t.npy" false).
Proof.
  split.
  - apply (proj1 (npy_load_payload_window 4096 _ "t.npy" plain_dict (lit "abc")
                    {| hdr_word_sizes := [4]; hdr_data_types := ["u"%char];
                       hdr_labels := []; hdr_shape := [8; 4; 2];
                       hdr_memory_order := C |}
                    (lookup_insert_eq _ _ _) eq_refl eq_refl)).
    vm_compute. reflexivity.
  - apply (proj2 (npy_load_payload_window 4096 _ "t.npy" huge_dict []
                    {| hdr_word_sizes := [8]; hdr_data_types := ["u"%char];
                       hdr_labels := [];
                       hdr_shape := [2147483647; 2147483647];
                       hdr_memory_order := C |}
                    (lookup_insert_eq _ _ _) eq_refl eq_refl)).
    vm_compute. discriminate.
Defined.

(** X8. For a file that holds exactly the announced payload, not empty, a
    memory-mapped [npy_load] yields the same array as the load into memory,
    whatever the mapping alignment of the platform: the offset arithmetic of
    [MemoryMappedBuffer] makes [data()] start at the first payload byte. *)
Theorem npy_load_memory_mapped (alignment : Z) (files : gmap string bytes)
    (fname : string) (dict payload : bytes) (h : parsed_header) :
  files !! fname = Some ((preamble dict ++ dict) ++ payload) ->
  Z.of_nat (length dict) < 65536 ->
  parse_npy_dict dict = Ok h ->
  Z.of_nat (length payload)
  = (accumulate_plus (hdr_word_sizes h) * accumulate_multiplies (hdr_shape h))
      mod SIZE_MOD ->
  Z.of_nat (length payload) < 2 ^ 63 ->
  0 < alignment -> payload <> [] ->
  npy_load alignment files fname true = npy_load alignment files fname false
  /\ npy_load alignment files fname true
     = Ok (make_NpyArray (hdr_shape h) (hdr_word_sizes h) (hdr_labels h)
             (hdr_memory_order h) payload).
Proof.
  intros Hfile Hlen Hparse Hbytes Hsmall Hal Hne.
  rewrite <- (insert_id files fname _ Hfile).
  rewrite (npy_load_written alignment files fname true dict payload h Hlen
             Hparse Hbytes Hsmall ltac:(auto)).
  rewrite (npy_load_written alignment files fname false dict payload h Hlen
             Hparse Hbytes Hsmall ltac:(discriminate)).
  split; reflexivity.
Qed.

Lemma npy_load_memory_mapped_witness :
  npy_load 4096 (<["t.npy" := (preamble plain_dict ++ plain_dict)
                                ++ repeat "x"%char 256]> ∅) "t.npy" true
  = npy_load 4096 (<["t.npy" := (preamble plain_dict ++ plain_dict)
                                  ++ repeat "x"%char 256]> ∅) "t.npy" false
  /\ npy_load 4096 (<["t.npy" := (preamble plain_dict ++ plain_dict)
                                   ++ repeat "x"%char 256]> ∅) "t.npy" true
     = Ok (make_NpyArray [8; 4; 2] [4] [] C (repeat "x"%char 256)).
Proof.
  apply (npy_load_memory_mapped 4096 _ "t.npy" plain_dict (repeat "x"%char 256)
           {| hdr_word_sizes := [4]; hdr_data_types := ["u"%char];
              hdr_labels := []; hdr_shape := [8; 4; 2];
              hdr_memory_order := C |}).
  - apply lookup_insert_eq.
  - vm_compute. reflexivity.
  - vm_compute. reflexivity.
  - vm_compute. reflexivity.
  - vm_compute. reflexivity.
  - lia.
  - discriminate.
Defined.

(** ** Appending to a file *)

(** X9. In mode ["a"] on an existing file whose header parses with at least
    one field, [npy_save] throws when the element width or the type code
    differs from that of the first field of the file, the only field that
    the check reads, or when the memory order, the rank or a dimension
    behind the first differs from that of the file. *)
Theorem npy_save_append_mismatch_rejected (creatable : string -> bool)
    (host : byte_order) (files : gmap string bytes) (fname : string)
    (T : value_type) (contiguous : bool) (start : list bytes) (file : bytes)
    (shape0 : list Z) (order : MemoryOrder) (h : parsed_header) (fs : fstream)
    (w : Z) (ws : list Z) (d : ascii) (dt : list ascii) :
  files !! fname = Some file ->
  parse_npy_header (open_existing file) = Ok (h, fs) ->
  hdr_word_sizes h = w :: ws -> hdr_data_types h = d :: dt ->
  sizeof T <> w \/ map_type T <> d \/ order <> hdr_memory_order h
  \/ length shape0 <> length (hdr_shape h) \/ tl shape0 <> tl (hdr_shape h) ->
  throws (npy_save creatable host files fname T contiguous start shape0 "a"
            order).
Proof.
  intros Hfile Hparse Hws Hdt Hmis.
  exact (npy_save_append_rejects creatable host files fname T contiguous start
           file shape0 order h fs w ws d dt Hfile Hparse Hws Hdt Hmis).
Qed.

Lemma npy_save_append_mismatch_rejected_witness :
  throws (npy_save (creates ["arr.npy"]) LittleEndian fortran_files "arr.npy"
            int8_t true (repeat [chr 66] 6) [2; 3] "a" Fortran).
Proof.
  eapply (npy_save_append_mismatch_rejected (creates ["arr.npy"]) LittleEndian
            fortran_files "arr.npy" int8_t true (repeat [chr 66] 6) _ [2; 3]
            Fortran).
  - vm_compute. reflexivity.
  - vm_compute. reflexivity.
  - reflexivity.
  - reflexivity.
  - right. left. discriminate.
Defined.

(** X10. On a little-endian host, writing an array of shape [(a1, rest)] in
    mode ["w"] under a name that has a file or can be created, and appending
    one of shape [(a2, rest)] in mode ["a"], both in row-major order, gives a
    file that [npy_load] returns as one array of shape [(a1 + a2, rest)]
    whose payload is the first payload followed by the second, provided
    that: the header of the combined shape is as long as the header it
    replaces and shorter than 65546 bytes, the element width is positive and
    below [2^31], every dimension of the three shapes and the number of
    elements of the combined array are below [2^31], and each source holds
    exactly as many well-sized elements as its shape says. *)
Theorem npy_save_append_same_header_length (creatable : string -> bool)
    (alignment : Z) (files : gmap string bytes) (fname : string)
    (T : value_type) (contiguous : bool) (start1 start2 : list bytes)
    (a1 a2 : Z) (rest : list Z) (header1 header2 : bytes) :
  is_open creatable files fname = true ->
  0 < sizeof T < 2 ^ 31 ->
  Forall int_range (a1 :: rest) -> Forall int_range (a2 :: rest) ->
  int_range (a1 + a2) -> product ((a1 + a2) :: rest) < 2 ^ 31 ->
  Z.of_nat (length start1) = product (a1 :: rest) ->
  Z.of_nat (length start2) = product (a2 :: rest) ->
  Forall (fun e : bytes => Z.of_nat (length e) = sizeof T) start1 ->
  Forall (fun e : bytes => Z.of_nat (length e) = sizeof T) start2 ->
  create_npy_header LittleEndian (a1 :: rest) (map_type T) (sizeof T) RowMajor
  = Ok header1 ->
  create_npy_header LittleEndian ((a1 + a2) :: rest) (map_type T) (sizeof T)
    RowMajor = Ok header2 ->
  length header2 = length header1 -> Z.of_nat (length header1) < 65546 ->
  exists files1 files2 a,
    npy_save creatable LittleEndian files fname T contiguous start1
      (a1 :: rest) "w" RowMajor = Ok files1
    /\ npy_save creatable LittleEndian files1 fname T contiguous start2
         (a2 :: rest) "a" RowMajor = Ok files2
    /\ npy_load alignment files2 fname false = Ok a
    /\ round_trip a ((a1 + a2) :: rest) [sizeof T] [] RowMajor
         (concat start1 ++ concat start2).
Proof.
  intros. eapply npy_save_append_round_trip; eassumption.
Qed.

Lemma npy_save_append_same_header_length_witness :
  exists files1 files2 a,
    npy_save (creates ["arr.npy"]) LittleEndian ∅ "arr.npy" uint16_t false
      [lit "aa"; lit "bb"; lit "cc"; lit "dd"] [2; 2] "w" RowMajor = Ok files1
    /\ npy_save (creates ["arr.npy"]) LittleEndian files1 "arr.npy" uint16_t
         false [lit "ee"; lit "ff"; lit "gg"; lit "hh"; lit "ii"; lit "jj"]
         [3; 2] "a" RowMajor = Ok files2
    /\ npy_load 4096 files2 "arr.npy" false = Ok a
    /\ round_trip a [5; 2] [2] [] RowMajor (lit "aabbccddeeffgghhiijj").
Proof.
  eapply (npy_save_append_same_header_length (creates ["arr.npy"]) 4096 ∅
            "arr.npy" uint16_t false
            [lit "aa"; lit "bb"; lit "cc"; lit "dd"]
            [lit "ee"; lit "ff"; lit "gg"; lit "hh"; lit "ii"; lit "jj"]
            2 3 [2]);
    try reflexivity;
    try (repeat constructor; unfold int_range, INT_MAX; cbn; lia);
    try (cbn; lia).
Defined.

(** X11. The structured [npy_save] never completes an append: in mode ["a"]
    on an existing file it throws or runs into undefined behaviour for every
    file, tuple type, shape and data, because the rank of the file is
    compared with the size of a vector that is still empty. *)
Theorem npy_save_struct_append_never_succeeds (creatable : string -> bool)
    (host : byte_order) (files : gmap string bytes) (fname : string)
    (Tup : tuple_type) (labels0 : list bytes) (first : list (list bytes))
    (shape0 : list Z) (order : MemoryOrder) (file : bytes) :
  files !! fname = Some file ->
  ~ returns (npy_save_struct creatable host files fname Tup labels0 first
               shape0 "a" order).
Proof.
  intros Hfile.
  exact (npy_save_struct_append_fails creatable host files fname Tup labels0
           first shape0 order file Hfile).
Qed.

Lemma npy_save_struct_append_never_succeeds_witness :
  ~ returns (npy_save_struct (creates ["rec.npy"]) LittleEndian record_files
               "rec.npy" [int32_t; int8_t; int16_t]
               [lit "a"; lit "b"; lit "c"] two_records [2] "a" C).
Proof.
  eapply (npy_save_struct_append_never_succeeds (creates ["rec.npy"])
            LittleEndian record_files "rec.npy" [int32_t; int8_t; int16_t]
            [lit "a"; lit "b"; lit "c"] two_records [2] C).
  vm_compute. reflexivity.
Defined.

(** ** Elements of a loaded array *)

Lemma for_range_packed {A : Type} (deref_in : bytes -> Z -> result A)
    (enc : A -> bytes) (step : Z) (items : list A) :
  0 < step -> Forall (fun x => Z.of_nat (length (enc x)) = step) items ->
  (forall pre x rest, In x items ->
     deref_in (pre ++ enc x ++ rest) (Z.of_nat (length pre)) = Ok x) ->
  forall fuel pre,
    (length items <= fuel)%nat ->
    for_range fuel (deref_in (pre ++ concat (map enc items))) step
      (Z.of_nat (length pre))
      (Z.of_nat (length pre) + Z.of_nat (length items) * step)
    = Ok items.
Proof.
  intros Hstep Hsized Hderef. induction Hsized as [|x items Hx Hrest IH];
    intros fuel pre Hfuel.
  - cbn [length map concat]. replace (Z.of_nat (length pre) + Z.of_nat 0 * step)
      with (Z.of_nat (length pre)) by lia.
    destruct fuel; cbn [for_range]; now rewrite Z.eqb_refl.
  - destruct fuel as [|fuel]; [cbn [length] in Hfuel; lia|].
    cbn [for_range length map concat].
    destruct (Z.of_nat (length pre)
              =? Z.of_nat (length pre) + Z.of_nat (S (length items)) * step) eqn:E.
    { apply Z.eqb_eq in E. nia. }
    rewrite (Hderef pre x _ (or_introl eq_refl)). cbn [bind].
    replace (pre ++ enc x ++ concat (map enc items))
      with ((pre ++ enc x) ++ concat (map enc items)) by now rewrite <- app_assoc.
    replace (Z.of_nat (length pre) + step) with (Z.of_nat (length (pre ++ enc x)))
      by (rewrite length_app; lia).
    replace (Z.of_nat (length pre) + Z.of_nat (S (length items)) * step)
      with (Z.of_nat (length (pre ++ enc x)) + Z.of_nat (length items) * step)
      by (rewrite length_app; lia).
    rewrite IH; [reflexivity | | cbn [length] in Hfuel; lia].
    intros pre' y rest Hy. apply Hderef. now right.
Qed.

Lemma length_concat_ge (size : Z) (l : list bytes) :
  0 < size -> Forall (fun e => Z.of_nat (length e) = size) l ->
  (length l <= length (concat l))%nat.
Proof.
  intros Hsize Hall. pose proof (length_concat_sized _ _ Hall). nia.
Qed.

Lemma pointer_view_elements_packed (T : value_type) (start : list bytes) :
  0 < sizeof T ->
  Forall (fun e : bytes => Z.of_nat (length e) = sizeof T) start ->
  pointer_view_elements (concat start)
    {| pointer_first := 0; pointer_last := Z.of_nat (length start) * sizeof T;
       pointer_value := T |}
  = Ok start.
Proof.
  intros HT Hsized. unfold pointer_view_elements.
  cbn [pointer_first pointer_last pointer_value].
  pose proof (for_range_packed (fun buf p => dereference buf p (sizeof T))
                (fun e => e) (sizeof T) start HT Hsized) as H.
  rewrite map_id in H.
  assert (Hd : forall pre x rest : bytes, In x start ->
            dereference (pre ++ x ++ rest) (Z.of_nat (length pre)) (sizeof T)
            = Ok x).
  { intros pre x rest Hin. rewrite List.Forall_forall in Hsized.
    rewrite <- (Hsized x Hin). apply dereference_at. }
  apply (H Hd (S (length (concat start))) []).
  pose proof (length_concat_ge _ _ HT Hsized). lia.
Qed.

Lemma npy_save_load_plain_array (creatable : string -> bool) (alignment : Z)
    (files : gmap string bytes) (fname : string) (T : value_type)
    (contiguous memory_mapped : bool) (start : list bytes) (shape0 : list Z)
    (order : MemoryOrder) :
  is_open creatable files fname = true ->
  0 < sizeof T < 2 ^ 31 ->
  shape0 <> [] -> Forall int_range shape0 -> product shape0 < 2 ^ 31 ->
  Z.of_nat (length start) = product shape0 ->
  Forall (fun e : bytes => Z.of_nat (length e) = sizeof T) start ->
  (forall h,
      create_npy_header LittleEndian shape0 (map_type T) (sizeof T) order = Ok h ->
      Z.of_nat (length h) < 65546) ->
  (memory_mapped = true -> 0 < alignment /\ 0 < product shape0) ->
  exists files',
    npy_save creatable LittleEndian files fname T contiguous start shape0 "w"
      order = Ok files'
    /\ npy_load alignment files' fname memory_mapped
       = Ok (make_NpyArray shape0 [sizeof T] [] order (concat start)).
Proof.
  intros Hopen HT Hne Hshape Hprod Hlen Hsized Hheader Hmapped.
  destruct shape0 as [|s0 rest]; [congruence|].
  pose proof (product_nonneg _ Hshape) as Hpos.
  destruct (plain_dict_text LittleEndian s0 rest (map_type T) (sizeof T) order
              ltac:(lia)) as [k Hk].
  set (dict := plain_head LittleEndian (map_type T) (sizeof T)
                 ++ dict_tail order s0 rest k) in *.
  pose proof (Hheader _ Hk) as Hdict.
  rewrite length_app, length_preamble in Hdict.
  pose proof (length_concat_sized _ _ Hsized) as Hpayload. rewrite Hlen in Hpayload.
  eexists. split.
  - apply npy_save_write;
      [exact Hopen | exact HT | lia | exact Hlen | exact Hsized | exact Hk].
  - apply (npy_load_written alignment files fname memory_mapped dict (concat start)
             _ ltac:(lia) (parse_generated_plain T s0 rest order k HT Hshape)).
    + cbn [hdr_word_sizes hdr_shape].
      rewrite accumulate_plus_sum, accumulate_multiplies_product.
      cbn [sum_of fold_right]. rewrite Z.add_0_r.
      unfold SIZE_MOD.
      rewrite (Z.mod_small (sizeof T)), (Z.mod_small (product (s0 :: rest))) by lia.
      rewrite Z.mod_small by nia. lia.
    + nia.
    + intros Hmm. destruct (Hmapped Hmm) as [Hal Hp0]. split; [exact Hal|].
      intros Hnil. apply (f_equal (@length ascii)) in Hnil.
      cbn [length] in Hnil. nia.
Qed.

(** X12. On a little-endian host, the elements of an array written by
    [npy_save] in mode ["w"] under a name that has a file or can be created
    come back, one by one and in order, from a traversal of
    [make_range<T>()] on the array that [npy_load] returns for the file (in
    memory, or memory-mapped when the array is not empty and the mapping
    alignment positive), provided that: the rank is at least 1, every
    dimension and the number of elements are below [2^31], the element width
    is positive and below [2^31], the source holds exactly as many well-sized
    elements as the shape says and the header is shorter than 65546
    bytes. *)
Theorem npy_load_make_range (creatable : string -> bool) (alignment : Z)
    (files : gmap string bytes) (fname : string) (T : value_type)
    (contiguous memory_mapped : bool) (start : list bytes) (shape0 : list Z)
    (order : MemoryOrder) :
  is_open creatable files fname = true ->
  0 < sizeof T < 2 ^ 31 ->
  shape0 <> [] -> Forall int_range shape0 -> product shape0 < 2 ^ 31 ->
  Z.of_nat (length start) = product shape0 ->
  Forall (fun e : bytes => Z.of_nat (length e) = sizeof T) start ->
  (forall h,
      create_npy_header LittleEndian shape0 (map_type T) (sizeof T) order = Ok h ->
      Z.of_nat (length h) < 65546) ->
  (memory_mapped = true -> 0 < alignment /\ 0 < product shape0) ->
  exists files' a,
    npy_save creatable LittleEndian files fname T contiguous start shape0 "w"
      order = Ok files'
    /\ npy_load alignment files' fname memory_mapped = Ok a
    /\ pointer_view_elements (buffer a) (make_range T a) = Ok start.
Proof.
  intros Hopen HT Hne Hshape Hprod Hlen Hsized Hheader Hmapped.
  destruct (npy_save_load_plain_array creatable alignment files fname T
              contiguous memory_mapped start shape0 order Hopen HT Hne Hshape
              Hprod Hlen Hsized Hheader Hmapped) as (files' & Hsave & Hload).
  exists files'. eexists. split; [exact Hsave|]. split; [exact Hload|].
  pose proof (product_nonneg _ Hshape) as Hpos.
  unfold make_range. cbn [buffer num_vals make_NpyArray].
  rewrite accumulate_multiplies_product. unfold SIZE_MOD.
  rewrite Z.mod_small by lia. rewrite <- Hlen.
  apply pointer_view_elements_packed; [lia | exact Hsized].
Qed.

Lemma npy_load_make_range_witness :
  exists files' a,
    npy_save (creates ["w.npy"]) LittleEndian ∅ "w.npy" uint32_t false
      three_words [3] "w" Fortran = Ok files'
    /\ npy_load 4096 files' "w.npy" true = Ok a
    /\ pointer_view_elements (buffer a) (make_range uint32_t a) = Ok three_words.
Proof.
  apply (npy_load_make_range (creates ["w.npy"]) 4096 ∅ "w.npy" uint32_t false
           true three_words [3] Fortran).
  - reflexivity.
  - cbn. lia.
  - discriminate.
  - repeat constructor; unfold INT_MAX; lia.
  - cbn. lia.
  - reflexivity.
  - repeat constructor.
  - intros h Hh. vm_compute in Hh. injection Hh as <-. vm_compute. reflexivity.
  - intros _. cbn. lia.
Defined.

Lemma npy_save_load_struct_array (creatable : string -> bool) (alignment : Z)
    (files : gmap string bytes) (fname : string) (Tup : tuple_type)
    (labels0 : list bytes) (memory_mapped : bool) (first : list (list bytes))
    (shape0 : list Z) (order : MemoryOrder) :
  is_open creatable files fname = true ->
  Tup <> [] -> length labels0 = length Tup ->
  Forall (fun T => 0 < sizeof T < 2 ^ 31) Tup ->
  Forall word_label labels0 ->
  shape0 <> [] -> Forall int_range shape0 -> product shape0 < 2 ^ 31 ->
  Z.of_nat (length first) = product shape0 ->
  Forall (tuple_sized Tup) first ->
  sum_of (element_sizes Tup) < 2 ^ 63 ->
  product shape0 * sum_of (element_sizes Tup) < 2 ^ 63 ->
  (forall h,
      create_npy_header_struct LittleEndian shape0 labels0 (tuple_data_types Tup)
        (element_sizes Tup) order = Ok h ->
      Z.of_nat (length h) < 65546) ->
  (memory_mapped = true -> 0 < alignment /\ 0 < product shape0) ->
  exists files',
    npy_save_struct creatable LittleEndian files fname Tup labels0 first shape0
      "w" order = Ok files'
    /\ npy_load alignment files' fname memory_mapped
       = Ok (make_NpyArray shape0 (element_sizes Tup) labels0 order
               (concat (map (@concat ascii) first))).
Proof.
  intros Hopen HTup Hlabels HT Hwords Hne Hshape Hprod Hlen Hsized Hsum Hbytes
    Hheader Hmapped.
  destruct shape0 as [|s0 rest]; [congruence|].
  pose proof (product_nonneg _ Hshape) as Hpos.
  pose proof (sum_of_positive _ HT HTup) as Hsumpos.
  assert (Hl2 : length labels0 = length (tuple_data_types Tup))
    by (unfold tuple_data_types; now rewrite length_map).
  assert (Hl3 : length (tuple_data_types Tup) = length (element_sizes Tup))
    by (unfold tuple_data_types, element_sizes; now rewrite !length_map).
  destruct (struct_dict_text LittleEndian s0 rest labels0 (tuple_data_types Tup)
              (element_sizes Tup) order Hl2 Hl3) as [k Hk].
  set (dict := struct_head LittleEndian
                 (zip3 labels0 (tuple_data_types Tup) (element_sizes Tup))
                 ++ dict_tail order s0 rest k) in *.
  pose proof (Hheader _ Hk) as Hdict.
  rewrite length_app, length_preamble in Hdict.
  pose proof (length_packed _ _ Hsized) as Hpayload. rewrite Hlen in Hpayload.
  eexists. split.
  - apply npy_save_struct_write;
      [exact Hopen | exact Hlabels | lia | exact Hlen | exact Hsized
       | unfold SIZE_MOD; lia | unfold SIZE_MOD; lia | exact Hk].
  - apply (npy_load_written alignment files fname memory_mapped dict
             (concat (map (@concat ascii) first)) _ ltac:(lia)
             (parse_generated_struct labels0 Tup s0 rest order k HTup Hlabels
                Hwords HT Hshape)).
    + cbn [hdr_word_sizes hdr_shape].
      rewrite accumulate_plus_sum, accumulate_multiplies_product.
      unfold SIZE_MOD.
      rewrite (Z.mod_small (sum_of _)), (Z.mod_small (product (s0 :: rest))) by lia.
      rewrite Z.mod_small by nia. lia.
    + nia.
    + intros Hmm. destruct (Hmapped Hmm) as [Hal Hp0]. split; [exact Hal|].
      intros Hnil. apply (f_equal (@length ascii)) in Hnil.
      cbn [length] in Hnil. nia.
Qed.

Lemma Z_list_eqb_refl (l : list Z) : Z_list_eqb l l = true.
Proof. induction l as [|x l IH]; cbn; [reflexivity|]. now rewrite Z.eqb_refl. Qed.

Lemma tuple_view_elements_packed (Tup : tuple_type) (first : list (list bytes)) :
  0 < sum_of (element_sizes Tup) < SIZE_MOD ->
  Forall (tuple_sized Tup) first ->
  tuple_view_elements (concat (map (@concat ascii) first))
    {| tuple_first := 0;
       tuple_last := Z.of_nat (length first) * sum_of (element_sizes Tup);
       tuple_elements := Tup |}
  = Ok first.
Proof.
  intros Hsum Hsized. unfold tuple_view_elements.
  cbn [tuple_first tuple_last tuple_elements].
  rewrite sum_sizes_sum, Z.mod_small by lia.
  assert (Hlen : Forall (fun tup : list bytes =>
                   Z.of_nat (length (concat tup)) = sum_of (element_sizes Tup))
                   first).
  { rewrite List.Forall_forall in *. intros tup Hin.
    apply sum_of_nonneg_sized, (Hsized tup Hin). }
  assert (Hd : forall (pre : bytes) (tup : list bytes) (rest : bytes),
            In tup first ->
            tuple_dereference Tup (pre ++ concat tup ++ rest)
              (Z.of_nat (length pre)) = Ok tup).
  { intros pre tup rest Hin. rewrite List.Forall_forall in Hsized.
    apply tuple_dereference_packed; [apply (Hsized tup Hin) | lia]. }
  apply (for_range_packed (tuple_dereference Tup) (@concat ascii)
           (sum_of (element_sizes Tup)) first (proj1 Hsum) Hlen Hd
           (S (length (concat (map (@concat ascii) first)))) []).
  pose proof (length_packed _ _ Hsized). nia.
Qed.

(** X13. On a little-endian host, the tuples of a structured array written
    by the structured [npy_save] in mode ["w"] under a name that has a file
    or can be created come back, element for element and in order, from a
    traversal of [tuple_range<TArgs...>(true)] on the array that [npy_load]
    returns for the file (in memory, or memory-mapped when the array is not
    empty and the mapping alignment positive), and the width check of
    [tuple_range] passes, provided that: there is at least one field and as
    many labels as fields, every label is a non-empty run of letters, digits
    and underscores, every field width is positive and below [2^31], the
    rank is at least 1, every dimension and the number of tuples are below
    [2^31], the source holds exactly as many well-sized tuples as the shape
    says, a tuple and the payload are smaller than [2^63] bytes and the
    header is shorter than 65546 bytes. *)
Theorem npy_load_tuple_range (creatable : string -> bool) (alignment : Z)
    (files : gmap string bytes) (fname : string) (Tup : tuple_type)
    (labels0 : list bytes) (memory_mapped : bool) (first : list (list bytes))
    (shape0 : list Z) (order : MemoryOrder) :
  is_open creatable files fname = true ->
  Tup <> [] -> length labels0 = length Tup ->
  Forall (fun T => 0 < sizeof T < 2 ^ 31) Tup ->
  Forall word_label labels0 ->
  shape0 <> [] -> Forall int_range shape0 -> product shape0 < 2 ^ 31 ->
  Z.of_nat (length first) = product shape0 ->
  Forall (tuple_sized Tup) first ->
  sum_of (element_sizes Tup) < 2 ^ 63 ->
  product shape0 * sum_of (element_sizes Tup) < 2 ^ 63 ->
  (forall h,
      create_npy_header_struct LittleEndian shape0 labels0 (tuple_data_types Tup)
        (element_sizes Tup) order = Ok h ->
      Z.of_nat (length h) < 65546) ->
  (memory_mapped = true -> 0 < alignment /\ 0 < product shape0) ->
  exists files' a v,
    npy_save_struct creatable LittleEndian files fname Tup labels0 first shape0
      "w" order = Ok files'
    /\ npy_load alignment files' fname memory_mapped = Ok a
    /\ tuple_range Tup true a = Ok v
    /\ tuple_view_elements (buffer a) v = Ok first.
Proof.
  intros Hopen HTup Hlabels HT Hwords Hne Hshape Hprod Hlen Hsized Hsum Hbytes
    Hheader Hmapped.
  destruct (npy_save_load_struct_array creatable alignment files fname Tup
              labels0 memory_mapped first shape0 order Hopen HTup Hlabels HT
              Hwords Hne Hshape Hprod Hlen Hsized Hsum Hbytes Hheader Hmapped)
    as (files' & Hsave & Hload).
  pose proof (product_nonneg _ Hshape) as Hpos.
  pose proof (sum_of_positive _ HT HTup) as Hsumpos.
  exists files'. eexists. eexists.
  split; [exact Hsave|]. split; [exact Hload|].
  unfold tuple_range, compare_word_sizes.
  cbn [word_sizes num_vals total_value_size buffer make_NpyArray].
  rewrite Z_list_eqb_refl. cbn [negb andb]. split; [reflexivity|].
  rewrite accumulate_plus_sum, accumulate_multiplies_product. unfold SIZE_MOD.
  rewrite (Z.mod_small (sum_of _)), (Z.mod_small (product shape0)) by lia.
  rewrite Z.mod_small by nia. rewrite <- Hlen.
  apply tuple_view_elements_packed; [unfold SIZE_MOD; lia | exact Hsized].
Qed.

Lemma npy_load_tuple_range_witness :
  exists files' a v,
    npy_save_struct (creates ["rec.npy"]) LittleEndian ∅ "rec.npy"
      [int32_t; int8_t; int16_t] [lit "a"; lit "b"; lit "c"] two_records [2]
      "w" C = Ok files'
    /\ npy_load 4096 files' "rec.npy" false = Ok a
    /\ tuple_range [int32_t; int8_t; int16_t] true a = Ok v
    /\ tuple_view_elements (buffer a) v = Ok two_records.
Proof.
  apply (npy_load_tuple_range (creates ["rec.npy"]) 4096 ∅ "rec.npy"
           [int32_t; int8_t; int16_t] [lit "a"; lit "b"; lit "c"] false
           two_records [2] C).
  - reflexivity.
  - discriminate.
  - reflexivity.
  - repeat constructor; cbn; lia.
  - repeat constructor; discriminate.
  - discriminate.
  - repeat constructor; unfold INT_MAX; lia.
  - cbn. lia.
  - reflexivity.
  - repeat constructor.
  - cbn. lia.
  - cbn. lia.
  - intros h Hh. vm_compute in Hh. injection Hh as <-. vm_compute. reflexivity.
  - discriminate.
Defined.

(** ** The streaming writer behind the header *)

Lemma concat_firstn_skipn (n : nat) (l : list bytes) :
  concat (firstn n l) ++ concat (skipn n l) = concat l.
Proof. now rewrite <- concat_app, firstn_skipn. Qed.

Lemma callback_streaming (w nels l : Z) (p : additional_parameters) :
  0 < w -> nels * w < 2 ^ 63 -> 0 <= l < 2 ^ 63 ->
  streaming w nels p -> buffer_size p = 0 -> bytes_buffer_written p = 0 ->
  exists out p',
    callback w nels l p = Ok (out, p')
    /\ streaming w nels p'
    /\ out ++ unread p' = concat (it p)
    /\ Z.of_nat (length out) <= l
    /\ (1 <= l -> it p = [] \/ out <> [] \/ pending p' <> []).
Proof.
  intros Hw Hnels Hl [Hh _ Hside [HE Hcount] Hsized] HB HW.
  assert (Hn0 : 0 <= nels) by lia.
  assert (HnelsS : nels < 2 ^ 63) by nia.
  unfold callback.
  rewrite (Z.mod_small (nels - elements_written_total p))
    by (unfold SIZE_MOD; lia).
  set (n_tbw := Z.min (l / w) (nels - elements_written_total p)).
  assert (Hq : 0 <= l / w) by (apply Z.div_pos; lia).
  assert (Hqw : w * (l / w) <= l) by (apply Z.mul_div_le; lia).
  assert (Hn : 0 <= n_tbw <= Z.of_nat (length (it p))) by (unfold n_tbw; lia).
  assert (Hnw : n_tbw * w <= l) by (unfold n_tbw; nia).
  destruct (Z.of_nat (length (it p)) <? n_tbw) eqn:E0;
    [apply Z.ltb_lt in E0; lia|].
  assert (Hout : Z.of_nat (length (concat (firstn (Z.to_nat n_tbw) (it p))))
                 = n_tbw * w).
  { rewrite (length_concat_sized w) by now apply Forall_take.
    rewrite length_firstn. lia. }
  assert (Hskip : Z.of_nat (length (skipn (Z.to_nat n_tbw) (it p)))
                  = Z.of_nat (length (it p)) - n_tbw)
    by (rewrite length_skipn; lia).
  rewrite (Z.mod_small (elements_written_total p + n_tbw))
    by (unfold SIZE_MOD; lia).
  rewrite (Z.mod_small (w * n_tbw)) by (unfold SIZE_MOD; nia).
  destruct ((elements_written_total p + n_tbw <? nels) && (w * n_tbw <? l))
    eqn:Estash.
  - apply andb_prop in Estash. destruct Estash as [E1 E2].
    apply Z.ltb_lt in E1. apply Z.ltb_lt in E2.
    destruct (skipn (Z.to_nat n_tbw) (it p)) as [|elem it2] eqn:Eit;
      [cbn [length] in Hskip; lia|].
    assert (Hsized' : Forall (fun e : bytes => Z.of_nat (length e) = w)
                        (elem :: it2))
      by (rewrite <- Eit; now apply Forall_drop).
    assert (Helem : Z.of_nat (length elem) = w) by now inversion Hsized'.
    assert (Hside' : elem ++ skipn (length elem) (side_buffer p) = elem).
    { rewrite skipn_all2 by lia. apply app_nil_r. }
    eexists. eexists. split; [reflexivity|].
    rewrite (Z.mod_small (elements_written_total p + n_tbw + 1))
      by (unfold SIZE_MOD; lia).
    assert (Hpend : pending
                      {| npyheader := npyheader p;
                         buffer_capacity := buffer_capacity p;
                         header_bytes_remaining := header_bytes_remaining p;
                         bytes_buffer_written := bytes_buffer_written p;
                         buffer_size := w;
                         side_buffer := elem ++ skipn (length elem) (side_buffer p);
                         it := it2;
                         elements_written_total :=
                           elements_written_total p + n_tbw + 1 |} = elem).
    { unfold pending. cbn [buffer_size bytes_buffer_written side_buffer].
      rewrite HW, Hside', Z.sub_0_r. cbn [Z.to_nat skipn].
      apply firstn_all2. lia. }
    split; [|split; [|split]].
    + constructor; cbn [header_bytes_remaining buffer_size bytes_buffer_written
                        side_buffer elements_written_total it].
      * exact Hh.
      * right. rewrite HW. lia.
      * rewrite Hside'. exact Helem.
      * cbn [length] in Hskip. lia.
      * now inversion Hsized'.
    + unfold unread. rewrite Hpend. cbn [it].
      change (elem ++ concat it2) with (concat (elem :: it2)).
      rewrite <- Eit. apply concat_firstn_skipn.
    + lia.
    + intros _. right. right. rewrite Hpend. intros ->. cbn [length] in Helem. lia.
  - eexists. eexists. split; [reflexivity|].
    assert (Hpend : pending
                      {| npyheader := npyheader p;
                         buffer_capacity := buffer_capacity p;
                         header_bytes_remaining := header_bytes_remaining p;
                         bytes_buffer_written := bytes_buffer_written p;
                         buffer_size := buffer_size p;
                         side_buffer := side_buffer p;
                         it := skipn (Z.to_nat n_tbw) (it p);
                         elements_written_total :=
                           elements_written_total p + n_tbw |} = []).
    { unfold pending. cbn [buffer_size bytes_buffer_written side_buffer].
      rewrite HB, HW. reflexivity. }
    split; [|split; [|split]].
    + constructor; cbn [header_bytes_remaining buffer_size bytes_buffer_written
                        side_buffer elements_written_total it].
      * exact Hh.
      * left. now split.
      * exact Hside.
      * lia.
      * now apply Forall_drop.
    + unfold unread. rewrite Hpend. cbn [it app]. apply concat_firstn_skipn.
    + lia.
    + intros Hl1. destruct (it p) as [|e its] eqn:Eits; [now left|].
      right. left. intros Hnil. rewrite Hnil in Hout. cbn [length] in Hout.
      assert (n_tbw = 0) by nia.
      apply andb_false_iff in Estash. cbn [length] in Hcount.
      destruct Estash as [E|E]; apply Z.ltb_ge in E; lia.
Qed.

Lemma pulls_left_shrinks (out : bytes) (p p' : additional_parameters) :
  out ++ unread p' = unread p ->
  out <> [] \/ pending p = [] /\ pending p' <> [] ->
  (pulls_left p' < pulls_left p)%nat.
Proof.
  intros Heq Hcase. apply (f_equal (@length ascii)) in Heq.
  rewrite length_app in Heq. unfold pulls_left.
  destruct Hcase as [Hout | [Hp Hp']].
  - destruct out; [congruence|]. cbn [length] in Heq.
    destruct (pending p'), (pending p); lia.
  - rewrite Hp. destruct (pending p'); [congruence|]. lia.
Qed.

Lemma npzwrite_source_read_after_header
    (func : Z -> additional_parameters -> result (bytes * additional_parameters))
    (l : Z) (p : additional_parameters) :
  header_bytes_remaining p = 0 ->
  npzwrite_source_read func l p
  = let n := Z.min ((buffer_size p - bytes_buffer_written p) mod SIZE_MOD)
               (l mod SIZE_MOD) in
    let! out2 := copy_n (side_buffer p) (bytes_buffer_written p) n in
    if (bytes_buffer_written p + n) mod SIZE_MOD =? buffer_size p then
      let! produced :=
        func ((l - n) mod SIZE_MOD)
          {| npyheader := npyheader p; buffer_capacity := buffer_capacity p;
             header_bytes_remaining := header_bytes_remaining p;
             bytes_buffer_written := 0; buffer_size := 0;
             side_buffer := side_buffer p; it := it p;
             elements_written_total := elements_written_total p |} in
      let (out3, p3) := produced : bytes * additional_parameters in
      Ok (out2 ++ out3, p3)
    else
      Ok (out2,
          {| npyheader := npyheader p; buffer_capacity := buffer_capacity p;
             header_bytes_remaining := header_bytes_remaining p;
             bytes_buffer_written := (bytes_buffer_written p + n) mod SIZE_MOD;
             buffer_size := buffer_size p; side_buffer := side_buffer p;
             it := it p; elements_written_total := elements_written_total p |}).
Proof.
  intros Hh. unfold npzwrite_source_read. rewrite Hh.
  cbn [Z.eqb negb bind length Z.of_nat]. rewrite Hh. cbn [Z.eqb].
  rewrite Z.sub_0_r. cbv zeta. cbn [Z.add app]. reflexivity.
Qed.

Lemma npzwrite_source_read_streaming (w nels l : Z) (p : additional_parameters) :
  0 < w < 2 ^ 63 -> nels * w < 2 ^ 63 -> 0 <= l < 2 ^ 63 ->
  streaming w nels p ->
  exists out p',
    npzwrite_source_read (callback w nels) l p = Ok (out, p')
    /\ streaming w nels p'
    /\ out ++ unread p' = unread p
    /\ Z.of_nat (length out) <= l
    /\ (1 <= l -> unread p = [] \/ (pulls_left p' < pulls_left p)%nat).
Proof.
  intros Hw Hnels Hl Hst.
  pose proof Hst as [Hh Hbuf Hside Hcount Hsized].
  rewrite (npzwrite_source_read_after_header _ _ _ Hh). cbv zeta.
  rewrite (Z.mod_small l) by (unfold SIZE_MOD; lia).
  set (p2 := {| npyheader := npyheader p; buffer_capacity := buffer_capacity p;
                header_bytes_remaining := header_bytes_remaining p;
                bytes_buffer_written := 0;
                buffer_size := 0; side_buffer := side_buffer p; it := it p;
                elements_written_total := elements_written_total p |}).
  assert (Hst2 : streaming w nels p2).
  { constructor; cbn; auto. }
  set (Wb := bytes_buffer_written p) in *.
  assert (HBW : 0 <= buffer_size p - Wb <= w /\ 0 <= Wb)
    by (destruct Hbuf as [[-> ->] | [-> ?]]; lia).
  rewrite (Z.mod_small (buffer_size p - Wb)) by (unfold SIZE_MOD; lia).
  set (n := Z.min (buffer_size p - Wb) l).
  assert (Hn : 0 <= n <= buffer_size p - Wb /\ n <= l) by (unfold n; lia).
  assert (HBw : buffer_size p <= w) by (destruct Hbuf as [[-> ?] | [-> ?]]; lia).
  unfold copy_n.
  destruct ((Wb <? 0) || (Z.of_nat (length (side_buffer p)) <? Wb + n)) eqn:E.
  { apply orb_prop in E. destruct E as [E|E]; apply Z.ltb_lt in E; lia. }
  cbn [bind]. rewrite (Z.mod_small (Wb + n)) by (unfold SIZE_MOD; lia).
  set (out2 := firstn (Z.to_nat n) (skipn (Z.to_nat Wb) (side_buffer p))).
  assert (Hout2 : Z.of_nat (length out2) = n).
  { unfold out2. rewrite length_firstn, length_skipn. lia. }
  assert (Hpend : pending p
                  = out2 ++ firstn (Z.to_nat (buffer_size p - Wb - n))
                              (skipn (Z.to_nat (Wb + n)) (side_buffer p))).
  { unfold pending, out2. fold Wb.
    replace (Z.to_nat (buffer_size p - Wb))
      with (Z.to_nat n + Z.to_nat (buffer_size p - Wb - n))%nat by lia.
    rewrite firstn_split, skipn_skipn. do 3 f_equal. lia. }
  destruct (Wb + n =? buffer_size p) eqn:Efull.
  - apply Z.eqb_eq in Efull.
    rewrite (Z.mod_small (l - n)) by (unfold SIZE_MOD; lia).
    destruct (callback_streaming w nels (l - n) p2 ltac:(lia) Hnels
                ltac:(lia) Hst2 eq_refl eq_refl)
      as (out & p' & Hcb & Hst' & Heq & Hlen & Hprog).
    rewrite Hcb. cbn [bind]. exists (out2 ++ out), p'.
    assert (Hpend' : pending p = out2).
    { rewrite Hpend. replace (buffer_size p - Wb - n) with 0 by lia.
      cbn [Z.to_nat firstn]. apply app_nil_r. }
    split; [reflexivity|]. split; [exact Hst'|].
    assert (Heq' : (out2 ++ out) ++ unread p' = unread p).
    { unfold unread at 2. rewrite Hpend', <- app_assoc, Heq. reflexivity. }
    split; [exact Heq'|]. split; [rewrite length_app; lia|].
    intros Hl1.
    destruct out2 as [|c out2'] eqn:Eout2.
    + cbn [length] in Hout2. assert (Hn0 : n = 0) by lia.
      cbn [app] in *.
      destruct (Hprog ltac:(lia)) as [Hit | [Hout | Hp']].
      * left. unfold unread. rewrite Hpend'. cbn [it p2] in Hit.
        now rewrite Hit.
      * right. apply (pulls_left_shrinks out); auto.
      * right. apply (pulls_left_shrinks out); auto.
    + right. apply (pulls_left_shrinks ((c :: out2') ++ out)); [exact Heq'|].
      left. discriminate.
  - apply Z.eqb_neq in Efull.
    set (p' := {| npyheader := npyheader p; buffer_capacity := buffer_capacity p;
                  header_bytes_remaining := header_bytes_remaining p;
                  bytes_buffer_written := Wb + n; buffer_size := buffer_size p;
                  side_buffer := side_buffer p; it := it p;
                  elements_written_total := elements_written_total p |}).
    exists out2, p'.
    assert (HB : buffer_size p = w /\ n = l /\ Wb + l < w).
    { destruct Hbuf as [[HB HW] | [HB HW]]; unfold n in *; lia. }
    destruct HB as (HB & Hnl & Hroom).
    assert (Hpend' : pending p' = firstn (Z.to_nat (buffer_size p - Wb - n))
                                   (skipn (Z.to_nat (Wb + n)) (side_buffer p))).
    { unfold pending. cbn [buffer_size bytes_buffer_written side_buffer p'].
      do 2 f_equal. lia. }
    split; [reflexivity|]. split.
    { constructor; cbn [header_bytes_remaining buffer_size bytes_buffer_written
                        side_buffer elements_written_total it p']; auto.
      right. lia. }
    assert (Heq' : out2 ++ unread p' = unread p).
    { unfold unread. rewrite Hpend', Hpend, <- app_assoc. reflexivity. }
    split; [exact Heq'|]. split; [lia|].
    intros Hl1. right. apply (pulls_left_shrinks out2); [exact Heq'|].
    left. intros Hnil. rewrite Hnil in Hout2. cbn [length] in Hout2. lia.
Qed.

Lemma pull_all_streaming (w nels : Z) (ls : list Z) :
  0 < w < 2 ^ 63 -> nels * w < 2 ^ 63 ->
  Forall (fun l => 0 <= l < 2 ^ 63) ls ->
  forall p, streaming w nels p ->
  exists out p',
    pull_all (callback w nels) ls p = Ok (out, p')
    /\ streaming w nels p'
    /\ out ++ unread p' = unread p
    /\ (Forall (fun l => 1 <= l) ls -> (pulls_left p <= length ls + 1)%nat ->
        unread p' = []).
Proof.
  intros Hw Hnels Hls. induction Hls as [|l ls Hl Hls IH]; intros p Hst.
  - exists [], p. split; [reflexivity|]. split; [exact Hst|].
    split; [reflexivity|]. intros _ Hleft. unfold pulls_left in Hleft.
    cbn [length] in Hleft. destruct (unread p); [reflexivity|].
    cbn [length] in Hleft. lia.
  - destruct (npzwrite_source_read_streaming w nels l p Hw Hnels Hl Hst)
      as (out & p1 & Hread & Hst1 & Heq1 & _ & Hprog).
    destruct (IH p1 Hst1) as (outs & p' & Hpull & Hst' & Heq' & Hdone).
    cbn [pull_all]. rewrite Hread. cbn [bind]. rewrite Hpull. cbn [bind].
    exists (out ++ outs), p'. split; [reflexivity|]. split; [exact Hst'|].
    split; [now rewrite <- app_assoc, Heq', Heq1|].
    intros Hpos Hleft. inversion Hpos as [|? ? Hl1 Hpos']; subst.
    apply (Hdone Hpos'). cbn [length] in Hleft.
    destruct (Hprog Hl1) as [Hnil | Hlt]; [|lia].
    rewrite Hnil in Heq1. apply app_eq_nil in Heq1. destruct Heq1 as [_ Hun1].
    unfold pulls_left. rewrite Hun1. cbn [length].
    unfold unread in Hun1. apply app_eq_nil in Hun1. destruct Hun1 as [-> _]. lia.
Qed.

Lemma npzwrite_source_read_header
    (func : Z -> additional_parameters -> result (bytes * additional_parameters))
    (l : Z) (p : additional_parameters) :
  header_bytes_remaining p = Z.of_nat (length (npyheader p)) ->
  Z.of_nat (length (npyheader p)) <= l < 2 ^ 63 ->
  npzwrite_source_read func l p
  = let! r := npzwrite_source_read func (l - Z.of_nat (length (npyheader p)))
                (header_out p) in
    let (o, p') := r : bytes * additional_parameters in
    Ok (npyheader p ++ o, p').
Proof.
  intros Hh Hl.
  rewrite (npzwrite_source_read_after_header func _ (header_out p) eq_refl).
  destruct p as [h cap hbr bbw bsz side its ewt].
  cbn [npyheader header_bytes_remaining header_out buffer_size
       bytes_buffer_written side_buffer it elements_written_total
       buffer_capacity] in *.
  subst hbr. unfold npzwrite_source_read, header_tbw.
  cbn [npyheader header_bytes_remaining buffer_size
       bytes_buffer_written side_buffer it elements_written_total
       buffer_capacity].
  match goal with
  | |- bind ?step1 _ = _ =>
      replace step1
        with (Ok (h, {| npyheader := h; buffer_capacity := cap;
                        header_bytes_remaining := 0;
                        bytes_buffer_written := bbw; buffer_size := bsz;
                        side_buffer := side; it := its;
                        elements_written_total := ewt |}))
  end.
  2:{ destruct (Z.of_nat (length h) =? 0) eqn:E0; cbn [negb].
      - apply Z.eqb_eq in E0. rewrite E0.
        destruct h; [reflexivity | cbn [length] in E0; lia].
      - rewrite Z.sub_diag, Z.mod_0_l by (unfold SIZE_MOD; lia).
        replace (Z.min l (Z.of_nat (length h))) with (Z.of_nat (length h)) by lia.
        unfold copy_n. cbn [Z.ltb Z.compare orb Z.add].
        rewrite Z.ltb_irrefl. cbn [bind Z.to_nat skipn].
        rewrite Nat2Z.id, firstn_all, Z.sub_diag, Z.mod_0_l
          by (unfold SIZE_MOD; lia).
        reflexivity. }
  cbn [bind header_bytes_remaining Z.eqb npyheader buffer_size
       bytes_buffer_written side_buffer it elements_written_total
       buffer_capacity].
  cbv zeta.
  set (n := Z.min ((bsz - bbw) mod SIZE_MOD)
              ((l - Z.of_nat (length h)) mod SIZE_MOD)).
  destruct (copy_n side bbw n) as [out2| |]; cbn [bind]; try reflexivity.
  replace (l - (Z.of_nat (length h) + n)) with (l - Z.of_nat (length h) - n)
    by lia.
  destruct ((bbw + n) mod SIZE_MOD =? bsz); cbn [bind]; [|reflexivity].
  destruct (func _ _) as [[out3 p3]| |]; reflexivity.
Qed.

Lemma pull_all_behind_header (w : Z) (start : list bytes) (header : bytes)
    (l0 : Z) (ls : list Z) :
  0 < w < 2 ^ 63 ->
  Forall (fun e : bytes => Z.of_nat (length e) = w) start ->
  Z.of_nat (length start) * w < 2 ^ 63 ->
  Z.of_nat (length header) <= l0 < 2 ^ 63 ->
  Forall (fun l => 0 <= l < 2 ^ 63) ls ->
  exists out p,
    pull_all (callback w (Z.of_nat (length start))) (l0 :: ls)
      (make_parameters header w start) = Ok (out, p)
    /\ out ++ unread p = header ++ concat start
    /\ (Forall (fun l => 1 <= l) ls ->
        (2 * length (concat start) <= length ls)%nat ->
        out = header ++ concat start).
Proof.
  intros Hw Hsized Hbytes Hl0 Hls.
  set (nels := Z.of_nat (length start)) in *.
  set (p0 := make_parameters header w start).
  assert (Hh0 : header_bytes_remaining p0 = Z.of_nat (length (npyheader p0))).
  { cbn. apply Z.mod_small. unfold SIZE_MOD. lia. }
  assert (Hst0 : streaming w nels (header_out p0)).
  { constructor; cbn [header_out p0 make_parameters header_bytes_remaining
                      buffer_size bytes_buffer_written side_buffer it
                      elements_written_total].
    - reflexivity.
    - left. now split.
    - rewrite repeat_length. lia.
    - unfold nels. lia.
    - exact Hsized. }
  assert (Hun0 : unread (header_out p0) = concat start) by reflexivity.
  destruct (npzwrite_source_read_streaming w nels (l0 - Z.of_nat (length header))
              (header_out p0) Hw Hbytes ltac:(lia) Hst0)
    as (out1 & p1 & Hread & Hst1 & Heq1 & _ & _).
  destruct (pull_all_streaming w nels ls Hw Hbytes Hls p1 Hst1)
    as (outs & p & Hpull & _ & Heq & Hdone).
  exists (header ++ out1 ++ outs), p.
  split; [|split].
  - cbn [pull_all].
    rewrite (npzwrite_source_read_header _ l0 p0 Hh0 Hl0).
    change (npyheader p0) with header. rewrite Hread. cbn [bind].
    rewrite Hpull. cbn [bind]. now rewrite <- app_assoc.
  - rewrite <- !app_assoc, Heq, Heq1, Hun0. reflexivity.
  - intros Hpos Hmany.
    assert (Hp1 : (pulls_left p1 <= length ls + 1)%nat).
    { apply (f_equal (@length ascii)) in Heq1. rewrite length_app, Hun0 in Heq1.
      unfold pulls_left. destruct (pending p1); lia. }
    pose proof (Hdone Hpos Hp1) as Hnil. rewrite Hnil, app_nil_r in Heq.
    rewrite Heq, Heq1, Hun0. reflexivity.
Qed.

(** X14. For an array of rank at least 1 and fewer than [2^31] elements, of
    a width that is positive and below [2^31], whose source holds exactly the
    elements of the shape, the source that [npz_save] hands to the archive
    (its header made by [create_npy_header]) delivers the
    header and then the elements in order, whatever lengths below [2^63] the
    sink pulls with, as long as its first pull takes the whole header: what
    the pulls received is at every moment a beginning of header and payload,
    the rest being the unread part of the side buffer and the elements not
    yet visited.  Pulls narrower than an element are served through the side
    buffer, and after the first pull twice as many non-empty pulls as the
    payload has bytes have delivered everything. *)
Theorem npz_save_stream (host : byte_order) (T : value_type)
    (start : list bytes) (shape : list Z) (order : MemoryOrder)
    (p0 : additional_parameters) (l0 : Z) (ls : list Z) :
  0 < sizeof T < 2 ^ 31 ->
  0 <= product shape < 2 ^ 31 -> Z.of_nat (length start) = product shape ->
  Forall (fun e : bytes => Z.of_nat (length e) = sizeof T) start ->
  npz_save_parameters host T start shape order = Ok p0 ->
  Z.of_nat (length (npyheader p0)) <= l0 < 2 ^ 63 ->
  Forall (fun l => 0 <= l < 2 ^ 63) ls ->
  exists out p,
    pull_all (npz_save_callback T shape) (l0 :: ls) p0 = Ok (out, p)
    /\ out ++ unread p = npyheader p0 ++ concat start
    /\ (Forall (fun l => 1 <= l) ls ->
        (2 * length (concat start) <= length ls)%nat ->
        out = npyheader p0 ++ concat start).
Proof.
  intros HT Hprod Hlen Hsized Hp0 Hl0 Hls.
  unfold npz_save_parameters in Hp0.
  destruct (create_npy_header host shape (map_type T)
              (int_of_size_t (sizeof T)) order) as [header| |];
    cbn [bind] in Hp0; try discriminate.
  injection Hp0 as <-.
  unfold npz_save_callback.
  rewrite (accumulate_multiplies_int_product shape Hprod), <- Hlen.
  cbn [npyheader make_parameters] in *.
  apply pull_all_behind_header; auto; nia.
Qed.

Lemma npz_save_stream_witness :
  exists out p,
    pull_all (npz_save_callback uint32_t [3])
      (80 :: [3; 1; 2; 3; 3; 1; 1; 1; 1; 1; 1; 1; 1; 1; 1; 1; 1; 1; 1; 1; 1; 1;
              1; 1; 1])
      three_words_parameters = Ok (out, p)
    /\ out ++ unread p = npyheader three_words_parameters ++ concat three_words
    /\ (Forall (fun l => 1 <= l)
          [3; 1; 2; 3; 3; 1; 1; 1; 1; 1; 1; 1; 1; 1; 1; 1; 1; 1; 1; 1; 1; 1;
           1; 1; 1] ->
        (2 * length (concat three_words)
         <= length [3; 1; 2; 3; 3; 1; 1; 1; 1; 1; 1; 1; 1; 1; 1; 1; 1; 1; 1;
                    1; 1; 1; 1; 1; 1])%nat ->
        out = npyheader three_words_parameters ++ concat three_words).
Proof.
  apply (npz_save_stream LittleEndian uint32_t three_words [3] C
           three_words_parameters 80).
  - cbn. lia.
  - cbn. lia.
  - reflexivity.
  - repeat constructor.
  - reflexivity.
  - vm_compute. split; [discriminate | reflexivity].
  - repeat constructor; lia.
Defined.

(** ** The C interface *)

Lemma length_digits_aux (fuel : nat) :
  forall n acc k, 0 <= n < 10 ^ Z.of_nat (S k) ->
    (length (digits_aux fuel n acc) <= S k + length acc)%nat.
Proof.
  induction fuel as [|f IH]; intros n acc k Hn.
  - cbn [digits_aux length]. lia.
  - cbn [digits_aux]. destruct (n / 10 =? 0) eqn:E; [cbn [length]; lia|].
    apply Z.eqb_neq in E.
    destruct k as [|k].
    + change (10 ^ Z.of_nat 1) with 10 in Hn.
      exfalso. apply E. apply Z.div_small. lia.
    + assert (Hq : 0 <= n / 10 < 10 ^ Z.of_nat (S k)).
      { split; [apply Z.div_pos; lia|].
        apply Z.div_lt_upper_bound; [lia|].
        rewrite (Nat2Z.inj_succ (S k)), Z.pow_succ_r in Hn by lia. lia. }
      pose proof (IH (n / 10) (digit_char (n mod 10) :: acc) k Hq) as H.
      cbn [length] in H. lia.
Qed.

Lemma length_digits (n : Z) :
  0 <= n < 2 ^ 31 -> (length (digits n) <= 10)%nat.
Proof.
  intros Hn. unfold digits.
  pose proof (length_digits_aux (Z.to_nat (Z.log2 n)) n [] 9) as H.
  cbn [length] in H. apply H.
  change (10 ^ Z.of_nat 10) with 10000000000. lia.
Qed.

Lemma create_npy_header_1d_short (host : byte_order) (n : Z) (dtype : ascii)
    (wordsize : Z) (order : MemoryOrder) (h : bytes) :
  0 <= n < 2 ^ 31 -> 0 <= wordsize < 2 ^ 31 ->
  create_npy_header host [n] dtype wordsize order = Ok h ->
  Z.of_nat (length h) < 65546.
Proof.
  intros Hn Hw Hh.
  set (dict := lit "{'descr': '" ++ [BigEndianTest host] ++ [dtype]
                 ++ to_string wordsize ++ lit "', 'fortran_order': "
                 ++ fortran_text order ++ lit ", 'shape': (" ++ shape_text n []
                 ++ lit "), }").
  assert (E : h = preamble (pad_dict dict) ++ pad_dict dict)
    by (unfold create_npy_header, finish_header in Hh; fold dict in Hh;
        congruence).
  subst h. rewrite length_app, length_preamble, length_pad_dict.
  pose proof (Nat.mod_upper_bound (10 + length dict) 16 ltac:(lia)) as Hm.
  assert (Hdict : (length dict <= 100)%nat).
  { unfold dict, shape_text. rewrite !to_string_nonneg by lia.
    rewrite !length_app.
    pose proof (length_digits n Hn). pose proof (length_digits wordsize Hw).
    assert (length (fortran_text order) <= 5)%nat by (destruct order; cbn; lia).
    cbn [length lit list_ascii_of_string shape_tail map concat Nat.eqb]. lia. }
  lia.
Qed.

Lemma data_type_case_size (dtype : Z) (T : value_type) :
  data_type_case dtype = Some T -> 0 < sizeof T < 2 ^ 31.
Proof.
  unfold data_type_case. intros H.
  repeat match type of H with
         | (if ?c then _ else _) = _ =>
             destruct c; [injection H as <-; cbn; lia|]
         end.
  discriminate.
Qed.

(** ** A name that cannot be opened *)

Lemma stream_write_closed (data : bytes) (fs : fstream) :
  good fs = false -> stream_write data fs = fs.
Proof. intros H. unfold stream_write. now rewrite H. Qed.

Lemma write_data_loop_closed (size : Z) (buffer_size : nat) (fuel : nat) :
  forall (it : list bytes) todo fs,
    good fs = false -> (todo <= fuel)%nat -> (todo <= length it)%nat ->
    (0 < todo -> 0 < buffer_size)%nat ->
    Forall (fun e => Z.of_nat (length e) = size) it ->
    0 <= size -> Z.of_nat todo * size < SIZE_MOD ->
    write_data_loop fuel size buffer_size it todo fs = Ok fs.
Proof.
  induction fuel as [|fuel IH];
    intros it todo fs Hclosed Hfuel Hit Hbs Hsized Hsz Hbound.
  - assert (todo = 0%nat) as -> by lia. reflexivity.
  - cbn [write_data_loop]. destruct (todo =? 0)%nat eqn:E; [reflexivity|].
    apply Nat.eqb_neq in E.
    set (count := Nat.min buffer_size todo).
    assert (Hcount : (0 < count <= todo)%nat) by (unfold count; lia).
    destruct (length it <? count)%nat eqn:E2; [apply Nat.ltb_lt in E2; lia|].
    rewrite write_data_all.
    + cbn [bind]. rewrite stream_write_closed by exact Hclosed.
      apply IH; try lia.
      * exact Hclosed.
      * rewrite length_skipn. lia.
      * now apply Forall_drop.
    + now apply Forall_take.
    + rewrite length_firstn. lia.
    + nia.
Qed.

(** On a stream that is not open the payload goes nowhere. *)
Lemma write_payload_closed (contiguous : bool) (size : Z) (start : list bytes)
    (nels : Z) (fs : fstream) :
  good fs = false -> Forall (fun e => Z.of_nat (length e) = size) start ->
  Z.of_nat (length start) = nels -> 0 <= size -> nels * size < SIZE_MOD ->
  (if contiguous then write_data else write_data_chunked) size start nels fs
  = Ok fs.
Proof.
  intros Hclosed Hsized Hlen Hsz Hbound. destruct contiguous.
  - rewrite (write_data_all _ _ _ _ Hsized Hlen Hbound).
    now rewrite stream_write_closed.
  - unfold write_data_chunked. subst nels. rewrite Nat2Z.id.
    apply write_data_loop_closed; auto; lia.
Qed.

(** [npy_save] under a name that has no file and cannot be created: the call
    returns as after a successful write, and no file has changed. *)
Lemma npy_save_not_open (creatable : string -> bool)
    (files : gmap string bytes) (fname : string) (T : value_type)
    (contiguous : bool) (start : list bytes) (shape : list Z) (mode : string)
    (memory_order : MemoryOrder) (header : bytes) :
  is_open creatable files fname = false ->
  0 < sizeof T < 2 ^ 31 -> 0 <= product shape < 2 ^ 31 ->
  Z.of_nat (length start) = product shape ->
  Forall (fun e : bytes => Z.of_nat (length e) = sizeof T) start ->
  create_npy_header LittleEndian shape (map_type T) (sizeof T) memory_order
  = Ok header ->
  npy_save creatable LittleEndian files fname T contiguous start shape mode
    memory_order = Ok files.
Proof.
  intros Hopen HT Hprod Hlen Hsized Hheader. unfold npy_save.
  assert (Hnone : files !! fname = None).
  { unfold is_open, exists_ in Hopen.
    destruct (files !! fname); [discriminate | reflexivity]. }
  rewrite Hopen, Hnone.
  replace (match String.eqb mode "a" with
           | true | _ => Ok (open_out false, shape)
           end) with (Ok (open_out false, shape))
    by (now destruct (String.eqb mode "a")).
  cbn [bind open_out].
  rewrite (int_of_size_t_small (sizeof T) ltac:(lia)), Hheader. cbn [bind].
  rewrite (accumulate_multiplies_int_product _ Hprod).
  rewrite write_payload_closed;
    [reflexivity | reflexivity | exact Hsized | exact Hlen | lia
     | unfold SIZE_MOD; nia].
Qed.

(** X15. On a little-endian host, an array of fewer than [2^31] elements
    saved through [cnpypp_npy_save_1d] in mode ["w"] with one of the eleven
    data types, under a name that has a file or can be created, is returned
    by [cnpypp_load_npyarray]: the save answers 0, the handle is not null,
    the shape has rank 1 and holds the number of elements, the data are the
    bytes that were passed, and the memory order is C.  Under a name that
    has no file and cannot be created the save answers 0 all the same, no
    file is written, and [cnpypp_load_npyarray] answers the null handle. *)
Theorem cnpypp_npy_save_1d_load (creatable : string -> bool) (alignment : Z)
    (files : gmap string bytes) (fname : string) (dtype : Z) (T : value_type)
    (start : list bytes) :
  data_type_case dtype = Some T ->
  Z.of_nat (length start) < 2 ^ 31 ->
  Forall (fun e : bytes => Z.of_nat (length e) = sizeof T) start ->
  (is_open creatable files fname = true ->
   exists files' arr,
     cnpypp_npy_save_1d creatable LittleEndian files fname dtype start
       (Z.of_nat (length start)) "w" = Ok (0, files')
     /\ cnpypp_load_npyarray alignment files' fname = Ok (Some arr)
     /\ cnpypp_npyarray_get_shape (Some arr)
        = Ok ([Z.of_nat (length start)], 1)
     /\ cnpypp_npyarray_get_data (Some arr) = Ok (concat start)
     /\ cnpypp_npyarray_get_memory_order (Some arr)
        = Ok cnpypp_memory_order_c)
  /\ (is_open creatable files fname = false ->
      cnpypp_npy_save_1d creatable LittleEndian files fname dtype start
        (Z.of_nat (length start)) "w" = Ok (0, files)
      /\ cnpypp_load_npyarray alignment files fname = Ok None).
Proof.
  intros Hcase Hn Hsized.
  pose proof (data_type_case_size _ _ Hcase) as HT.
  assert (Hunfold : forall r,
            npy_save creatable LittleEndian files fname T true start
              [Z.of_nat (length start)] "w" C = Ok r ->
            cnpypp_npy_save_1d creatable LittleEndian files fname dtype start
              (Z.of_nat (length start)) "w" = Ok (0, r)).
  { intros r Hr. unfold cnpypp_npy_save_1d, cnpypp_npy_save.
    change (Z.of_nat (length [Z.of_nat (length start)]) <? 1) with false.
    change (firstn (Z.to_nat 1) [Z.of_nat (length start)])
      with [Z.of_nat (length start)].
    cbv iota zeta. cbn [MemoryOrder_of]. now rewrite Hcase, Hr. }
  split; intros Hopen.
  - destruct (npy_save_load_plain_array creatable alignment files fname T true
                false start [Z.of_nat (length start)] C)
      as (files' & Hsave & Hload).
    + exact Hopen.
    + exact HT.
    + discriminate.
    + repeat constructor; unfold INT_MAX; lia.
    + cbn. lia.
    + cbn. lia.
    + exact Hsized.
    + intros h Hh.
      apply (create_npy_header_1d_short LittleEndian (Z.of_nat (length start))
               (map_type T) (sizeof T) C h); [lia | lia | exact Hh].
    + discriminate.
    + exists files'. eexists. split; [exact (Hunfold _ Hsave)|].
      unfold cnpypp_load_npyarray. rewrite Hload. repeat split.
  - destruct (plain_dict_text LittleEndian (Z.of_nat (length start)) []
                (map_type T) (sizeof T) C ltac:(lia)) as [k Hk].
    split.
    + apply Hunfold.
      eapply (npy_save_not_open creatable files fname T true start
                [Z.of_nat (length start)] "w" C);
        [exact Hopen | exact HT | cbn; lia | cbn; lia | exact Hsized
         | exact Hk].
    + unfold cnpypp_load_npyarray, npy_load.
      unfold is_open, exists_ in Hopen.
      destruct (files !! fname); [discriminate | reflexivity].
Qed.

Lemma cnpypp_npy_save_1d_load_witness :
  (exists files' arr,
      cnpypp_npy_save_1d (creates ["c.npy"]) LittleEndian ∅ "c.npy" 5
        three_words 3 "w" = Ok (0, files')
      /\ cnpypp_load_npyarray 4096 files' "c.npy" = Ok (Some arr)
      /\ cnpypp_npyarray_get_shape (Some arr) = Ok ([3], 1)
      /\ cnpypp_npyarray_get_data (Some arr) = Ok (lit "abcdefghijkl")
      /\ cnpypp_npyarray_get_memory_order (Some arr)
         = Ok cnpypp_memory_order_c)
  /\ cnpypp_npy_save_1d (creates []) LittleEndian ∅ "c.npy" 5 three_words 3 "w"
     = Ok (0, ∅)
  /\ cnpypp_load_npyarray 4096 ∅ "c.npy" = Ok None.
Proof.
  split.
  - apply (proj1 (cnpypp_npy_save_1d_load (creates ["c.npy"]) 4096 ∅ "c.npy" 5
                    uint32_t three_words eq_refl ltac:(cbn; lia)
                    ltac:(repeat constructor))).
    reflexivity.
  - apply (proj2 (cnpypp_npy_save_1d_load (creates []) 4096 ∅ "c.npy" 5
                    uint32_t three_words eq_refl ltac:(cbn; lia)
                    ltac:(repeat constructor))).
    reflexivity.
Defined.

(** X16. [cnpypp_npy_save] turns an exception into the answer -1: an append
    that [npy_save] rejects (element width, type code, memory order, rank or
    a dimension behind the first differs from the file) answers -1 and leaves
    the files as they were.  A [dtype] outside the eleven known values is no
    error: it reaches the [default] label and the call answers 0 without
    writing anything. *)
Theorem cnpypp_npy_save_return_value (creatable : string -> bool)
    (host : byte_order) (files : gmap string bytes) (fname : string)
    (dtype : Z) (start : list bytes) (shape0 : list Z) (rank : Z)
    (mode : string) (memory_order : cnpypp_memory_order) :
  0 <= rank <= Z.of_nat (length shape0) ->
  (forall (T : value_type) (file : bytes) (h : parsed_header) (fs : fstream)
          (w : Z) (ws : list Z) (d : ascii) (dt : list ascii),
      data_type_case dtype = Some T ->
      files !! fname = Some file ->
      parse_npy_header (open_existing file) = Ok (h, fs) ->
      hdr_word_sizes h = w :: ws -> hdr_data_types h = d :: dt ->
      sizeof T <> w \/ map_type T <> d
      \/ MemoryOrder_of memory_order <> hdr_memory_order h
      \/ length (firstn (Z.to_nat rank) shape0) <> length (hdr_shape h)
      \/ tl (firstn (Z.to_nat rank) shape0) <> tl (hdr_shape h) ->
      cnpypp_npy_save creatable host files fname dtype start shape0 rank "a"
        memory_order = Ok (-1, files))
  /\ (dtype < 0 \/ 10 < dtype ->
      cnpypp_npy_save creatable host files fname dtype start shape0 rank mode
        memory_order = Ok (0, files)).
Proof.
  intros Hrank.
  assert (Hlt : (Z.of_nat (length shape0) <? rank) = false)
    by (apply Z.ltb_ge; lia).
  split.
  - intros T file h fs w ws d dt Hcase Hfile Hparse Hws Hdt Hmis.
    unfold cnpypp_npy_save. rewrite Hlt, Hcase.
    destruct (npy_save_append_rejects creatable host files fname T true start
                file
                (firstn (Z.to_nat rank) shape0) (MemoryOrder_of memory_order)
                h fs w ws d dt Hfile Hparse Hws Hdt Hmis) as [what Hthrow].
    now rewrite Hthrow.
  - intros Hdtype. unfold cnpypp_npy_save. rewrite Hlt.
    replace (data_type_case dtype) with (@None value_type); [reflexivity|].
    unfold data_type_case.
    repeat match goal with
           | |- _ = (if ?x =? ?y then _ else _) =>
               destruct (Z.eqb_spec x y); [lia|]
           end.
    reflexivity.
Qed.

Lemma cnpypp_npy_save_return_value_witness :
  cnpypp_npy_save (creates ["arr.npy"]) LittleEndian fortran_files "arr.npy" 1
    (repeat [chr 66] 6) [2; 3] 2 "a" cnpypp_memory_order_c
  = Ok (-1, fortran_files)
  /\ cnpypp_npy_save (creates ["arr.npy"]) LittleEndian fortran_files
       "arr.npy" 11 (repeat [chr 66] 6) [2; 3] 2 "w" cnpypp_memory_order_c
     = Ok (0, fortran_files).
Proof.
  split.
  - eapply (proj1 (cnpypp_npy_save_return_value (creates ["arr.npy"])
                     LittleEndian fortran_files "arr.npy" 1 (repeat [chr 66] 6)
                     [2; 3] 2 "a" cnpypp_memory_order_c ltac:(cbn; lia))
              uint8_t).
    + reflexivity.
    + vm_compute. reflexivity.
    + vm_compute. reflexivity.
    + reflexivity.
    + reflexivity.
    + right. right. left. discriminate.
  - apply (proj2 (cnpypp_npy_save_return_value (creates ["arr.npy"])
                    LittleEndian fortran_files "arr.npy" 11 (repeat [chr 66] 6)
                    [2; 3] 2 "w" cnpypp_memory_order_c ltac:(cbn; lia))).
    right. lia.
Defined.

(** ** Arrays in an archive *)

Lemma int64_of_small (z : Z) : 0 <= z < 2 ^ 63 -> int64_of z = z.
Proof.
  intros Hz. unfold int64_of.
  rewrite Z.mod_small by lia. lia.
Qed.

(** X17. [load_npy] parses the header at the start of an archive entry, with
    no look at the magic string, and takes as payload the last [num_bytes]
    bytes of the entry, wherever the header ends; for an entry that is a
    header followed by exactly the announced payload, that is the payload.
    This holds for entries that fit the header buffer and for larger ones,
    stored or compressed. *)
Theorem load_npy_window (e : zip_entry) (dict rest : bytes) (h : parsed_header) :
  entry_data e = (preamble dict ++ dict) ++ rest ->
  Z.of_nat (length dict) < 65536 ->
  parse_npy_dict dict = Ok h ->
  Z.of_nat (length (entry_data e)) < 2 ^ 63 ->
  let num_bytes :=
    (accumulate_plus (hdr_word_sizes h) * accumulate_multiplies (hdr_shape h))
      mod SIZE_MOD in
  num_bytes <= Z.of_nat (length (entry_data e)) ->
  load_npy e
  = Ok (make_NpyArray (hdr_shape h) (hdr_word_sizes h) (hdr_labels h)
          (hdr_memory_order h)
          (skipn (length (entry_data e) - Z.to_nat num_bytes) (entry_data e)))
  /\ (Z.of_nat (length rest) = num_bytes ->
      load_npy e
      = Ok (make_NpyArray (hdr_shape h) (hdr_word_sizes h) (hdr_labels h)
              (hdr_memory_order h) rest)).
Proof.
  intros Hdata Hdict Hparse Hsize n Hfit.
  assert (Hn0 : 0 <= n) by (apply Z.mod_pos_bound; unfold SIZE_MOD; lia).
  set (data := entry_data e) in *.
  set (size := Z.of_nat (length data)) in *.
  assert (Hwindow : firstn (Z.to_nat n) (skipn (Z.to_nat (size - n)) data)
                    = skipn (length data - Z.to_nat n) data).
  { replace (Z.to_nat (size - n)) with (length data - Z.to_nat n)%nat
      by (unfold size; lia).
    apply firstn_all2. rewrite length_skipn. lia. }
  assert (Hheader :
            parse_npy_header_buffer
              (zero_filled (Z.to_nat max_header_size)
                 (firstn (Z.to_nat max_header_size) data)) = Ok h).
  { unfold zero_filled. rewrite Hdata, firstn_app.
    rewrite (firstn_all2 (preamble dict ++ dict))
      by (rewrite length_app, length_preamble; unfold max_header_size; lia).
    rewrite <- app_assoc.
    now apply parse_npy_header_buffer_generated. }
  assert (Hfull : read_into (skipn (length data - Z.to_nat n) data)
                    (repeat zero (Z.to_nat n))
                  = skipn (length data - Z.to_nat n) data).
  { apply read_into_full. rewrite length_skipn, repeat_length.
    unfold size in *. lia. }
  assert (Hoff : int64_of ((size - n) mod SIZE_MOD) = size - n).
  { rewrite Z.mod_small by (unfold SIZE_MOD; lia).
    apply int64_of_small. lia. }
  assert (Hload : load_npy e
                  = Ok (make_NpyArray (hdr_shape h) (hdr_word_sizes h)
                          (hdr_labels h) (hdr_memory_order h)
                          (skipn (length data - Z.to_nat n) data))).
  { unfold load_npy, zip_fopen_index, zip_fread.
    cbn [zip_pos zip_content skipn Nat.add].
    fold data. fold size. change (skipn 0 data) with data.
    rewrite Hheader. cbn [bind]. fold n.
    unfold InMemoryBuffer.
    destruct (2 ^ 63 <=? n) eqn:Ebig;
      [apply Z.leb_le in Ebig; unfold size in *; lia|].
    cbn [bind]. rewrite Hoff.
    destruct (size <=? max_header_size) eqn:Esmall.
    - apply Z.leb_le in Esmall.
      rewrite (firstn_all2 data) by (unfold size in Esmall; lia).
      unfold copy_n, zero_filled.
      destruct ((size - n <? 0)
                || (Z.of_nat (length (data ++ repeat zero
                                        (Z.to_nat max_header_size - length data)))
                    <? size - n + n)) eqn:E.
      { apply orb_prop in E. destruct E as [E|E]; apply Z.ltb_lt in E; [lia|].
        rewrite length_app, repeat_length in E. unfold size in *. lia. }
      cbn [bind]. rewrite skipn_app.
      replace (Z.to_nat (size - n) - length data)%nat with 0%nat
        by (unfold size; lia).
      cbn [skipn]. rewrite firstn_app.
      replace (Z.to_nat n - length (skipn (Z.to_nat (size - n)) data))%nat
        with 0%nat by (rewrite length_skipn; unfold size; lia).
      cbn [firstn]. now rewrite app_nil_r, Hwindow, Hfull.
    - apply Z.leb_gt in Esmall.
      assert (Hcount : negb (Z.of_nat (length (skipn (length data - Z.to_nat n) data))
                             =? int64_of n) = false).
      { rewrite int64_of_small by lia. rewrite length_skipn.
        apply negb_false_iff, Z.eqb_eq. unfold size in *. lia. }
      destruct (entry_stored e).
      + unfold zip_fseek. cbn [zip_content].
        destruct ((size - n <? 0) || (Z.of_nat (length data) <? size - n)) eqn:E.
        { apply orb_prop in E. destruct E as [E|E]; apply Z.ltb_lt in E;
            unfold size in *; lia. }
        cbn [bind zip_content zip_pos]. rewrite Hwindow, Hcount.
        cbn [bind]. now rewrite Hfull.
      + destruct (size - n <? 0) eqn:E; [apply Z.ltb_lt in E; lia|].
        rewrite length_firstn.
        replace (Nat.min (Z.to_nat (size - n)) (length data))
          with (Z.to_nat (size - n)) by (unfold size; lia).
        replace (negb (Z.of_nat (Z.to_nat (size - n)) =? size - n)) with false
          by (symmetry; apply negb_false_iff, Z.eqb_eq; lia).
        cbn [bind zip_content zip_pos]. rewrite Hwindow, Hcount.
        cbn [bind]. now rewrite Hfull. }
  split; [exact Hload|].
  intros Hrest. rewrite Hload. do 2 f_equal. rewrite Hdata.
  replace (length ((preamble dict ++ dict) ++ rest) - Z.to_nat n)%nat
    with (length (preamble dict ++ dict)) by (rewrite (length_app _ rest); lia).
  apply skipn_exact.
Qed.

Lemma load_npy_window_witness :
  load_npy {| entry_name := "t.npy";
              entry_data := (preamble plain_dict ++ plain_dict)
                              ++ repeat "x"%char 256;
              entry_stored := true |}
  = Ok (make_NpyArray [8; 4; 2] [4] [] C (repeat "x"%char 256)).
Proof.
  apply (load_npy_window
           {| entry_name := "t.npy";
              entry_data := (preamble plain_dict ++ plain_dict)
                              ++ repeat "x"%char 256;
              entry_stored := true |}
           plain_dict (repeat "x"%char 256)
           {| hdr_word_sizes := [4]; hdr_data_types := ["u"%char];
              hdr_labels := []; hdr_shape := [8; 4; 2];
              hdr_memory_order := C |}).
  - reflexivity.
  - vm_compute. reflexivity.
  - vm_compute. reflexivity.
  - vm_compute. reflexivity.
  - vm_compute. discriminate.
  - vm_compute. reflexivity.
Defined.

Lemma emplace_lookup (name : string) (array : NpyArray)
    (arrays : gmap string NpyArray) (key : string) (a : NpyArray) :
  emplace name array arrays !! key = Some a ->
  arrays !! key = Some a
  \/ arrays !! name = None /\ key = name /\ a = NpyArray_move array.
Proof.
  unfold emplace. destruct (arrays !! name) eqn:E; [now left|].
  intros H. apply lookup_insert_Some in H.
  destruct H as [[<- <-] | [_ H]]; [right | left]; auto.
Qed.

Lemma npz_load_loop_labels (entries : list zip_entry) :
  forall arrays arrays',
    (forall name a, arrays !! name = Some a -> labels a = []) ->
    npz_load_loop entries arrays = Ok arrays' ->
    forall name a, arrays' !! name = Some a -> labels a = [].
Proof.
  induction entries as [|e entries IH]; intros arrays arrays' Hinv Hloop.
  - cbn [npz_load_loop] in Hloop. injection Hloop as <-. exact Hinv.
  - cbn [npz_load_loop] in Hloop.
    destruct (String.length (entry_name e) <? 4)%nat; [discriminate|].
    destruct (negb (String.eqb _ ".npy")); [now apply (IH arrays)|].
    destruct (load_npy e) as [array| |]; cbn [bind] in Hloop; try discriminate.
    refine (IH _ _ _ Hloop). intros name a H.
    destruct (emplace_lookup _ _ _ _ _ H) as [H0 | (_ & _ & ->)];
      [now apply (Hinv name) | reflexivity].
Qed.

(** X18. Every array of the map that [npz_load(fname)] returns has no
    labels, also when the entry is a structured array with labelled fields:
    the arrays are moved into the map, and the move constructor of
    [NpyArray] leaves [labels] out. *)
Theorem npz_load_drops_labels (archives : gmap string (list zip_entry))
    (fname : string) (arrays : gmap string NpyArray) (name : string)
    (a : NpyArray) :
  npz_load archives fname = Ok arrays -> arrays !! name = Some a ->
  labels a = [].
Proof.
  unfold npz_load. destruct (archives !! fname) as [entries|]; [|discriminate].
  intros Hloop. apply (npz_load_loop_labels entries ∅ arrays); [|exact Hloop].
  intros key b H. rewrite lookup_empty in H. discriminate.
Qed.

Lemma npz_load_drops_labels_witness :
  exists arrays a,
    npz_load record_archives "data.npz" = Ok arrays
    /\ arrays !! "rec" = Some a
    /\ word_sizes a = [4; 1; 2] /\ buffer a = lit "aaaabccddddeff"
    /\ labels a = [].
Proof.
  eexists. eexists.
  assert (Hload : npz_load record_archives "data.npz"
                  = Ok (<["rec" := NpyArray_move
                                     (make_NpyArray [2] [4; 1; 2]
                                        [lit "a"; lit "b"; lit "c"] C
                                        (lit "aaaabccddddeff"))]> ∅))
    by (vm_compute; reflexivity).
  split; [exact Hload|].
  assert (Hlook : (<["rec" := NpyArray_move
                                (make_NpyArray [2] [4; 1; 2]
                                   [lit "a"; lit "b"; lit "c"] C
                                   (lit "aaaabccddddeff"))]> ∅
                   : gmap string NpyArray) !! "rec"
                  = Some (NpyArray_move
                            (make_NpyArray [2] [4; 1; 2]
                               [lit "a"; lit "b"; lit "c"] C
                               (lit "aaaabccddddeff"))))
    by apply lookup_insert_eq.
  split; [exact Hlook|]. split; [reflexivity|]. split; [reflexivity|].
  exact (npz_load_drops_labels record_archives "data.npz" _ "rec" _ Hload Hlook).
Defined.

(** X19. [npz_load(fname)] does not return for an archive that holds an
    entry whose name has fewer than four characters: the extension is taken
    with [substr(size - 4, size)], whose position lies behind the end of such
    a name, so the call throws when it reaches the entry, if it gets that
    far. *)
Theorem npz_load_short_name (archives : gmap string (list zip_entry))
    (fname : string) (entries : list zip_entry) :
  archives !! fname = Some entries ->
  Exists (fun e => (String.length (entry_name e) < 4)%nat) entries ->
  ~ returns (npz_load archives fname).
Proof.
  intros Hfile Hshort. unfold npz_load. rewrite Hfile. clear Hfile.
  generalize (∅ : gmap string NpyArray).
  induction Hshort as [e entries He | e entries _ IH]; intros arrays [r Hr];
    cbn [npz_load_loop] in Hr.
  - apply Nat.ltb_lt in He. rewrite He in Hr. discriminate.
  - destruct (String.length (entry_name e) <? 4)%nat; [discriminate|].
    destruct (negb (String.eqb _ ".npy")).
    + apply (IH arrays). now exists r.
    + destruct (load_npy e) as [array| |]; cbn [bind] in Hr; try discriminate.
      eapply IH. exists r. exact Hr.
Qed.

Lemma npz_load_short_name_witness :
  ~ returns (npz_load
               (<["n.npz" := [{| entry_name := "a"; entry_data := lit "x";
                                 entry_stored := true |}]]> ∅) "n.npz").
Proof.
  apply (npz_load_short_name _ "n.npz"
           [{| entry_name := "a"; entry_data := lit "x"; entry_stored := true |}]).
  - apply lookup_insert_eq.
  - constructor. cbn. lia.
Defined.

Lemma substring_prefix (a b : string) :
  String.substring 0 (String.length a) (a +:+ b) = a.
Proof.
  induction a as [|c a IH]; simpl.
  - destruct b; reflexivity.
  - f_equal. exact IH.
Qed.

Lemma substring_whole (b : string) (m : nat) :
  (String.length b <= m)%nat -> String.substring 0 m b = b.
Proof.
  revert m. induction b as [|c b IH]; intros m Hm.
  - destruct m; reflexivity.
  - destruct m as [|m]; simpl in Hm; [lia|]. simpl. f_equal. apply IH. lia.
Qed.

Lemma substring_suffix (a b : string) (m : nat) :
  (String.length b <= m)%nat ->
  String.substring (String.length a) m (a +:+ b) = b.
Proof.
  intros Hm. induction a as [|c a IH]; simpl.
  - now apply substring_whole.
  - exact IH.
Qed.

Lemma string_length_app (a b : string) :
  String.length (a +:+ b) = (String.length a + String.length b)%nat.
Proof. induction a as [|c a IH]; simpl; [reflexivity | now f_equal]. Qed.

Lemma substring_split (s : string) (n m : nat) :
  (n <= String.length s)%nat -> (String.length s - n <= m)%nat ->
  s = String.substring 0 n s +:+ String.substring n m s.
Proof.
  revert n. induction s as [|c s IH]; intros n Hn Hm.
  - destruct n, m; reflexivity.
  - destruct n as [|n].
    + replace (String.substring 0 0 (String c s)) with EmptyString by reflexivity.
      rewrite substring_whole by lia. reflexivity.
    + simpl in Hn, Hm. simpl.
      change (String c (String.substring 0 n s) +:+ String.substring n m s)
        with (String c (String.substring 0 n s +:+ String.substring n m s)).
      f_equal. apply IH; lia.
Qed.

Lemma npz_load_loop_locate (varname : string) (a : NpyArray)
    (entries : list zip_entry) :
  forall arrays0 arrays,
    npz_load_loop entries arrays0 = Ok arrays ->
    arrays !! varname = Some a ->
    arrays0 !! varname = Some a
    \/ arrays0 !! varname = None
       /\ exists e array,
            zip_name_locate entries (varname +:+ ".npy") = Some e
            /\ load_npy e = Ok array /\ a = NpyArray_move array.
Proof.
  induction entries as [|e entries IH]; intros arrays0 arrays Hloop Hlook.
  - cbn [npz_load_loop] in Hloop. injection Hloop as <-. now left.
  - cbn [npz_load_loop zip_name_locate] in *.
    set (nm := entry_name e) in *.
    destruct (String.length nm <? 4)%nat eqn:Esize; [discriminate|].
    apply Nat.ltb_ge in Esize.
    pose proof (substring_split nm (String.length nm - 4) (String.length nm)
                  ltac:(lia) ltac:(lia)) as Hnm.
    set (stripped := String.substring 0 (String.length nm - 4) nm) in *.
    set (ext := String.substring (String.length nm - 4) (String.length nm) nm) in *.
    assert (Hfull : nm = varname +:+ ".npy" -> ext = ".npy" /\ stripped = varname).
    { intros E. unfold ext, stripped. rewrite E, string_length_app.
      cbn [String.length].
      replace (String.length varname + 4 - 4)%nat with (String.length varname)
        by lia.
      split; [apply substring_suffix; cbn; lia | apply substring_prefix]. }
    destruct (String.eqb ext ".npy") eqn:Eext; cbn [negb] in Hloop.
    + apply String.eqb_eq in Eext.
      destruct (load_npy e) as [array| |] eqn:Earray; cbn [bind] in Hloop;
        try discriminate.
      destruct (IH _ _ Hloop Hlook) as [Hin | (Hnone & e' & array' & Hloc & Hl & Ha)].
      * destruct (emplace_lookup _ _ _ _ _ Hin) as [H0 | (H0 & -> & ->)];
          [now left|].
        right. split; [exact H0|]. exists e, array.
        replace (String.eqb nm (stripped +:+ ".npy")) with true
          by (symmetry; apply String.eqb_eq; now rewrite Hnm at 1; rewrite Eext).
        auto.
      * assert (H0 : arrays0 !! varname = None).
        { unfold emplace in Hnone.
          destruct (arrays0 !! stripped); [exact Hnone|].
          apply lookup_insert_None in Hnone. tauto. }
        right. split; [exact H0|]. exists e', array'.
        destruct (String.eqb nm (varname +:+ ".npy")) eqn:Enm; [|auto].
        exfalso. apply String.eqb_eq in Enm.
        destruct (Hfull Enm) as [_ Hs]. unfold emplace in Hnone.
        rewrite Hs, H0, lookup_insert_eq in Hnone. discriminate.
    + destruct (IH _ _ Hloop Hlook) as [Hin | (Hnone & e' & array' & Hloc & Hl & Ha)];
        [now left|].
      right. split; [exact Hnone|]. exists e', array'.
      destruct (String.eqb nm (varname +:+ ".npy")) eqn:Enm; [|auto].
      exfalso. apply String.eqb_eq in Enm.
      destruct (Hfull Enm) as [He _]. rewrite He in Eext. discriminate.
Qed.

(** X20. The two overloads of [npz_load] agree: an array that
    [npz_load(fname)] returns under a name is what
    [npz_load(fname, varname)] returns for that name, moved once; the second
    overload never fails for a name that the first one lists. *)
Theorem npz_load_variable_agrees (elided : bool)
    (archives : gmap string (list zip_entry)) (fname varname : string)
    (arrays : gmap string NpyArray) (a : NpyArray) :
  npz_load archives fname = Ok arrays -> arrays !! varname = Some a ->
  exists array,
    npz_load_variable elided archives fname varname
    = Ok (if elided then array else a)
    /\ a = NpyArray_move array.
Proof.
  unfold npz_load, npz_load_variable.
  destruct (archives !! fname) as [entries|]; [|discriminate].
  intros Hloop Hlook.
  destruct (npz_load_loop_locate varname a entries ∅ arrays Hloop Hlook)
    as [Hin | (_ & e & array & Hloc & Hl & ->)].
  - rewrite lookup_empty in Hin. discriminate.
  - exists array. rewrite Hloc, Hl. cbn [bind]. split; reflexivity.
Qed.

Lemma npz_load_variable_agrees_witness :
  exists array,
    npz_load_variable true record_archives "data.npz" "rec" = Ok array
    /\ NpyArray_move
         (make_NpyArray [2] [4; 1; 2] [lit "a"; lit "b"; lit "c"] C
            (lit "aaaabccddddeff"))
       = NpyArray_move array.
Proof.
  apply (npz_load_variable_agrees true record_archives "data.npz" "rec"
           (<["rec" := NpyArray_move
                         (make_NpyArray [2] [4; 1; 2]
                            [lit "a"; lit "b"; lit "c"] C
                            (lit "aaaabccddddeff"))]> ∅)).
  - vm_compute. reflexivity.
  - apply lookup_insert_eq.
Defined.

(** ** Files cut short *)

Lemma last_zero_filled (got : bytes) (k : nat) :
  List.last (got ++ repeat zero (S k)) zero = zero.
Proof.
  rewrite repeat_snoc, app_assoc. apply last_last.
Qed.

(** X21. A file that ends inside its header dictionary is rejected: the
    missing bytes of the dictionary read as zero, so its last byte is not a
    newline, and [npy_load] throws the error of a missing terminating
    newline, in memory and memory-mapped. *)
Theorem npy_load_truncated_header (alignment : Z) (files : gmap string bytes)
    (fname : string) (memory_mapped : bool) (dict : bytes) (k : nat) :
  files !! fname = Some (preamble dict ++ firstn k dict) ->
  (k < length dict)%nat -> Z.of_nat (length dict) < 65536 ->
  npy_load alignment files fname memory_mapped
  = Throw "invalid header: missing terminating newline".
Proof.
  intros Hfile Hk Hlen. unfold npy_load. rewrite Hfile.
  destruct (preamble_fields dict) as (Hmagic & Hmajor & Hminor & Hfield).
  rewrite Z.mod_small in Hfield by lia.
  unfold parse_npy_header.
  assert (H1 : stream_read 10 (open_existing (preamble dict ++ firstn k dict))
               = (preamble dict,
                  {| content := preamble dict ++ firstn k dict;
                     pos := 10; good := true |})).
  { pose proof (stream_read_exact [] (preamble dict) (firstn k dict)) as H.
    cbn [app length] in H. rewrite length_preamble in H. exact H. }
  rewrite H1, length_preamble.
  change (10 <? 10)%nat with false. cbn iota.
  rewrite Hmagic, Hmajor, Hminor, Hfield. cbn [negb orb Z.eqb Pos.eqb].
  rewrite Nat2Z.id.
  unfold stream_read. cbn [good content pos].
  replace (skipn 10 (preamble dict ++ firstn k dict)) with (firstn k dict)
    by (symmetry; apply (skipn_exact (preamble dict))).
  rewrite firstn_firstn.
  replace (Nat.min (length dict) k) with k by lia.
  unfold zero_filled. rewrite length_firstn.
  replace (length dict - Nat.min k (length dict))%nat
    with (S (length dict - k - 1)) by lia.
  unfold parse_npy_dict.
  rewrite last_zero_filled.
  destruct (firstn k dict ++ repeat zero (S (length dict - k - 1))) eqn:E.
  - apply (f_equal (@length ascii)) in E.
    rewrite length_app, repeat_length in E. cbn [length] in E. lia.
  - reflexivity.
Qed.

Lemma npy_load_truncated_header_witness :
  npy_load 4096 (<["cut.npy" := preamble plain_dict ++ firstn 40 plain_dict]> ∅)
    "cut.npy" false
  = Throw "invalid header: missing terminating newline".
Proof.
  apply (npy_load_truncated_header 4096 _ "cut.npy" false plain_dict 40).
  - apply lookup_insert_eq.
  - vm_compute. lia.
  - vm_compute. reflexivity.
Defined.

(** ** Files that are written *)

(** X22. On a little-endian host, for an element width that is positive and
    below [2^31] and a source that holds exactly the elements of the shape,
    well-sized and fewer than [2^31]: in mode ["w"] under a name that has a
    file or can be created, [npy_save] leaves under that name the header
    that [create_npy_header] gives for the shape followed by the elements,
    whatever the file held before; mode ["a"] under a name that has no file
    and can be created does the same.  Under a name that has no file and
    cannot be created the call returns all the same, whatever the mode, and
    no file is written. *)
Theorem npy_save_file_layout (creatable : string -> bool)
    (files : gmap string bytes) (fname : string) (T : value_type)
    (contiguous : bool) (start : list bytes) (shape0 : list Z)
    (order : MemoryOrder) (header : bytes) :
  0 < sizeof T < 2 ^ 31 -> 0 <= product shape0 < 2 ^ 31 ->
  Z.of_nat (length start) = product shape0 ->
  Forall (fun e : bytes => Z.of_nat (length e) = sizeof T) start ->
  create_npy_header LittleEndian shape0 (map_type T) (sizeof T) order
  = Ok header ->
  (is_open creatable files fname = true ->
   exists files',
     npy_save creatable LittleEndian files fname T contiguous start shape0 "w"
       order = Ok files'
     /\ files' !! fname = Some (header ++ concat start))
  /\ (files !! fname = None -> creatable fname = true ->
      exists files',
        npy_save creatable LittleEndian files fname T contiguous start shape0
          "a" order = Ok files'
        /\ files' !! fname = Some (header ++ concat start))
  /\ (is_open creatable files fname = false ->
      forall mode : string,
        npy_save creatable LittleEndian files fname T contiguous start shape0
          mode order = Ok files).
Proof.
  intros HT Hprod Hlen Hsized Hheader.
  assert (Hw : is_open creatable files fname = true ->
               npy_save creatable LittleEndian files fname T contiguous start
                 shape0 "w" order
               = Ok (<[fname := header ++ concat start]> files)).
  { intros Hopen. now apply npy_save_write. }
  split; [|split].
  - intros Hopen. eexists. split; [exact (Hw Hopen) | apply lookup_insert_eq].
  - intros Hnone Hcreate.
    assert (Hopen : is_open creatable files fname = true)
      by (unfold is_open; rewrite Hcreate; apply orb_true_r).
    eexists. split; [|apply lookup_insert_eq].
    rewrite <- (Hw Hopen). unfold npy_save. rewrite Hnone. reflexivity.
  - intros Hopen mode.
    now apply (npy_save_not_open creatable files fname T contiguous start
                 shape0 mode order header).
Qed.

Lemma npy_save_file_layout_witness :
  (exists files',
      npy_save (creates []) LittleEndian fortran_files "arr.npy" uint32_t false
        three_words [3] "w" C = Ok files'
      /\ files' !! "arr.npy"
         = Some (get_or [] (create_npy_header LittleEndian [3] "u"%char 4 C)
                   ++ lit "abcdefghijkl"))
  /\ (exists files',
         npy_save (creates ["new.npy"]) LittleEndian fortran_files "new.npy"
           uint32_t false three_words [3] "a" C = Ok files'
         /\ files' !! "new.npy"
            = Some (get_or [] (create_npy_header LittleEndian [3] "u"%char 4 C)
                      ++ lit "abcdefghijkl"))
  /\ npy_save (creates []) LittleEndian fortran_files "new.npy" uint32_t false
       three_words [3] "w" C = Ok fortran_files.
Proof.
  assert (H : forall creatable fname,
            _ /\ _ /\ _)
    by (intros creatable fname;
        exact (npy_save_file_layout creatable fortran_files fname uint32_t
                 false three_words [3] C _ ltac:(cbn; lia) ltac:(cbn; lia)
                 eq_refl ltac:(repeat constructor) eq_refl)).
  split; [|split].
  - apply (proj1 (H (creates []) "arr.npy"%string)). reflexivity.
  - apply (proj1 (proj2 (H (creates ["new.npy"]) "new.npy"%string)));
      reflexivity.
  - apply (proj2 (proj2 (H (creates []) "new.npy"%string))). reflexivity.
Defined.

(** ** Distances between tuple iterators *)

(** X23. [tuple_iterator::distance_to] divides the pointer difference, a
    [ptrdiff_t], by [sum_sizes], a [size_t], so the division is unsigned.
    From an iterator to the one [n] tuples further on it yields [n]; in the
    other direction it yields [-n] only for tuples of one byte: for wider
    tuples the answer is not negative. *)
Theorem tuple_distance_to_advance (Tup : tuple_type) (ptr_ n : Z) :
  0 < sum_sizes Tup -> 0 <= n -> n * sum_sizes Tup < 2 ^ 63 ->
  tuple_distance_to Tup ptr_ (tuple_advance Tup n ptr_) = Ok n
  /\ (sum_sizes Tup = 1 ->
      tuple_distance_to Tup (tuple_advance Tup n ptr_) ptr_ = Ok (- n))
  /\ (2 <= sum_sizes Tup -> 1 <= n ->
      exists q,
        tuple_distance_to Tup (tuple_advance Tup n ptr_) ptr_ = Ok q
        /\ 0 <= q).
Proof.
  intros Hs Hn Hbound. unfold tuple_distance_to, tuple_advance.
  set (s := sum_sizes Tup) in *.
  destruct (s =? 0) eqn:E; [apply Z.eqb_eq in E; lia|].
  rewrite (Z.mod_small (n * s)) by (unfold SIZE_MOD; nia).
  replace (ptr_ + n * s - ptr_) with (n * s) by lia.
  replace (ptr_ - (ptr_ + n * s)) with (- (n * s)) by lia.
  assert (Hns : n <= n * s) by nia.
  split; [|split].
  - rewrite (Z.mod_small (n * s)) by (unfold SIZE_MOD; nia).
    rewrite Z.div_mul by lia. f_equal. unfold SIZE_MOD.
    rewrite Z.mod_small by lia. lia.
  - intros H1. rewrite H1, Z.mul_1_r, Z.div_1_r.
    destruct (Z.eq_dec n 0) as [->|Hn0]; [reflexivity|].
    f_equal. unfold SIZE_MOD.
    replace (- n) with (2 ^ 64 - n + -1 * 2 ^ 64) at 1 by lia.
    rewrite Z.mod_add, (Z.mod_small (2 ^ 64 - n)) by lia.
    replace (2 ^ 64 - n + 2 ^ 63) with (2 ^ 63 - n + 1 * 2 ^ 64) by lia.
    rewrite Z.mod_add, Z.mod_small by lia. lia.
  - intros H2 Hn1. eexists. split; [reflexivity|].
    unfold SIZE_MOD.
    replace (- (n * s)) with (2 ^ 64 - n * s + -1 * 2 ^ 64) by lia.
    rewrite Z.mod_add, (Z.mod_small (2 ^ 64 - n * s)) by lia.
    assert (Hq : 0 <= (2 ^ 64 - n * s) / s < 2 ^ 63).
    { split; [apply Z.div_pos; lia|].
      apply Z.div_lt_upper_bound; [lia|]. nia. }
    rewrite Z.mod_small by lia. lia.
Qed.

Lemma tuple_distance_to_advance_witness :
  tuple_distance_to [int32_t; int8_t; int16_t] 0
    (tuple_advance [int32_t; int8_t; int16_t] 3 0) = Ok 3
  /\ tuple_distance_to [int32_t; int8_t; int16_t]
       (tuple_advance [int32_t; int8_t; int16_t] 3 0) 0
     = Ok 2635249153387078799.
Proof.
  destruct (tuple_distance_to_advance [int32_t; int8_t; int16_t] 0 3)
    as (Hforward & _ & _); [reflexivity | lia | reflexivity|].
  split; [exact Hforward | reflexivity].
Defined.

(** ** Dimensions that do not fit an [int] *)

Lemma stoi_out_of_range (n : Z) (ds : bytes) :
  decimal_of n ds -> INT_MAX < n -> stoi ds = Throw "stoi".
Proof.
  intros [Hne Hdig Hval] Hn. unfold stoi.
  destruct ds as [|c ds]; [congruence|].
  simpl in Hdig. apply andb_prop in Hdig. destruct Hdig as [Hc Hds].
  cbn [drop_while]. rewrite (is_digit_not_space c Hc).
  pose proof (proj1 (is_digit_ord c) Hc) as Hord.
  rewrite !ascii_eqb_ord.
  replace (ord (chr 45)) with 45 by reflexivity.
  replace (ord (chr 43)) with 43 by reflexivity.
  destruct (ord c =? 45) eqn:E1; [apply Z.eqb_eq in E1; lia|].
  destruct (ord c =? 43) eqn:E2; [apply Z.eqb_eq in E2; lia|].
  pose proof (span_all is_digit (c :: ds) [] ltac:(simpl; now rewrite Hc, Hds) I) as Hsp.
  rewrite app_nil_r in Hsp. rewrite Hsp.
  rewrite Hval, Z.mul_0_l, Z.add_0_l.
  destruct (n <=? INT_MAX) eqn:E4; [apply Z.leb_le in E4; lia|].
  now rewrite andb_false_r.
Qed.

Lemma stoi_size_digits_result (d : Z) :
  0 <= d ->
  stoi_size (digits d) = Ok d /\ d <= INT_MAX
  \/ stoi_size (digits d) = Throw "stoi" /\ INT_MAX < d.
Proof.
  intros Hd. destruct (Z_le_gt_dec d INT_MAX) as [Hle|Hgt].
  - left. split; [apply stoi_size_digits; lia | exact Hle].
  - right. split; [|lia]. unfold stoi_size.
    now rewrite (stoi_out_of_range d (digits d) (digits_spec d Hd)) by lia.
Qed.

Lemma mapM_stoi_overflow (l : list Z) :
  Forall (fun d => 0 <= d) l -> Exists (fun d => INT_MAX < d) l ->
  mapM (fun m => stoi_size (sub_match m 0)) (map (fun d => [digits d]) l)
  = Throw "stoi".
Proof.
  intros Hall Hex. induction Hall as [|d l Hd Hall IH]; [inversion Hex|].
  cbn [map mapM sub_match nth].
  destruct (stoi_size_digits_result d Hd) as [[-> Hle] | [-> _]];
    [|reflexivity].
  cbn [bind]. inversion Hex as [? ? Hbig | ? ? Hrest]; subst; [lia|].
  now rewrite (IH Hrest).
Qed.

Lemma forallb_shape_tail_nonneg (rest : list Z) :
  Forall (fun d => 0 <= d) rest -> forallb shape_char (shape_tail rest) = true.
Proof.
  induction 1 as [|d rest Hd Hrest IH]; [reflexivity|].
  unfold shape_tail. cbn [map concat]. fold (shape_tail rest).
  rewrite to_string_nonneg by exact Hd.
  rewrite !forallb_app, IH, andb_true_r.
  apply andb_true_intro. split; [reflexivity|].
  destruct (digits_spec d Hd) as [_ Hdig _].
  apply forallb_forall. intros c Hc. unfold shape_char.
  now rewrite (forallb_In _ _ _ Hdig Hc).
Qed.

Lemma forallb_shape_text_nonneg (s0 : Z) (rest : list Z) :
  Forall (fun d => 0 <= d) (s0 :: rest) ->
  forallb shape_char (shape_text s0 rest) = true.
Proof.
  intros Hall. inversion Hall as [|? ? H0 Hrest]; subst.
  destruct (shape_text_unfold s0 rest H0) as (trail & Htrail & ->).
  rewrite !forallb_app, (forallb_shape_tail_nonneg _ Hrest).
  destruct (digits_spec s0 H0) as [_ Hdig _].
  apply andb_true_intro. split.
  - apply forallb_forall. intros c Hc. unfold shape_char.
    now rewrite (forallb_In _ _ _ Hdig Hc).
  - destruct Htrail as [-> | ->]; reflexivity.
Qed.

Lemma cregex_iterator_shape_tail_nonneg (rest : list Z) (trail : bytes) :
  Forall (fun d => 0 <= d) rest -> trail = [] \/ trail = lit "," ->
  cregex_iterator digit_re (shape_tail rest ++ trail)
  = map (fun d => [digits d]) rest.
Proof.
  intros Hrest Htrail. induction Hrest as [|d rest Hd Hrest IH].
  - destruct Htrail as [-> | ->]; reflexivity.
  - rewrite (cregex_iterator_step _ _ consuming_digit_re).
    unfold shape_tail. cbn [map concat]. fold (shape_tail rest).
    rewrite to_string_nonneg by exact Hd.
    rewrite <- !app_assoc.
    rewrite (regex_search_first digit_re (lit ", ") _ [digits d]
               (shape_tail rest ++ trail)).
    + cbn [map]. now rewrite IH.
    + cbn [lit list_ascii_of_string nowhere app].
      repeat split; now apply digit_re_not_digit.
    + apply digit_re_digits; [exact Hd|].
      apply shape_tail_head. destruct Htrail as [-> | ->]; [exact I | reflexivity].
Qed.

Lemma cregex_iterator_shape_nonneg (s0 : Z) (rest : list Z) :
  Forall (fun d => 0 <= d) (s0 :: rest) ->
  cregex_iterator digit_re (sh ++ shape_text s0 rest)
  = map (fun d => [digits d]) (s0 :: rest).
Proof.
  intros Hall. inversion Hall as [|? ? H0 Hrest]; subst.
  destruct (shape_text_unfold s0 rest H0) as (trail & Htrail & ->).
  rewrite (cregex_iterator_step _ _ consuming_digit_re).
  rewrite (regex_search_first digit_re sh _ [digits s0] (shape_tail rest ++ trail)).
  - cbn [map]. now rewrite (cregex_iterator_shape_tail_nonneg _ _ Hrest Htrail).
  - unfold sh. cbn [lit list_ascii_of_string nowhere app].
    repeat split; now apply digit_re_not_digit.
  - apply digit_re_digits; [exact H0|].
    apply shape_tail_head. destruct Htrail as [-> | ->]; [exact I | reflexivity].
Qed.

Lemma parse_shape_overflow (head : bytes) (s0 : Z) (rest : list Z) (X : bytes) :
  nowhere (no_occurrence sh) head (sh ++ shape_text s0 rest ++ lit ")" ++ X) ->
  Forall (fun d => 0 <= d) (s0 :: rest) ->
  Exists (fun d => INT_MAX < d) (s0 :: rest) ->
  parse_shape (head ++ sh ++ shape_text s0 rest ++ lit ")" ++ X) = Throw "stoi".
Proof.
  intros Hhead Hall Hbig. unfold parse_shape.
  rewrite (find_nowhere _ _ _ Hhead) by apply is_prefix_app.
  replace (head ++ sh ++ shape_text s0 rest ++ lit ")" ++ X)
    with (head ++ (sh ++ shape_text s0 rest) ++ lit ")" ++ X)
    by now rewrite <- app_assoc.
  rewrite find_from_nowhere; [|apply nowhere_app|reflexivity].
  - rewrite slice_middle, (cregex_iterator_shape_nonneg _ _ Hall).
    now apply mapM_stoi_overflow.
  - unfold sh. cbn [lit list_ascii_of_string nowhere app].
    repeat split; reflexivity.
  - apply (nowhere_class shape_char);
      [now apply forallb_shape_text_nonneg | reflexivity].
Qed.

Lemma parse_npy_dict_overflow (head : bytes) (memory_order : MemoryOrder)
    (s0 : Z) (rest : list Z) (k : nat) :
  dict_head head -> Forall (fun d => 0 <= d) (s0 :: rest) ->
  Exists (fun d => INT_MAX < d) (s0 :: rest) ->
  parse_npy_dict (head ++ dict_tail memory_order s0 rest k) = Throw "stoi".
Proof.
  intros [[t Hfront] Hkeys] Hshape Hbig.
  assert (Hfo : parse_fortran_order (head ++ dict_tail memory_order s0 rest k)
                = Ok memory_order).
  { unfold dict_tail. apply parse_fortran_order_generated.
    apply (Hkeys "f"%char (lit "ortran_order") (lit " "));
      [vm_compute; split; discriminate | reflexivity | discriminate]. }
  assert (Hsh : parse_shape (head ++ dict_tail memory_order s0 rest k)
                = Throw "stoi").
  { unfold dict_tail.
    replace (head ++ lit "'fortran_order': " ++ fortran_text memory_order
               ++ lit ", " ++ sh ++ shape_text s0 rest ++ lit "), }" ++ padding k)
      with ((head ++ lit "'fortran_order': " ++ fortran_text memory_order ++ lit ", ")
              ++ sh ++ shape_text s0 rest ++ lit ")" ++ lit ", }" ++ padding k)
      by (rewrite <- !app_assoc; reflexivity).
    apply parse_shape_overflow; [|exact Hshape|exact Hbig].
    apply nowhere_app.
    - apply (Hkeys "s"%char (lit "hape") (lit " ("));
        [vm_compute; split; discriminate | reflexivity | discriminate].
    - apply (key_fortran_part "s"%char (lit "hape") (lit " ("));
        [vm_compute; split; discriminate | discriminate]. }
  unfold parse_npy_dict.
  rewrite Hfo, Hsh, last_padding_tail. cbn [bind].
  subst head. reflexivity.
Qed.

(** X24. A header that [create_npy_header] writes for a shape with a
    dimension of [2^31] or more is not read back: the parser converts the
    dimensions with [std::stoi], which throws for a value that does not fit an
    [int], so both [parse_npy_header] overloads throw on the header the
    library itself produced. *)
Theorem create_npy_header_dimension_overflow (T : value_type) (s0 : Z)
    (rest : list Z) (order : MemoryOrder) (header payload : bytes) :
  0 <= sizeof T ->
  Forall (fun d => 0 <= d) (s0 :: rest) ->
  Exists (fun d => INT_MAX < d) (s0 :: rest) ->
  create_npy_header LittleEndian (s0 :: rest) (map_type T) (sizeof T) order
  = Ok header ->
  Z.of_nat (length header) < 65546 ->
  parse_npy_header_buffer header = Throw "stoi"
  /\ parse_npy_header (open_existing (header ++ payload)) = Throw "stoi".
Proof.
  intros HT Hshape Hbig Hheader Hshort.
  destruct (plain_dict_text LittleEndian s0 rest (map_type T) (sizeof T) order
              HT) as [k Hk].
  set (dict := plain_head LittleEndian (map_type T) (sizeof T)
                 ++ dict_tail order s0 rest k) in *.
  assert (E : header = preamble dict ++ dict) by congruence. subst header.
  rewrite length_app, length_preamble in Hshort.
  assert (Hdict : parse_npy_dict dict = Throw "stoi").
  { apply parse_npy_dict_overflow; [|exact Hshape|exact Hbig].
    apply dict_head_plain; [apply map_type_code | exact HT]. }
  split.
  - destruct (preamble_fields dict) as (_ & Hmajor & Hminor & Hfield).
    rewrite Z.mod_small in Hfield by lia.
    unfold parse_npy_header_buffer.
    assert (Hnth : forall i, (i < 10)%nat ->
              nth_error (preamble dict ++ dict) i
              = Some (nth i (preamble dict) zero)).
    { intros i Hi. rewrite nth_error_app1 by (rewrite length_preamble; lia).
      apply nth_error_nth'. rewrite length_preamble. lia. }
    rewrite !Hnth by lia. rewrite Hmajor, Hminor, Hfield, Nat2Z.id.
    cbn [Z.eqb Pos.eqb andb negb].
    destruct (length (preamble dict ++ dict) <? 10 + length dict)%nat eqn:E.
    { apply Nat.ltb_lt in E. rewrite !length_app, length_preamble in E. lia. }
    replace (skipn 10 (preamble dict ++ dict)) with dict
      by (symmetry; apply (skipn_exact (preamble dict))).
    now rewrite firstn_all.
  - destruct (preamble_fields dict) as (Hmagic & Hmajor & Hminor & Hfield).
    rewrite Z.mod_small in Hfield by lia.
    unfold parse_npy_header.
    assert (H1 : stream_read 10 (open_existing ((preamble dict ++ dict) ++ payload))
                 = (preamble dict,
                    {| content := (preamble dict ++ dict) ++ payload;
                       pos := 10; good := true |})).
    { rewrite <- app_assoc.
      exact (stream_read_exact [] (preamble dict) (dict ++ payload)). }
    rewrite H1, length_preamble.
    change (10 <? 10)%nat with false. cbn iota.
    rewrite Hmagic, Hmajor, Hminor, Hfield. cbn [negb orb Z.eqb Pos.eqb].
    rewrite Nat2Z.id.
    assert (H2 : stream_read (length dict)
                   {| content := (preamble dict ++ dict) ++ payload;
                      pos := 10; good := true |}
                 = (dict, {| content := (preamble dict ++ dict) ++ payload;
                             pos := length (preamble dict ++ dict);
                             good := true |})).
    { rewrite <- app_assoc, length_app.
      exact (stream_read_exact (preamble dict) dict payload). }
    rewrite H2. unfold zero_filled. rewrite Nat.sub_diag. cbn [repeat].
    rewrite app_nil_r, Hdict. reflexivity.
Qed.

Lemma create_npy_header_dimension_overflow_witness :
  parse_npy_header_buffer
    (get_or [] (create_npy_header LittleEndian [2; 2147483648] "u"%char 1 C))
  = Throw "stoi"
  /\ parse_npy_header
       (open_existing
          (get_or [] (create_npy_header LittleEndian [2; 2147483648] "u"%char 1 C)
             ++ []))
     = Throw "stoi".
Proof.
  apply (create_npy_header_dimension_overflow uint8_t 2 [2147483648] C).
  - cbn. lia.
  - repeat constructor; lia.
  - right. left. unfold INT_MAX. lia.
  - reflexivity.
  - vm_compute. reflexivity.
Defined.
